(** * timemachine-firmware: gesture classifier, panel manager, scene composer

    A shallow embedding of the core subsystems of the firmware, the
    properties the specification states about them, and further properties
    read off the code:

    - [Touch]   : [touch_sensor.c]  (debounced tap / long-press classifier)
    - [Panel]   : [panel_manager.c] (cyclic panel registry with idle return)
    - [Font]    : [default_font.c], [dotmatrix_small_font.c] (glyph lookups)
    - [Display] : [display_max7219.c] (layout, 8x8 rotation, cascade order)
    - [Brightness] : [brightness_control.c] (the long-press brightness sweep)
    - [Clock]   : [clock_panel.c], [i18n.c] (the scene of the clock panel)

    Machine integers are [Z] with the wrap-around written where the C code can
    wrap; C strings are [string]s read up to the first NUL; the static state
    structs are records threaded through the functions; events posted to the
    event loop are returned as a list. *)

From Stdlib Require Import ZArith Lia Bool List String Ascii.
From stdpp Require Import base list.
Import ListNotations.

Local Open Scope Z_scope.

(* ====================================================================== *)
(** * Touch sensor ([touch_sensor.c]) *)
(* ====================================================================== *)

Module Touch.

(** [TickType_t] is a 32-bit unsigned tick counter. *)
Definition TickType_wrap (z : Z) : Z := z mod 2 ^ 32.

(** [pdMS_TO_TICKS]: milliseconds to ticks at the kernel's tick rate.  The
    rate [configTICK_RATE_HZ] is a build constant that is not part of the
    sources, so it is a parameter of everything below. *)
Definition pdMS_TO_TICKS (configTICK_RATE_HZ ms : Z) : Z :=
  TickType_wrap (ms * configTICK_RATE_HZ / 1000).

Definition LONG_PRESS_MS : Z := 200.

(** The three input events of [timemachine_event_id_t] the classifier posts
    (Tap, LongPressStart, LongPressEnd in the words of the specification). *)
Inductive input_event : Set :=
| INPUT_TAP
| INPUT_LONG_PRESS
| INPUT_RELEASE.

Definition input_event_eqb (a b : input_event) : bool :=
  match a, b with
  | INPUT_TAP, INPUT_TAP => true
  | INPUT_LONG_PRESS, INPUT_LONG_PRESS => true
  | INPUT_RELEASE, INPUT_RELEASE => true
  | _, _ => false
  end.

(** [touch_sensor_config_t]; the GPIO number plays no role in the logic. *)
Record touch_sensor_config_t : Set := {
  active_high : bool;
  debounce_ms : Z
}.

(** A FreeRTOS software timer: its current period and, when it is active,
    the (unwrapped) tick at which it expires.  A dormant timer has no expiry. *)
Record timer : Set := {
  period : Z;
  expiry : option Z
}.

(** [xTimerCreate]: the timer is created dormant. *)
Definition xTimerCreate (p : Z) : timer := {| period := p; expiry := None |}.

(** [xTimerStart] / [xTimerStartFromISR]: (re)start with the current period,
    counted from the moment of the call. *)
Definition xTimerStart (now : Z) (tm : timer) : timer :=
  {| period := period tm; expiry := Some (now + period tm) |}.

(** [xTimerStop] / [xTimerStopFromISR]. *)
Definition xTimerStop (tm : timer) : timer :=
  {| period := period tm; expiry := None |}.

(** [xTimerChangePeriod]: stores the new period; as in FreeRTOS, the timer is
    active afterwards and expires one new period after the call. *)
Definition xTimerChangePeriod (now p : Z) (tm : timer) : timer :=
  {| period := p; expiry := Some (now + p) |}.

(** A one-shot timer is dormant again when its callback runs. *)
Definition timer_expired (tm : timer) : timer :=
  {| period := period tm; expiry := None |}.

(** The static [s_state].  The three debug counters of the C struct are never
    written by any function and are left out. *)
Record state : Set := {
  initialized : bool;
  config : touch_sensor_config_t;
  last_touch_time : Z;
  release_timer : timer;
  is_pressed : bool;
  long_press_detected : bool
}.

(** [s] with its [release_timer] replaced. *)
Definition with_release_timer (tm : timer) (s : state) : state :=
  {| initialized := initialized s;
     config := config s;
     last_touch_time := last_touch_time s;
     release_timer := tm;
     is_pressed := is_pressed s;
     long_press_detected := long_press_detected s |}.

Definition is_touch_active (cfg : touch_sensor_config_t) (level : Z) : bool :=
  Bool.eqb (level =? 1) (active_high cfg).

Section Classifier.

Variable configTICK_RATE_HZ : Z.

(** [touch_sensor_init] on a fresh [s_state] (all driver calls succeed). *)
Definition touch_sensor_init (cfg : touch_sensor_config_t) : state :=
  {| initialized := true;
     config := cfg;
     last_touch_time := 0;
     release_timer := xTimerCreate (pdMS_TO_TICKS configTICK_RATE_HZ LONG_PRESS_MS);
     is_pressed := false;
     long_press_detected := false |}.

(** [release_timer_callback], run by the timer task at tick [now]; [level] is
    what [gpio_get_level] returns.  Returns the new state and the events
    posted, in order. *)
Definition release_timer_callback (now level : Z) (s : state)
  : state * list input_event :=
  if negb (is_touch_active (config s) level) then
    if long_press_detected s then
      ({| initialized := initialized s;
          config := config s;
          last_touch_time := last_touch_time s;
          release_timer :=
            xTimerChangePeriod now
              (pdMS_TO_TICKS configTICK_RATE_HZ LONG_PRESS_MS) (release_timer s);
          is_pressed := false;
          long_press_detected := false |},
       [INPUT_RELEASE])
    else if is_pressed s then
      ({| initialized := initialized s;
          config := config s;
          last_touch_time := last_touch_time s;
          release_timer := release_timer s;
          is_pressed := false;
          long_press_detected := long_press_detected s |},
       [INPUT_TAP])
    else (s, [])
  else if negb (long_press_detected s) then
    ({| initialized := initialized s;
        config := config s;
        last_touch_time := last_touch_time s;
        release_timer :=
          xTimerStart now
            (xTimerChangePeriod now (pdMS_TO_TICKS configTICK_RATE_HZ 50)
               (release_timer s));
        is_pressed := is_pressed s;
        long_press_detected := true |},
     [INPUT_LONG_PRESS])
  else
    ({| initialized := initialized s;
        config := config s;
        last_touch_time := last_touch_time s;
        release_timer := xTimerStart now (release_timer s);
        is_pressed := is_pressed s;
        long_press_detected := long_press_detected s |},
     []).

(** [gpio_isr_handler], entered on either edge at (unwrapped) tick [now];
    [xTaskGetTickCountFromISR] returns the wrapped counter and the elapsed
    time is an unsigned 32-bit difference. *)
Definition gpio_isr_handler (now level : Z) (s : state)
  : state * list input_event :=
  let ticks := TickType_wrap now in
  let debounce_ticks := pdMS_TO_TICKS configTICK_RATE_HZ (debounce_ms (config s)) in
  if TickType_wrap (ticks - last_touch_time s) <? debounce_ticks then (s, [])
  else
    let active := is_touch_active (config s) level in
    if active && negb (is_pressed s) then
      ({| initialized := initialized s;
          config := config s;
          last_touch_time := ticks;
          release_timer := xTimerStart now (release_timer s);
          is_pressed := true;
          long_press_detected := false |},
       [])
    else if negb active && is_pressed s then
      ({| initialized := initialized s;
          config := config s;
          last_touch_time := ticks;
          release_timer := xTimerStop (release_timer s);
          is_pressed := false;
          long_press_detected := long_press_detected s |},
       [if long_press_detected s then INPUT_RELEASE else INPUT_TAP])
    else
      ({| initialized := initialized s;
          config := config s;
          last_touch_time := ticks;
          release_timer := release_timer s;
          is_pressed := is_pressed s;
          long_press_detected := long_press_detected s |},
       []).

(** ** The environment: a contact signal and the timer task

    Events are stamped with the tick at which they are posted. *)
Definition stamp (t : Z) (evs : list input_event) : list (Z * input_event) :=
  map (fun e => (t, e)) evs.

(** Run every expiry of the release timer that is due at or before tick [t]
    while the line reads [level].  Each expiry runs the callback at the tick
    the timer was set to; [fuel] bounds the number of expiries. *)
Fixpoint fire_timers_fuel (fuel : nat) (t level : Z) (s : state)
  : state * list (Z * input_event) :=
  match fuel with
  | O => (s, [])
  | S fuel' =>
      match expiry (release_timer s) with
      | None => (s, [])
      | Some e =>
          if e <=? t then
            let dormant :=
              {| initialized := initialized s;
                 config := config s;
                 last_touch_time := last_touch_time s;
                 release_timer := timer_expired (release_timer s);
                 is_pressed := is_pressed s;
                 long_press_detected := long_press_detected s |} in
            let '(s1, evs) := release_timer_callback e level dormant in
            let '(s2, rest) := fire_timers_fuel fuel' t level s1 in
            (s2, stamp e evs ++ rest)
          else (s, [])
      end
  end.

(** With periods of at least one tick, an expiry at [e <= t] is followed by
    at most [t - e] further ones up to [t]. *)
Definition fire_timers (t level : Z) (s : state) : state * list (Z * input_event) :=
  match expiry (release_timer s) with
  | None => (s, [])
  | Some e => fire_timers_fuel (Z.to_nat (t - e + 1)) t level s
  end.

(** A contact signal: the level the line has before the first edge, and the
    edges in time order, each with the level the handler reads after it.
    Timer expiries due at the tick of an edge run before the handler: the
    timer task is released by the tick interrupt that starts that tick. *)
Fixpoint run (level0 : Z) (edges : list (Z * Z)) (s : state)
  : state * list (Z * input_event) :=
  match edges with
  | [] => (s, [])
  | (t, level) :: rest =>
      let '(s1, ev1) := fire_timers t level0 s in
      let '(s2, ev2) := gpio_isr_handler t level s1 in
      let '(s3, ev3) := run level rest s2 in
      (s3, ev1 ++ stamp t ev2 ++ ev3)
  end.

Definition final_level (level0 : Z) (edges : list (Z * Z)) : Z :=
  List.last (map snd edges) level0.

(** The signal [edges], observed until tick [horizon]. *)
Definition run_until (horizon level0 : Z) (edges : list (Z * Z)) (s : state)
  : state * list (Z * input_event) :=
  let '(s1, ev1) := run level0 edges s in
  let '(s2, ev2) := fire_timers horizon (final_level level0 edges) s1 in
  (s2, ev1 ++ ev2).

End Classifier.

Definition count_event (e : input_event) (evs : list (Z * input_event)) : nat :=
  length (List.filter (fun p => input_event_eqb e (snd p)) evs).

(** The classifier is between gestures at tick [t]: nothing is pressed and
    no expiry of the timer is due up to [t].  (After a long press that the
    interrupt ended, [long_press_detected] is still set; the next press
    clears it.) *)
Definition released_at (t : Z) (s : state) : Prop :=
  is_pressed s = false /\
  forall e, expiry (release_timer s) = Some e -> t < e.

(** The classifier is idle: nothing pressed, no long press, timer dormant. *)
Definition idle (s : state) : Prop :=
  is_pressed s = false /\ long_press_detected s = false /\
  expiry (release_timer s) = None.

(** ** A concrete build

    A 100 Hz tick (10 ms per tick): the long-press threshold is 20 ticks, the
    polling period 5 ticks, and a 50 ms debounce 5 ticks. *)
Definition cfg50 : touch_sensor_config_t :=
  {| active_high := true; debounce_ms := 50 |}.

Definition booted : state := touch_sensor_init 100 cfg50.

(** A long press from tick 100 to tick 133, ended by the release interrupt. *)
Definition long_press_signal : list (Z * Z) := [(100, 1); (133, 0)].

(** The same press with a contact glitch at tick 131, so that the release
    edge at 133 is debounced and the release is found by the poll at 135. *)
Definition long_press_polled_signal : list (Z * Z) :=
  [(100, 1); (131, 1); (133, 0)].

End Touch.

(* ====================================================================== *)
(** * Fonts ([font.h], [default_font.c], [dotmatrix_font.c],
      [dotmatrix_small_font.c]) *)
(* ====================================================================== *)

Module Font.

(** [font_char_t]: a width in columns ([uint8_t]) and the column bytes; a
    NULL [data] pointer is [None]. *)
Record font_char_t : Set := {
  width : Z;
  data : option (list Z)
}.

(** [font_t]: the two lookups, indexed by the character code [0..255].  The
    C functions return a pointer; a NULL result is [None]. *)
Record font_t : Set := {
  name : string;
  get_char : Z -> option font_char_t;
  get_char_last : Z -> option font_char_t
}.

Definition uint8_wrap (z : Z) : Z := z mod 256.

(** [table[i]] for an index inside the table. *)
Definition at_index (table : list Z) (i : Z) : Z := nth (Z.to_nat i) table 0.

(** [&table[offset]], read for [n] bytes. *)
Definition slice (table : list Z) (offset n : Z) : list Z :=
  firstn (Z.to_nat n) (skipn (Z.to_nat offset) table).

(** ** Default font tables *)

Definition DEFAULT_FONT_FONT_DATA : list Z :=
  [
   0; 0; 0; 0; 0; 0; 0; 0; 0; 0; 0; 0; 0; 0; 0; 0;
   0; 0; 0; 0; 0; 0; 0; 0; 0; 0; 0; 0; 0; 0; 0; 0;
   0; 94; 0; 63; 192; 127; 192; 63; 0; 250; 0; 255; 9; 1; 0; 250;
   72; 84; 36; 0; 12; 112; 12; 0; 124; 4; 120; 0; 56; 68; 68; 0;
   66; 37; 18; 72; 164; 66; 1; 6; 254; 17; 17; 254; 0; 126; 129; 65;
   190; 0; 129; 255; 129; 130; 186; 198; 254; 134; 234; 134; 254; 250; 130; 250;
   254; 134; 234; 134; 254; 124; 250; 130; 250; 254; 130; 170; 186; 254; 130; 250;
   226; 250; 134; 254; 130; 234; 234; 246; 254; 124; 0; 64; 0; 0; 8; 8;
   128; 130; 246; 238; 130; 254; 250; 130; 250; 254; 130; 234; 234; 246; 254; 124;
   126; 129; 126; 130; 255; 128; 194; 177; 142; 66; 137; 118; 15; 8; 255; 79;
   137; 113; 126; 137; 114; 1; 249; 7; 118; 137; 118; 78; 145; 126; 36; 0;
   0; 254; 17; 17; 254; 0; 255; 17; 17; 14; 0; 124; 254; 254; 162; 254;
   254; 254; 250; 124; 10; 124; 126; 74; 52; 60; 66; 66; 126; 66; 60; 126;
   74; 66; 126; 10; 2; 60; 82; 116; 126; 8; 126; 126; 32; 64; 62; 126;
   8; 118; 126; 64; 64; 126; 4; 126; 126; 2; 124; 60; 66; 60; 126; 18;
   12; 60; 66; 124; 126; 18; 108; 68; 74; 50; 2; 126; 2; 62; 64; 62;
   30; 96; 30; 126; 32; 126; 118; 8; 118; 6; 120; 6; 98; 90; 70; 126;
   129; 129; 66; 6; 28; 48; 255; 9; 9; 1; 8; 32; 32; 32; 255; 8;
   20; 227; 249; 21; 249; 253; 149; 105; 121; 133; 73; 253; 133; 121; 253; 149;
   133; 253; 21; 5; 121; 165; 233; 253; 17; 253; 1; 253; 1; 65; 129; 125;
   253; 17; 237; 253; 129; 129; 253; 9; 253; 253; 5; 249; 121; 133; 121; 253;
   37; 25; 121; 133; 249; 253; 37; 217; 137; 149; 101; 5; 253; 5; 125; 129;
   125; 61; 193; 61; 253; 65; 253; 237; 17; 237; 13; 241; 13; 197; 181; 141;
   255; 253; 129; 253; 255; 129; 255; 129; 251; 129; 255; 129; 181; 189; 255; 249;
   255; 187; 181; 205; 255; 255; 193; 191; 193; 255; 129; 237; 243; 255; 161; 255;
   0; 2; 126; 2; 0; 126; 0; 126; 4; 126; 0; 126; 74; 66; 0; 6;
   0; 68; 74; 50; 0; 0; 62; 64; 62; 0; 126; 18; 12; 0; 94; 0;
   13; 17; 253; 253; 149; 101; 4; 126; 4; 4; 126; 4; 0; 4; 126; 4;
   32; 126; 32; 32; 126; 32; 0; 32; 126; 32; 0; 64; 32; 16; 10; 6;
   14; 0; 0; 8; 8; 8; 8; 28; 8; 0; 0; 2; 4; 8; 80; 96;
   112; 0; 4; 126; 100; 82; 76; 66; 74; 52; 14; 8; 126; 78; 74; 50;
   60; 74; 52; 2; 122; 6; 52; 74; 52; 12; 82; 60; 60; 66; 60; 227;
   151; 143; 151; 227; 227; 149; 157; 149; 227; 227; 181; 185; 181; 227; 227; 245;
   249; 245; 227; 224; 224; 0; 0; 0; 0; 0; 0; 224; 224; 0; 252; 252;
   0; 0; 0; 224; 224; 0; 252; 252; 0; 255; 255; 64; 0; 0; 0; 0;
   64; 0; 64; 0; 0; 64; 0; 64; 0; 64; 254; 146; 146; 146; 254; 128;
   126; 42; 42; 170; 254; 128; 152; 64; 62; 80; 136; 128; 72; 40; 152; 254;
   16; 40; 68; 68; 36; 20; 254; 20; 36; 68; 168; 232; 172; 250; 172; 232;
   168; 128; 136; 136; 254; 136; 136; 128; 4; 10; 4
  ].

Definition DEFAULT_FONT_CHAR_WIDTH : list Z :=
  [
   1; 1; 1; 1; 1; 1; 1; 1; 1; 1; 1; 1; 1; 1; 1; 1;
   1; 1; 1; 1; 1; 1; 1; 1; 1; 1; 1; 1; 1; 1; 1; 1;
   1; 1; 1; 13; 16; 6; 1; 1; 13; 17; 20; 1; 3; 2; 1; 15;
   3; 3; 3; 3; 3; 3; 3; 3; 3; 3; 1; 1; 1; 9; 1; 7;
   1; 3; 3; 3; 3; 3; 3; 3; 3; 1; 3; 3; 3; 3; 3; 3;
   3; 3; 3; 3; 3; 3; 3; 3; 3; 3; 3; 4; 3; 4; 1; 3;
   4; 3; 3; 3; 3; 3; 3; 3; 3; 3; 3; 3; 3; 3; 3; 3;
   3; 3; 3; 3; 3; 3; 3; 3; 3; 3; 3; 16; 16; 16; 16; 0;
   0; 0; 0; 0; 3; 3; 3; 7; 3; 7; 8; 8; 8; 0; 0; 0;
   0; 2; 3; 3; 3; 3; 3; 3; 3; 3; 3; 0; 0; 0; 0; 0;
   0; 5; 5; 5; 5; 0; 0; 0; 0; 8; 8; 8; 0; 0; 5; 5;
   5; 5; 6; 7; 7; 7; 7; 7; 0; 0; 3; 0; 0; 0; 0; 0;
   0; 0; 0; 0; 0; 0; 0; 0; 0; 0; 0; 0; 0; 0; 0; 0;
   0; 0; 0; 0; 0; 0; 0; 0; 0; 0; 0; 0; 0; 0; 0; 0;
   0; 0; 0; 0; 0; 0; 0; 0; 0; 0; 0; 0; 0; 0; 0; 0;
   0; 0; 0; 0; 0; 0; 0; 0; 0; 0; 0; 0; 0; 0; 0; 0
  ].

Definition DEFAULT_FONT_CHAR_OFFSET : list Z :=
  [
   0; 1; 2; 3; 4; 5; 6; 7; 8; 9; 10; 11; 12; 13; 14; 15;
   16; 17; 18; 19; 20; 21; 22; 23; 24; 25; 26; 27; 28; 29; 30; 31;
   32; 33; 34; 35; 48; 64; 70; 71; 72; 85; 102; 122; 123; 126; 128; 129;
   144; 147; 150; 153; 156; 159; 162; 165; 168; 171; 174; 175; 176; 177; 186; 187;
   194; 195; 198; 201; 204; 207; 210; 213; 216; 219; 220; 223; 226; 229; 232; 235;
   238; 241; 244; 247; 250; 253; 256; 259; 262; 265; 268; 271; 275; 278; 282; 283;
   286; 290; 293; 296; 299; 302; 305; 308; 311; 314; 317; 320; 323; 326; 329; 332;
   335; 338; 341; 344; 347; 350; 353; 356; 359; 362; 365; 368; 384; 400; 416; 432;
   432; 432; 432; 432; 432; 435; 438; 441; 448; 451; 458; 466; 474; 482; 482; 482;
   482; 482; 484; 487; 490; 493; 496; 499; 502; 505; 508; 511; 511; 511; 511; 511;
   511; 511; 516; 521; 526; 531; 531; 531; 531; 531; 539; 547; 555; 555; 555; 560;
   565; 570; 575; 581; 588; 595; 602; 609; 616; 616; 616; 619; 619; 619; 619; 619;
   619; 619; 619; 619; 619; 619; 619; 619; 619; 619; 619; 619; 619; 619; 619; 619;
   619; 619; 619; 619; 619; 619; 619; 619; 619; 619; 619; 619; 619; 619; 619; 619;
   619; 619; 619; 619; 619; 619; 619; 619; 619; 619; 619; 619; 619; 619; 619; 619;
   619; 619; 619; 619; 619; 619; 619; 619; 619; 619; 619; 619; 619; 619; 619; 619
  ].

(** [default_font_get_char]: the glyph followed by one empty spacing column;
    width 0 and no data for a character the font does not define. *)
Definition default_font_get_char (ch : Z) : option font_char_t :=
  let base_width := at_index DEFAULT_FONT_CHAR_WIDTH ch in
  if base_width =? 0 then Some {| width := 0; data := None |}
  else
    let base_data :=
      slice DEFAULT_FONT_FONT_DATA (at_index DEFAULT_FONT_CHAR_OFFSET ch) base_width in
    Some {| width := uint8_wrap (base_width + 1);
            data := Some (base_data ++ [0]) |}.

(** [font_default]: the last-character lookup is the ordinary lookup. *)
Definition font_default : font_t :=
  {| name := "default";
     get_char := default_font_get_char;
     get_char_last := default_font_get_char |}.

(** ** Dot matrix font tables (5 columns per letter) *)

Definition DOTMATRIX_FONT_DATA : list Z :=
  [
   253; 149; 147; 149; 253; 253; 149; 149; 149; 105; 121; 133; 133; 133; 133;
   253; 133; 133; 133; 121; 253; 149; 149; 149; 133; 253; 21; 21; 21; 5;
   121; 133; 149; 149; 245; 253; 17; 17; 17; 253; 133; 133; 253; 133; 133;
   65; 129; 133; 125; 5; 253; 17; 41; 69; 133; 253; 129; 129; 129; 129;
   253; 5; 25; 5; 253; 253; 5; 17; 65; 253; 121; 133; 133; 133; 121;
   253; 21; 21; 21; 9; 121; 133; 165; 197; 249; 253; 21; 53; 85; 137;
   73; 149; 149; 149; 101; 5; 5; 253; 5; 5; 125; 129; 129; 129; 125;
   61; 65; 129; 65; 61; 125; 129; 125; 129; 125; 197; 41; 17; 41; 197;
   5; 17; 229; 17; 5; 197; 165; 149; 141; 133; 15; 9; 15; 0; 0
  ].

Definition DOTMATRIX_CHAR_WIDTH : list Z :=
  [
   0; 0; 0; 0; 0; 0; 0; 0; 0; 0; 0; 0; 0; 0; 0; 0;
   0; 0; 0; 0; 0; 0; 0; 0; 0; 0; 0; 0; 0; 0; 0; 0;
   0; 0; 0; 0; 0; 0; 0; 0; 0; 0; 0; 0; 0; 0; 0; 0;
   0; 0; 0; 0; 0; 0; 0; 0; 0; 0; 0; 0; 0; 0; 0; 0;
   0; 5; 5; 5; 5; 5; 5; 5; 5; 5; 5; 5; 5; 5; 5; 5;
   5; 5; 5; 5; 5; 5; 5; 5; 5; 5; 5; 0; 0; 0; 0; 0;
   0; 5; 5; 5; 5; 5; 5; 5; 5; 5; 5; 5; 5; 5; 5; 5;
   5; 5; 5; 5; 5; 5; 5; 5; 5; 5; 5; 0; 0; 0; 0; 0;
   0; 0; 0; 0; 0; 0; 0; 0; 0; 0; 0; 0; 0; 0; 0; 0;
   0; 0; 0; 0; 0; 0; 0; 0; 0; 0; 0; 0; 0; 0; 0; 0;
   0; 0; 0; 0; 0; 0; 0; 0; 0; 0; 0; 0; 0; 0; 0; 0;
   5; 0; 0; 0; 0; 0; 0; 0; 0; 0; 0; 0; 0; 0; 0; 0;
   0; 0; 0; 0; 0; 0; 0; 0; 0; 0; 0; 0; 0; 0; 0; 0;
   0; 0; 0; 0; 0; 0; 0; 0; 0; 0; 0; 0; 0; 0; 0; 0;
   0; 0; 0; 0; 0; 0; 0; 0; 0; 0; 0; 0; 0; 0; 0; 0;
   0; 0; 0; 0; 0; 0; 0; 0; 0; 0; 0; 0; 0; 0; 0; 0
  ].

Definition DOTMATRIX_CHAR_OFFSET : list Z :=
  [
   0; 0; 0; 0; 0; 0; 0; 0; 0; 0; 0; 0; 0; 0; 0; 0;
   0; 0; 0; 0; 0; 0; 0; 0; 0; 0; 0; 0; 0; 0; 0; 0;
   0; 0; 0; 0; 0; 0; 0; 0; 0; 0; 0; 0; 0; 0; 0; 0;
   0; 0; 0; 0; 0; 0; 0; 0; 0; 0; 0; 0; 0; 0; 0; 0;
   0; 0; 5; 10; 15; 20; 25; 30; 35; 40; 45; 50; 55; 60; 65; 70;
   75; 80; 85; 90; 95; 100; 105; 110; 115; 120; 125; 0; 0; 0; 0; 0;
   0; 0; 5; 10; 15; 20; 25; 30; 35; 40; 45; 50; 55; 60; 65; 70;
   75; 80; 85; 90; 95; 100; 105; 110; 115; 120; 125; 0; 0; 0; 0; 0;
   0; 0; 0; 0; 0; 0; 0; 0; 0; 0; 0; 0; 0; 0; 0; 0;
   0; 0; 0; 0; 0; 0; 0; 0; 0; 0; 0; 0; 0; 0; 0; 0;
   0; 0; 0; 0; 0; 0; 0; 0; 0; 0; 0; 0; 0; 0; 0; 0;
   130; 0; 0; 0; 0; 0; 0; 0; 0; 0; 0; 0; 0; 0; 0; 0;
   0; 0; 0; 0; 0; 0; 0; 0; 0; 0; 0; 0; 0; 0; 0; 0;
   0; 0; 0; 0; 0; 0; 0; 0; 0; 0; 0; 0; 0; 0; 0; 0;
   0; 0; 0; 0; 0; 0; 0; 0; 0; 0; 0; 0; 0; 0; 0; 0;
   0; 0; 0; 0; 0; 0; 0; 0; 0; 0; 0; 0; 0; 0; 0; 0
  ].

(** [dotmatrix_font_get_char]: the letter followed by a spacing column that
    carries the roof pixel; other characters come from the default font. *)
Definition dotmatrix_font_get_char (ch : Z) : option font_char_t :=
  let base_width := at_index DOTMATRIX_CHAR_WIDTH ch in
  if base_width =? 0 then default_font_get_char ch
  else
    let offset := at_index DOTMATRIX_CHAR_OFFSET ch in
    let base_data := slice DOTMATRIX_FONT_DATA offset base_width in
    Some {| width := uint8_wrap (base_width + 1);
            data := Some (base_data ++ [1]) |}.

(** [dotmatrix_font_get_char_last]: the letter without the spacing column. *)
Definition dotmatrix_font_get_char_last (ch : Z) : option font_char_t :=
  let base_width := at_index DOTMATRIX_CHAR_WIDTH ch in
  if base_width =? 0 then get_char_last font_default ch
  else
    let offset := at_index DOTMATRIX_CHAR_OFFSET ch in
    Some {| width := base_width;
            data := Some (slice DOTMATRIX_FONT_DATA offset base_width) |}.

Definition font_dotmatrix : font_t :=
  {| name := "dotmatrix";
     get_char := dotmatrix_font_get_char;
     get_char_last := dotmatrix_font_get_char_last |}.

(** ** Small dot matrix font tables (3 columns per letter) *)

Definition DOTMATRIX_SMALL_FONT_DATA : list Z :=
  [
   253; 21; 253; 253; 149; 109; 125; 133; 133; 253; 133; 125; 253; 149; 133;
   253; 21; 5; 125; 149; 181; 253; 17; 253; 133; 253; 133; 129; 133; 125;
   253; 17; 237; 253; 129; 129; 253; 13; 253; 253; 17; 253; 125; 133; 125;
   253; 21; 13; 125; 165; 253; 253; 21; 237; 77; 149; 181; 5; 253; 5;
   125; 129; 125; 61; 193; 61; 253; 97; 253; 237; 17; 237; 13; 241; 13;
   229; 149; 141
  ].

Definition DOTMATRIX_SMALL_CHAR_WIDTH : list Z :=
  [
   0; 0; 0; 0; 0; 0; 0; 0; 0; 0; 0; 0; 0; 0; 0; 0;
   0; 0; 0; 0; 0; 0; 0; 0; 0; 0; 0; 0; 0; 0; 0; 0;
   0; 0; 0; 0; 0; 0; 0; 0; 0; 0; 0; 0; 0; 0; 0; 0;
   0; 0; 0; 0; 0; 0; 0; 0; 0; 0; 0; 0; 0; 0; 0; 0;
   0; 3; 3; 3; 3; 3; 3; 3; 3; 3; 3; 3; 3; 3; 3; 3;
   3; 3; 3; 3; 3; 3; 3; 3; 3; 3; 3; 0; 0; 0; 0; 0;
   0; 3; 3; 3; 3; 3; 3; 3; 3; 3; 3; 3; 3; 3; 3; 3;
   3; 3; 3; 3; 3; 3; 3; 3; 3; 3; 3; 0; 0; 0; 0; 0;
   0; 0; 0; 0; 0; 0; 0; 0; 0; 0; 0; 0; 0; 0; 0; 0;
   0; 0; 0; 0; 0; 0; 0; 0; 0; 0; 0; 0; 0; 0; 0; 0;
   0; 0; 0; 0; 0; 0; 0; 0; 0; 0; 0; 0; 0; 0; 0; 0;
   0; 0; 0; 0; 0; 0; 0; 0; 0; 0; 0; 0; 0; 0; 0; 0;
   0; 0; 0; 0; 0; 0; 0; 0; 0; 0; 0; 0; 0; 0; 0; 0;
   0; 0; 0; 0; 0; 0; 0; 0; 0; 0; 0; 0; 0; 0; 0; 0;
   0; 0; 0; 0; 0; 0; 0; 0; 0; 0; 0; 0; 0; 0; 0; 0;
   0; 0; 0; 0; 0; 0; 0; 0; 0; 0; 0; 0; 0; 0; 0; 0
  ].

Definition DOTMATRIX_SMALL_CHAR_OFFSET : list Z :=
  [
   0; 0; 0; 0; 0; 0; 0; 0; 0; 0; 0; 0; 0; 0; 0; 0;
   0; 0; 0; 0; 0; 0; 0; 0; 0; 0; 0; 0; 0; 0; 0; 0;
   0; 0; 0; 0; 0; 0; 0; 0; 0; 0; 0; 0; 0; 0; 0; 0;
   0; 0; 0; 0; 0; 0; 0; 0; 0; 0; 0; 0; 0; 0; 0; 0;
   0; 0; 3; 6; 9; 12; 15; 18; 21; 24; 27; 30; 33; 36; 39; 42;
   45; 48; 51; 54; 57; 60; 63; 66; 69; 72; 75; 0; 0; 0; 0; 0;
   0; 0; 3; 6; 9; 12; 15; 18; 21; 24; 27; 30; 33; 36; 39; 42;
   45; 48; 51; 54; 57; 60; 63; 66; 69; 72; 75; 0; 0; 0; 0; 0;
   0; 0; 0; 0; 0; 0; 0; 0; 0; 0; 0; 0; 0; 0; 0; 0;
   0; 0; 0; 0; 0; 0; 0; 0; 0; 0; 0; 0; 0; 0; 0; 0;
   0; 0; 0; 0; 0; 0; 0; 0; 0; 0; 0; 0; 0; 0; 0; 0;
   0; 0; 0; 0; 0; 0; 0; 0; 0; 0; 0; 0; 0; 0; 0; 0;
   0; 0; 0; 0; 0; 0; 0; 0; 0; 0; 0; 0; 0; 0; 0; 0;
   0; 0; 0; 0; 0; 0; 0; 0; 0; 0; 0; 0; 0; 0; 0; 0;
   0; 0; 0; 0; 0; 0; 0; 0; 0; 0; 0; 0; 0; 0; 0; 0;
   0; 0; 0; 0; 0; 0; 0; 0; 0; 0; 0; 0; 0; 0; 0; 0
  ].

Definition dotmatrix_small_font_get_char (ch : Z) : option font_char_t :=
  let base_width := at_index DOTMATRIX_SMALL_CHAR_WIDTH ch in
  if base_width =? 0 then default_font_get_char ch
  else
    let offset := at_index DOTMATRIX_SMALL_CHAR_OFFSET ch in
    let base_data := slice DOTMATRIX_SMALL_FONT_DATA offset base_width in
    Some {| width := uint8_wrap (base_width + 1);
            data := Some (base_data ++ [1]) |}.

Definition dotmatrix_small_font_get_char_last (ch : Z) : option font_char_t :=
  let base_width := at_index DOTMATRIX_SMALL_CHAR_WIDTH ch in
  if base_width =? 0 then get_char_last font_default ch
  else
    let offset := at_index DOTMATRIX_SMALL_CHAR_OFFSET ch in
    Some {| width := base_width;
            data := Some (slice DOTMATRIX_SMALL_FONT_DATA offset base_width) |}.

Definition font_dotmatrix_small : font_t :=
  {| name := "dotmatrix_small";
     get_char := dotmatrix_small_font_get_char;
     get_char_last := dotmatrix_small_font_get_char_last |}.

(** The width a lookup result contributes to a measurement: the [width]
    field, or nothing for a NULL descriptor. *)
Definition desc_width (d : option font_char_t) : Z :=
  match d with
  | Some c => width c
  | None => 0
  end.

(** A font whose lookups return [uint8_t] widths, as the C type has it. *)
Definition uint8_widths (f : font_t) : Prop :=
  forall ch, 0 <= desc_width (get_char f ch) < 256 /\
             0 <= desc_width (get_char_last f ch) < 256.

End Font.

(* ====================================================================== *)
(** * MAX7219 display driver ([display_max7219.c], [scene.h]) *)
(* ====================================================================== *)

Module Display.

Import Font.

Definition MAX7219_CASCADE : Z := 4.

Definition UINT64_MAX : Z := 2 ^ 64 - 1.

(** [~x] on a [uint64_t]. *)
Definition uint64_not (x : Z) : Z := Z.lxor x UINT64_MAX.

(** [s_display_buffer]: one [uint64_t] per device, eight column bytes each. *)
Definition display_buffer : Set := list Z.

Definition clear_display_buffer : display_buffer := [0; 0; 0; 0].

(** [buffer[i]] of the four-entry array. *)
Definition buffer_at (buf : display_buffer) (i : Z) : Z := nth (Z.to_nat i) buf 0.

(** [transpose_8x8]: both loops run over [0..7]; bit [(row, col)] of the
    input is or-ed in at [(7 - col, row)].  No shift leaves the 64 bits. *)
Definition transpose_8x8 (input : Z) : Z :=
  fold_left
    (fun output row =>
       fold_left
         (fun output col =>
            let bit := Z.land (Z.shiftr input (row * 8 + col)) 1 in
            let new_row := 7 - col in
            let new_col := row in
            Z.lor output (Z.shiftl bit (new_row * 8 + new_col)))
         (seqZ 0 8) output)
    (seqZ 0 8) 0.

(** [set_column]: columns outside [0, 32) are dropped. *)
Definition set_column (col dat : Z) (buf : display_buffer) : display_buffer :=
  if (col <? 0) || (col >=? 32) then buf
  else
    let device := Z.quot col 8 in
    let device_col := Z.rem col 8 in
    let cleared :=
      Z.land (buffer_at buf device) (uint64_not (Z.shiftl 255 (device_col * 8))) in
    let column_data := Z.shiftl dat (device_col * 8) in
    <[Z.to_nat device := Z.lor cleared column_data]> buf.

(** The character code [(uint8_t)ch]. *)
Definition char_code (ch : ascii) : Z := Z.of_N (N_of_ascii ch).

(** [*(p + 1)]: the character after the head of [rest], NUL at the end. *)
Definition next_char (rest : string) : Z :=
  match rest with
  | EmptyString => 0
  | String c _ => char_code c
  end.

Definition font_or_default (font : option font_t) : font_t :=
  match font with
  | Some f => f
  | None => font_default
  end.

(** The glyph the loops of [get_text_width] and [render_text_at] look up for
    [ch] when [next_ch] follows it. *)
Definition lookup_char (font : font_t) (ch next_ch : Z) : option font_char_t :=
  if next_ch =? 0 then get_char_last font ch else get_char font ch.

(** The loop of [get_text_width]: [p] walks the string until a NUL. *)
Fixpoint get_text_width_loop (font : font_t) (p : string) (width : Z) : Z :=
  match p with
  | EmptyString => width
  | String c rest =>
      let ch := char_code c in
      if ch =? 0 then width
      else
        let char_desc := lookup_char font ch (next_char rest) in
        let width :=
          match char_desc with
          | Some d => if Font.width d >? 0 then width + Font.width d else width
          | None => width
          end in
        get_text_width_loop font rest width
  end.

(** [get_text_width]; a NULL font selects the default font. *)
Definition get_text_width (text : string) (font : option font_t) : Z :=
  get_text_width_loop (font_or_default font) text 0.

(** The column loop shared by [render_text_at] and [render_bitmap_at]:
    columns [col .. width - 1] of [dat] are written at [x + col], stopping at
    the right edge and skipping what lies left of the display. *)
Fixpoint render_columns (n : nat) (x col width : Z) (dat : list Z)
    (buf : display_buffer) : display_buffer :=
  match n with
  | O => buf
  | S n' =>
      if col <? width then
        if x + col >=? 32 then buf
        else
          let buf :=
            if x + col >=? 0 then set_column (x + col) (at_index dat col) buf
            else buf in
          render_columns n' x (col + 1) width dat buf
      else buf
  end.

(** [render_text_at]. *)
Fixpoint render_text_loop (font : font_t) (text : string) (x : Z)
    (buf : display_buffer) : display_buffer :=
  match text with
  | EmptyString => buf
  | String c rest =>
      let ch := char_code c in
      if ch =? 0 then buf
      else
        match lookup_char font ch (next_char rest) with
        | Some {| Font.width := w; Font.data := Some dat |} =>
            if w >? 0 then
              render_text_loop font rest (x + w)
                (render_columns (Z.to_nat w) x 0 w dat buf)
            else render_text_loop font rest x buf
        | _ => render_text_loop font rest x buf
        end
  end.

Definition render_text_at (x_offset : Z) (text : string) (font : option font_t)
    (buf : display_buffer) : display_buffer :=
  render_text_loop (font_or_default font) text x_offset buf.

(** [render_bitmap_at]; [None] is a NULL bitmap. *)
Definition render_bitmap_at (x_offset : Z) (bitmap : option (list Z))
    (width height : Z) (buf : display_buffer) : display_buffer :=
  match bitmap with
  | None => buf
  | Some dat =>
      if (width <=? 0) || (height <=? 0) then buf
      else render_columns (Z.to_nat width) x_offset 0 width dat buf
  end.

(** [render_text_centered]; C integer division truncates towards zero. *)
Definition render_text_centered (text : string) (font : option font_t)
  : display_buffer :=
  let text_width := get_text_width text font in
  let x_offset := Z.quot (32 - text_width) 2 in
  render_text_at x_offset text font clear_display_buffer.

(** [scene_element_t]: the tag and the member of the union it selects.
    [frames] is [None] for a NULL frame array. *)
Inductive scene_element_t : Set :=
| SCENE_ELEMENT_TEXT (str : string) (font : option font_t)
| SCENE_ELEMENT_ANIMATION (frame_count frame_delay_ms : Z)
    (frames : option (list (list Z))) (width height : Z).

(** [display_scene_t]; [elements] holds the [element_count] entries of the
    array (empty for a NULL array or a zero count). *)
Record display_scene_t : Set := {
  elements : list scene_element_t;
  fallback_text : option string
}.

Definition element_width (elem : scene_element_t) : Z :=
  match elem with
  | SCENE_ELEMENT_TEXT str font => get_text_width str font
  | SCENE_ELEMENT_ANIMATION _ _ _ w _ => w
  end.

(** First loop of [render_scene]: two columns follow every element but the
    last. *)
Fixpoint scene_total_width (elems : list scene_element_t) (total_width : Z) : Z :=
  match elems with
  | [] => total_width
  | elem :: rest =>
      let total_width := total_width + element_width elem in
      let total_width :=
        match rest with [] => total_width | _ => total_width + 2 end in
      scene_total_width rest total_width
  end.

(** Second loop of [render_scene]. *)
Fixpoint render_elements (elems : list scene_element_t) (x_offset : Z)
    (buf : display_buffer) : display_buffer :=
  match elems with
  | [] => buf
  | elem :: rest =>
      let '(buf, x_offset) :=
        match elem with
        | SCENE_ELEMENT_TEXT str font =>
            (render_text_at x_offset str font buf,
             x_offset + get_text_width str font)
        | SCENE_ELEMENT_ANIMATION frame_count _ frames w h =>
            let buf :=
              match frames with
              | Some fs =>
                  if frame_count >? 0 then
                    render_bitmap_at x_offset (Some (nth 0 fs [])) w h buf
                  else buf
              | None => buf
              end in
            (buf, x_offset + w)
        end in
      let x_offset := match rest with [] => x_offset | _ => x_offset + 2 end in
      render_elements rest x_offset buf
  end.

Definition render_scene (scene : display_scene_t) : display_buffer :=
  let total_width := scene_total_width (elements scene) 0 in
  let x_offset := Z.quot (32 - total_width) 2 in
  render_elements (elements scene) x_offset clear_display_buffer.

(** One call [max7219_draw_image_8x8(&s_dev, pos, &image)] of the driver. *)
Record draw_call : Set := {
  pos : Z;
  image : Z
}.

(** The update loop at the end of [max7219_driver_render]: call [i] sends
    the rotated block [MAX7219_CASCADE - 1 - i] to position [i * 8]. *)
Definition stream_buffer (buf : display_buffer) : list draw_call :=
  map (fun i =>
         let buffer_index := MAX7219_CASCADE - 1 - i in
         {| pos := i * 8; image := transpose_8x8 (buffer_at buf buffer_index) |})
      (seqZ 0 MAX7219_CASCADE).

(** [max7219_driver_render]: the buffer after the call and the draw calls
    issued.  [None] is a NULL scene. *)
Definition max7219_driver_render (s_initialized : bool)
    (scene : option display_scene_t) (buf : display_buffer)
  : display_buffer * list draw_call :=
  match scene with
  | None => (buf, [])
  | Some sc =>
      if negb s_initialized then (buf, [])
      else
        match elements sc, fallback_text sc with
        | _ :: _, _ => let buf := render_scene sc in (buf, stream_buffer buf)
        | [], Some text =>
            let buf := render_text_centered text None in (buf, stream_buffer buf)
        | [], None => (buf, [])
        end
  end.

(** The device index a draw position addresses: eight digit rows per chip. *)
Definition device_of_pos (p : Z) : Z := Z.quot p 8.

(** The console mock of [max7219_draw_image_8x8] ([mock/max7219.c]): the
    image for device [pos / 8] is stored at index [3 - pos / 8] of the mock's
    own buffer, which is printed left to right. *)
Definition mock_draw_image_8x8 (c : draw_call) (mock : list Z) : list Z :=
  let device_idx := Z.quot (uint8_wrap (pos c)) 8 in
  if device_idx >=? 4 then mock
  else
    let buffer_idx := 3 - device_idx in
    <[Z.to_nat buffer_idx := image c]> mock.

(** ** The measurement the specification describes

    The characters of a C string: the codes up to the first NUL. *)
Fixpoint c_string (text : string) : list Z :=
  match text with
  | EmptyString => []
  | String c rest =>
      if char_code c =? 0 then [] else char_code c :: c_string rest
  end.

(** The width as the specification words it: the widths the ordinary lookup
    returns for every character but the last, plus the width the
    last-character lookup returns for the last one. *)
Fixpoint measured_width (font : font_t) (chars : list Z) : Z :=
  match chars with
  | [] => 0
  | [ch] => desc_width (get_char_last font ch)
  | ch :: rest => desc_width (get_char font ch) + measured_width font rest
  end.

(** The last-character lookup of [font] omits the trailing spacing column:
    for every character the font draws, it returns one column less than the
    ordinary lookup, which appends the spacing column. *)
Definition last_omits_spacing (font : font_t) : Prop :=
  forall ch, 0 <= ch < 256 ->
    0 < desc_width (get_char font ch) ->
    desc_width (get_char_last font ch) = desc_width (get_char font ch) - 1.

(** The letters the dot matrix fonts draw themselves. *)
Definition is_letter (ch : Z) : Prop :=
  65 <= ch <= 90 \/ 97 <= ch <= 122.

(** The fonts defined in the sources. *)
Definition source_fonts : list font_t :=
  [font_default; font_dotmatrix; font_dotmatrix_small].

(** A scene as the clock panel builds it: a day in the small dot matrix font
    and a time in the default font. *)
Definition sample_scene : display_scene_t :=
  {| elements :=
       [SCENE_ELEMENT_TEXT "THU" (Some font_dotmatrix_small);
        SCENE_ELEMENT_TEXT "12:34" (Some font_default)];
     fallback_text := Some "12:34"%string |}.

End Display.

(* ====================================================================== *)
(** * Panel manager ([panel_manager.c]) *)
(* ====================================================================== *)

Module Panel.

Definition MAX_PANELS : Z := 8.

(** [panel_id_t] is a C enumeration, an integer underneath. *)
Definition panel_id_t : Set := Z.
Definition PANEL_CLOCK : panel_id_t := 0.
Definition PANEL_DATE : panel_id_t := 1.

Record panel_info_t : Set := {
  id : panel_id_t;
  name : string
}.

Record panel_manager_config_t : Set := {
  default_panel : panel_id_t;
  inactivity_timeout_s : Z
}.

Inductive esp_err_t : Set :=
| ESP_OK
| ESP_ERR_INVALID_STATE
| ESP_ERR_INVALID_ARG
| ESP_ERR_NO_MEM.

(** The two events the manager posts, with the panel id they carry. *)
Inductive panel_event : Set :=
| PANEL_ACTIVATED (p : panel_id_t)
| PANEL_DEACTIVATED (p : panel_id_t).

(** The static [s_state].  [panels] holds the first [panel_count] entries of
    the array [panels[MAX_PANELS]], so [panel_count] is its length. *)
Record state : Set := {
  initialized : bool;
  config : panel_manager_config_t;
  panels : list panel_info_t;
  active_panel_idx : Z;
  inactivity_counter : Z
}.

Definition panel_count (s : state) : Z := Z.of_nat (length (panels s)).

(** An entry of the zeroed array that no registration has written. *)
Definition empty_slot : panel_info_t := {| id := 0; name := "" |}.

(** [s_state.panels[i]]. *)
Definition panel_at (s : state) (i : Z) : panel_info_t :=
  nth (Z.to_nat i) (panels s) empty_slot.

Definition uint8_wrap (z : Z) : Z := z mod 2 ^ 8.
Definition uint16_wrap (z : Z) : Z := z mod 2 ^ 16.

(** [panel_manager_init] on a fresh [s_state] (the timer is created and the
    handler registered without error). *)
Definition panel_manager_init (cfg : panel_manager_config_t) : state :=
  {| initialized := true;
     config := cfg;
     panels := [];
     active_panel_idx := 0;
     inactivity_counter := 0 |}.

(** [activate_panel]: clears the idle counter and posts [PANEL_ACTIVATED]. *)
Definition activate_panel (panel_id : panel_id_t) (s : state)
  : state * list panel_event :=
  ({| initialized := initialized s;
      config := config s;
      panels := panels s;
      active_panel_idx := active_panel_idx s;
      inactivity_counter := 0 |},
   [PANEL_ACTIVATED panel_id]).

(** [deactivate_panel]: posts [PANEL_DEACTIVATED]. *)
Definition deactivate_panel (panel_id : panel_id_t) (s : state)
  : state * list panel_event :=
  (s, [PANEL_DEACTIVATED panel_id]).

Definition set_active_panel_idx (i : Z) (s : state) : state :=
  {| initialized := initialized s;
     config := config s;
     panels := panels s;
     active_panel_idx := uint8_wrap i;
     inactivity_counter := inactivity_counter s |}.

Definition set_inactivity_counter (c : Z) (s : state) : state :=
  {| initialized := initialized s;
     config := config s;
     panels := panels s;
     active_panel_idx := active_panel_idx s;
     inactivity_counter := uint16_wrap c |}.

(** The loops [for (i = 0; i < panel_count; i++) if (panels[i].id == x)]:
    the first index, from [i] on, whose panel has the id [x]. *)
Fixpoint find_panel (x : panel_id_t) (ps : list panel_info_t) (i : Z) : option Z :=
  match ps with
  | [] => None
  | p :: rest => if id p =? x then Some i else find_panel x rest (i + 1)
  end.

(** [panel_manager_register_panel]; [None] is a NULL argument. *)
Definition panel_manager_register_panel (panel : option panel_info_t) (s : state)
  : state * list panel_event * esp_err_t :=
  if negb (initialized s) then (s, [], ESP_ERR_INVALID_STATE)
  else
    match panel with
    | None => (s, [], ESP_ERR_INVALID_ARG)
    | Some p =>
        if panel_count s >=? MAX_PANELS then (s, [], ESP_ERR_NO_MEM)
        else
          match find_panel (id p) (panels s) 0 with
          | Some _ => (s, [], ESP_OK)
          | None =>
              let s :=
                {| initialized := initialized s;
                   config := config s;
                   panels := panels s ++ [p];
                   active_panel_idx := active_panel_idx s;
                   inactivity_counter := inactivity_counter s |} in
              if id p =? default_panel (config s) then
                match find_panel (id p) (panels s) 0 with
                | Some i =>
                    let '(s, evs) := activate_panel (id p) (set_active_panel_idx i s) in
                    (s, evs, ESP_OK)
                | None => (s, [], ESP_OK)
                end
              else (s, [], ESP_OK)
          end
    end.

(** [panel_manager_get_active]. *)
Definition panel_manager_get_active (s : state) : panel_id_t :=
  if panel_count s =? 0 then default_panel (config s)
  else id (panel_at s (active_panel_idx s)).

(** [next_panel]. *)
Definition next_panel (s : state) : state * list panel_event * esp_err_t :=
  if panel_count s =? 0 then (s, [], ESP_ERR_INVALID_STATE)
  else
    let current_panel_id := id (panel_at s (active_panel_idx s)) in
    let '(s, ev1) := deactivate_panel current_panel_id s in
    let s := set_active_panel_idx (Z.rem (active_panel_idx s + 1) (panel_count s)) s in
    let next_panel_id := id (panel_at s (active_panel_idx s)) in
    let '(s, ev2) := activate_panel next_panel_id s in
    (s, ev1 ++ ev2, ESP_OK).

(** [input_touch_handler]: the handler of [INPUT_TAP]. *)
Definition input_touch_handler (s : state) : state * list panel_event :=
  let '(s, evs, _) := next_panel s in (s, evs).

(** [inactivity_timer_callback]: one tick of the one-second timer. *)
Definition inactivity_timer_callback (s : state) : state * list panel_event :=
  if negb (initialized s) then (s, [])
  else
    let s := set_inactivity_counter (inactivity_counter s + 1) s in
    if inactivity_counter s >=? inactivity_timeout_s (config s) then
      if panel_count s =? 0 then (set_inactivity_counter 0 s, [])
      else
        let current_panel_id := id (panel_at s (active_panel_idx s)) in
        let '(s, evs) :=
          if negb (current_panel_id =? default_panel (config s)) then
            match find_panel (default_panel (config s)) (panels s) 0 with
            | Some i =>
                let '(s, ev1) := deactivate_panel current_panel_id s in
                let s := set_active_panel_idx i s in
                let '(s, ev2) := activate_panel (default_panel (config s)) s in
                (s, ev1 ++ ev2)
            | None => (s, [])
            end
          else (s, []) in
        (set_inactivity_counter 0 s, evs)
    else (s, []).

(** [n] taps, and [n] ticks, with the events they post in order. *)
Fixpoint taps (n : nat) (s : state) : state * list panel_event :=
  match n with
  | O => (s, [])
  | S n' =>
      let '(s1, ev1) := input_touch_handler s in
      let '(s2, ev2) := taps n' s1 in
      (s2, ev1 ++ ev2)
  end.

Fixpoint ticks (n : nat) (s : state) : state * list panel_event :=
  match n with
  | O => (s, [])
  | S n' =>
      let '(s1, ev1) := inactivity_timer_callback s in
      let '(s2, ev2) := ticks n' s1 in
      (s2, ev1 ++ ev2)
  end.

(** Registering a list of panels one after the other. *)
Fixpoint register_all (ps : list panel_info_t) (s : state) : state * list panel_event :=
  match ps with
  | [] => (s, [])
  | p :: rest =>
      let '(s1, ev1, _) := panel_manager_register_panel (Some p) s in
      let '(s2, ev2) := register_all rest s1 in
      (s2, ev1 ++ ev2)
  end.

(** The active index is 0 while the registry is empty and points into the
    registry afterwards. *)
Definition registry_ok (s : state) : Prop :=
  initialized s = true
  /\ panel_count s <= MAX_PANELS
  /\ 0 <= active_panel_idx s < Z.max 1 (panel_count s).

(** Two states with the same configuration and the same registry. *)
Definition same_registry (s s' : state) : Prop :=
  initialized s' = initialized s /\ config s' = config s /\ panels s' = panels s.

(** The events of one tap from index [a], when [n] panels [ps] are
    registered: the panel at [a] is left for the one at [(a + 1) mod n]. *)
Definition tap_events (ps : list panel_info_t) (a : Z) : list panel_event :=
  let n := Z.of_nat (length ps) in
  [PANEL_DEACTIVATED (id (nth (Z.to_nat a) ps empty_slot));
   PANEL_ACTIVATED (id (nth (Z.to_nat ((a + 1) mod n)) ps empty_slot))].

(** The events of [k] consecutive taps that start at index [a]. *)
Fixpoint taps_events (k : nat) (ps : list panel_info_t) (a : Z) : list panel_event :=
  match k with
  | O => []
  | S k' =>
      tap_events ps a ++ taps_events k' ps ((a + 1) mod Z.of_nat (length ps))
  end.

(** A registry as [main.c] fills it, with two more panels. *)
Definition four_panels : list panel_info_t :=
  [{| id := PANEL_CLOCK; name := "clock" |};
   {| id := PANEL_DATE; name := "date" |};
   {| id := 2; name := "weather" |};
   {| id := 3; name := "about" |}].

Definition clock_default (timeout : Z) : panel_manager_config_t :=
  {| default_panel := PANEL_CLOCK; inactivity_timeout_s := timeout |}.

End Panel.

(* ====================================================================== *)
(** * Reading the display buffer ([display_max7219.c], [mock/max7219.c]) *)
(* ====================================================================== *)

Module Pixels.

Import Font Display.

(** Column [col] of the buffer, as [set_column] addresses it: byte
    [col % 8] of block [col / 8]. *)
Definition get_column (buf : display_buffer) (col : Z) : Z :=
  Z.land (Z.shiftr (buffer_at buf (Z.quot col 8)) (Z.rem col 8 * 8)) 255.

(** A [uint8_t]. *)
Definition is_byte (z : Z) : Prop := 0 <= z < 256.

(** The buffer as the C array has it: four [uint64_t] blocks. *)
Definition well_formed (buf : display_buffer) : Prop :=
  length buf = 4%nat /\ Forall (fun b => 0 <= b < 2 ^ 64) buf.

(** A font whose glyph data are [uint8_t] columns, as the C type has them. *)
Definition byte_glyphs (f : font_t) : Prop :=
  forall ch d dat,
    (get_char f ch = Some d \/ get_char_last f ch = Some d) ->
    data d = Some dat -> Forall is_byte dat.

(** The pixel test of the console mock's [print_display]: the bit for
    [device_col] in byte [row] of the mock's block for the column. *)
Definition mock_pixel_on (mock : list Z) (row col : Z) : bool :=
  let device := Z.quot col 8 in
  let device_col := Z.rem col 8 in
  let device_data := buffer_at mock device in
  let row_byte := Z.land (Z.shiftr device_data (row * 8)) 255 in
  negb (Z.land row_byte (Z.shiftl 1 device_col) =? 0).

(** The pixels [print_display] prints: the rows from 7 down to 0, each with
    the columns 0 to 31. *)
Definition print_display (mock : list Z) : list (list bool) :=
  map (fun row => map (fun col => mock_pixel_on mock row col) (seqZ 0 32))
      [7; 6; 5; 4; 3; 2; 1; 0].

(** The mock's buffer after the draw calls of one render. *)
Definition mock_after (calls : list draw_call) (mock : list Z) : list Z :=
  fold_left (fun m c => mock_draw_image_8x8 c m) calls mock.

(** [transpose_8x8] applied [n] times. *)
Fixpoint transpose_iter (n : nat) (x : Z) : Z :=
  match n with
  | O => x
  | S n' => transpose_8x8 (transpose_iter n' x)
  end.

(** The sum of the widths of the elements of a scene. *)
Definition elements_width (elems : list scene_element_t) : Z :=
  fold_right (fun e acc => element_width e + acc) 0 elems.

(** An element whose fonts and bitmaps hold bytes and whose width is a
    [uint8_t], as the C types have them. *)
Definition element_ok (e : scene_element_t) : Prop :=
  match e with
  | SCENE_ELEMENT_TEXT _ font =>
      uint8_widths (font_or_default font) /\ byte_glyphs (font_or_default font)
  | SCENE_ELEMENT_ANIMATION _ _ frames w _ =>
      0 <= w < 256 /\
      match frames with
      | Some fs => Forall is_byte (nth 0 fs [])
      | None => True
      end
  end.

End Pixels.

(* ====================================================================== *)
(** * Checks over the font tables *)
(* ====================================================================== *)

Module FontChecks.

Import Font.

(** A descriptor as the drawing loop needs it: width 0 with NULL data, or
    a positive width of at most [room] columns with exactly that many
    bytes. *)
Definition descriptor_ok (room : Z) (d : option font_char_t) : bool :=
  match d with
  | Some {| width := w; data := Some dat |} =>
      (0 <? w) && (w <=? room) && (Z.of_nat (length dat) =? w)
  | Some {| width := w; data := None |} => w =? 0
  | None => false
  end.

(** The character codes [0..255]. *)
Definition all_codes : list Z := seqZ 0 256.

(** The reads [&table[offset]] ... [&table[offset + width - 1]] of a glyph
    stay inside the data table. *)
Definition glyph_in_table (widths offsets table : list Z) (ch : Z) : bool :=
  (at_index widths ch =? 0)
  || (at_index offsets ch + at_index widths ch <=? Z.of_nat (length table)).

Definition is_upper (ch : Z) : Prop := 65 <= ch <= 90.

End FontChecks.

(* ====================================================================== *)
(** * The panel manager under any sequence of calls *)
(* ====================================================================== *)

Module PanelOps.

Import Panel.

(** The three ways the manager is entered after [panel_manager_init]. *)
Inductive op : Set :=
| Register (panel : option panel_info_t)
| Tap
| Tick.

Definition apply_op (o : op) (s : state) : state * list panel_event :=
  match o with
  | Register panel =>
      let '(s', evs, _) := panel_manager_register_panel panel s in (s', evs)
  | Tap => input_touch_handler s
  | Tick => inactivity_timer_callback s
  end.

Fixpoint run_ops (ops : list op) (s : state) : state * list panel_event :=
  match ops with
  | [] => (s, [])
  | o :: rest =>
      let '(s1, ev1) := apply_op o s in
      let '(s2, ev2) := run_ops rest s1 in
      (s2, ev1 ++ ev2)
  end.

(** No id is registered twice. *)
Definition distinct_ids (s : state) : Prop := List.NoDup (map id (panels s)).

(** The idle counter is a [uint16_t]. *)
Definition counter_ok (s : state) : Prop := 0 <= inactivity_counter s < 2 ^ 16.

(** What every call keeps: the manager stays initialised, the registry holds
    at most eight panels with distinct ids, the active index points into
    it, and the counter is a 16-bit value. *)
Definition manager_inv (s : state) : Prop :=
  registry_ok s /\ distinct_ids s /\ counter_ok s.

Definition is_register (o : op) : bool :=
  match o with
  | Register _ => true
  | _ => false
  end.

End PanelOps.

(* ====================================================================== *)
(** * The classifier under any contact signal *)
(* ====================================================================== *)

Module TouchOps.

Import Touch.

(** What the interrupt handler and the timer callback keep true from
    [touch_sensor_init] on: the configuration is the one given at
    initialisation, the debounce reference is a 32-bit tick count, the
    timer's period is one of the two the code ever sets (the long-press
    threshold and the 50 ms poll), and a detected long press goes with the
    poll period. *)
Definition classifier_inv (hz : Z) (cfg : touch_sensor_config_t) (s : state)
  : Prop :=
  initialized s = true
  /\ config s = cfg
  /\ 0 <= last_touch_time s < 2 ^ 32
  /\ (period (release_timer s) = pdMS_TO_TICKS hz LONG_PRESS_MS
      \/ period (release_timer s) = pdMS_TO_TICKS hz 50)
  /\ (long_press_detected s = true ->
      period (release_timer s) = pdMS_TO_TICKS hz 50).

(** An edge at most [width - 1] ticks after tick [t_last]. *)
Definition within_window (t_last width : Z) (edge : Z * Z) : Prop :=
  0 <= fst edge - t_last < width.

(** An edge before the pending expiry of the timer, if there is one. *)
Definition before_expiry (tm : timer) (edge : Z * Z) : Prop :=
  match expiry tm with
  | Some e => fst edge < e
  | None => True
  end.

End TouchOps.

(* ====================================================================== *)
(** * Brightness control ([brightness_control.c]) *)
(* ====================================================================== *)

Module Brightness.

Import Panel.

Definition BRIGHTNESS_MIN : Z := 2.
Definition BRIGHTNESS_MAX : Z := 15.

Definition BRIGHTNESS_LEVELS : list Z := [2; 5; 9; 12; 15].
Definition BRIGHTNESS_LEVEL_COUNT : Z := Z.of_nat (length BRIGHTNESS_LEVELS).

(** [BRIGHTNESS_LEVELS[i]]; the code never reads outside the table (see
    [brightness_inv] below), where this model reads 0. *)
Definition level_at (i : Z) : Z := nth (Z.to_nat i) BRIGHTNESS_LEVELS 0.

Record brightness_control_config_t : Set := {
  initial_brightness : Z;
  cycle_interval_ms : Z
}.

(** The event [BRIGHTNESS_CHANGED] with the byte it carries. *)
Inductive brightness_event : Set :=
| BRIGHTNESS_CHANGED (brightness : Z).

(** The static [s_state].  Of the auto-reload [cycle_timer] only whether it
    is running matters; the three handler instances are registered by
    [brightness_control_init] and play no further role. *)
Record state : Set := {
  initialized : bool;
  config : brightness_control_config_t;
  current_brightness : Z;
  current_level_index : Z;
  cycling : bool;
  going_up : bool;
  at_limit : bool;
  active_panel : panel_id_t;
  cycle_timer_running : bool
}.

(** [s_state = {0}]. *)
Definition zero_state : state :=
  {| initialized := false;
     config := {| initial_brightness := 0; cycle_interval_ms := 0 |};
     current_brightness := 0;
     current_level_index := 0;
     cycling := false;
     going_up := false;
     at_limit := false;
     active_panel := 0;
     cycle_timer_running := false |}.

Definition set_level_index (i : Z) (s : state) : state :=
  {| initialized := initialized s; config := config s;
     current_brightness := current_brightness s;
     current_level_index := i;
     cycling := cycling s; going_up := going_up s; at_limit := at_limit s;
     active_panel := active_panel s;
     cycle_timer_running := cycle_timer_running s |}.

Definition set_brightness (b : Z) (s : state) : state :=
  {| initialized := initialized s; config := config s;
     current_brightness := b;
     current_level_index := current_level_index s;
     cycling := cycling s; going_up := going_up s; at_limit := at_limit s;
     active_panel := active_panel s;
     cycle_timer_running := cycle_timer_running s |}.

Definition set_direction (up limit : bool) (s : state) : state :=
  {| initialized := initialized s; config := config s;
     current_brightness := current_brightness s;
     current_level_index := current_level_index s;
     cycling := cycling s; going_up := up; at_limit := limit;
     active_panel := active_panel s;
     cycle_timer_running := cycle_timer_running s |}.

Definition set_cycling (c : bool) (s : state) : state :=
  {| initialized := initialized s; config := config s;
     current_brightness := current_brightness s;
     current_level_index := current_level_index s;
     cycling := c; going_up := going_up s; at_limit := at_limit s;
     active_panel := active_panel s;
     cycle_timer_running := cycle_timer_running s |}.

(** [xTimerStart] and [xTimerStop] on [cycle_timer]. *)
Definition xTimerStart (s : state) : state :=
  {| initialized := initialized s; config := config s;
     current_brightness := current_brightness s;
     current_level_index := current_level_index s;
     cycling := cycling s; going_up := going_up s; at_limit := at_limit s;
     active_panel := active_panel s;
     cycle_timer_running := true |}.

Definition xTimerStop (s : state) : state :=
  {| initialized := initialized s; config := config s;
     current_brightness := current_brightness s;
     current_level_index := current_level_index s;
     cycling := cycling s; going_up := going_up s; at_limit := at_limit s;
     active_panel := active_panel s;
     cycle_timer_running := false |}.

Definition set_active_panel (p : panel_id_t) (s : state) : state :=
  {| initialized := initialized s; config := config s;
     current_brightness := current_brightness s;
     current_level_index := current_level_index s;
     cycling := cycling s; going_up := going_up s; at_limit := at_limit s;
     active_panel := p;
     cycle_timer_running := cycle_timer_running s |}.

Definition emit_brightness_changed (s : state) : list brightness_event :=
  [BRIGHTNESS_CHANGED (current_brightness s)].

(** [cycle_brightness]: one step of the up-and-down sweep, with a pause of
    one step at either end. *)
Definition cycle_brightness (s : state) : state * list brightness_event :=
  if at_limit s then (set_direction (going_up s) false s, [])
  else
    let s1 :=
      if going_up s then
        let s' := set_level_index (Font.uint8_wrap (current_level_index s + 1)) s in
        if current_level_index s' >=? BRIGHTNESS_LEVEL_COUNT then
          set_direction false true
            (set_level_index (BRIGHTNESS_LEVEL_COUNT - 1) s')
        else s'
      else if current_level_index s =? 0 then set_direction true true s
      else set_level_index (Font.uint8_wrap (current_level_index s - 1)) s in
    let s2 := set_brightness (level_at (current_level_index s1)) s1 in
    (s2, emit_brightness_changed s2).

Definition cycle_timer_callback (s : state) : state * list brightness_event :=
  if cycling s then cycle_brightness s else (s, []).

(** [input_long_press_handler]. *)
Definition input_long_press_handler (s : state) : state :=
  if negb (active_panel s =? PANEL_CLOCK) then s
  else xTimerStart (set_direction true false (set_cycling true s)).

(** [input_release_handler]. *)
Definition input_release_handler (s : state) : state :=
  if negb (cycling s) then s else xTimerStop (set_cycling false s).

(** [panel_activated_handler]; a NULL [event_data] is [None]. *)
Definition panel_activated_handler (event_data : option panel_id_t) (s : state)
  : state :=
  match event_data with
  | None => s
  | Some panel_id => set_active_panel panel_id s
  end.

(** The loop shared by [brightness_control_init] and
    [brightness_control_set_level]: the first index [i], counted in a
    [uint8_t], whose level is at least [b]. *)
Fixpoint find_level (levels : list Z) (i b : Z) : option Z :=
  match levels with
  | [] => None
  | l :: rest =>
      if l >=? b then Some i else find_level rest (Font.uint8_wrap (i + 1)) b
  end.

(** [brightness_control_init]; creating the timer and registering the three
    handlers succeed. *)
Definition brightness_control_init
    (cfg : option brightness_control_config_t) (s : state)
  : state * esp_err_t :=
  match cfg with
  | None => (s, ESP_ERR_INVALID_ARG)
  | Some c =>
      if initialized s then (s, ESP_OK)
      else if (initial_brightness c <? BRIGHTNESS_MIN)
              || (initial_brightness c >? BRIGHTNESS_MAX)
      then (s, ESP_ERR_INVALID_ARG)
      else
        ({| initialized := true;
            config := c;
            current_brightness := initial_brightness c;
            current_level_index :=
              match find_level BRIGHTNESS_LEVELS 0 (initial_brightness c) with
              | Some i => i
              | None => 0
              end;
            cycling := false;
            going_up := true;
            at_limit := at_limit s;
            active_panel := PANEL_CLOCK;
            cycle_timer_running := false |},
         ESP_OK)
  end.

Definition brightness_control_get_level (s : state) : Z := current_brightness s.

(** [brightness_control_set_level]. *)
Definition brightness_control_set_level (level : Z) (s : state)
  : state * list brightness_event * esp_err_t :=
  if (level <? BRIGHTNESS_MIN) || (level >? BRIGHTNESS_MAX)
  then (s, [], ESP_ERR_INVALID_ARG)
  else
    let s1 := set_level_index 0 (set_brightness level s) in
    let s2 :=
      match find_level BRIGHTNESS_LEVELS 0 level with
      | Some i => set_brightness (level_at i) (set_level_index i s1)
      | None => s1
      end in
    (s2, emit_brightness_changed s2, ESP_OK).

(** ** The module under any sequence of calls *)

Inductive op : Set :=
| LongPress
| Release
| PanelActivated (event_data : option panel_id_t)
| TimerExpiry
| SetLevel (level : Z).

(** The timer task calls [cycle_timer_callback] only while the timer runs. *)
Definition apply_op (o : op) (s : state) : state * list brightness_event :=
  match o with
  | LongPress => (input_long_press_handler s, [])
  | Release => (input_release_handler s, [])
  | PanelActivated d => (panel_activated_handler d s, [])
  | TimerExpiry =>
      if cycle_timer_running s then cycle_timer_callback s else (s, [])
  | SetLevel level =>
      let '(s', evs, _) := brightness_control_set_level level s in (s', evs)
  end.

Fixpoint run_ops (ops : list op) (s : state) : state * list brightness_event :=
  match ops with
  | [] => (s, [])
  | o :: rest =>
      let '(s1, ev1) := apply_op o s in
      let '(s2, ev2) := run_ops rest s1 in
      (s2, ev1 ++ ev2)
  end.

(** [n] expiries of the cycle timer in a row. *)
Fixpoint timer_ticks (n : nat) (s : state) : state * list brightness_event :=
  match n with
  | O => (s, [])
  | S n' =>
      let '(s1, ev1) := cycle_timer_callback s in
      let '(s2, ev2) := timer_ticks n' s1 in
      (s2, ev1 ++ ev2)
  end.

Definition carried (e : brightness_event) : Z :=
  match e with BRIGHTNESS_CHANGED b => b end.

Definition count_level (l : Z) (evs : list brightness_event) : nat :=
  length (List.filter (fun e => carried e =? l) evs).

(** What every call keeps: the index points into the table, the brightness
    is one the display accepts, and the timer runs exactly while cycling. *)
Definition brightness_inv (s : state) : Prop :=
  0 <= current_level_index s < BRIGHTNESS_LEVEL_COUNT
  /\ BRIGHTNESS_MIN <= current_brightness s <= BRIGHTNESS_MAX
  /\ cycle_timer_running s = cycling s.

(** A state of the sweep: cycling, and pausing only at an end of the table
    with the direction already reversed. *)
Definition on_sweep (s : state) : Prop :=
  cycling s = true
  /\ 0 <= current_level_index s < BRIGHTNESS_LEVEL_COUNT
  /\ (at_limit s = true ->
      (current_level_index s = BRIGHTNESS_LEVEL_COUNT - 1 /\ going_up s = false)
      \/ (current_level_index s = 0 /\ going_up s = true)).

(** Calls that cannot start a sweep off the clock panel. *)
Definition no_activation (o : op) : bool :=
  match o with
  | LongPress | Release | TimerExpiry | PanelActivated None => true
  | _ => false
  end.

End Brightness.

(* ====================================================================== *)
(** * Day names ([i18n.c]) and the clock panel ([clock_panel.c]) *)
(* ====================================================================== *)

Module Clock.

Import Font Display.

(** [language_t] and [time_format_t] are C enumerations. *)
Definition language_t : Set := Z.
Definition LANG_EN : language_t := 0.
Definition LANG_ES : language_t := 1.

Definition TIME_FORMAT_12H : Z := 0.
Definition TIME_FORMAT_24H : Z := 1.

Definition DAY_NAMES_EN : list string :=
  ["Sun"; "Mon"; "Tue"; "Wed"; "Thu"; "Fri"; "Sat"]%string.

Definition DAY_NAMES_ES : list string :=
  ["Dom"; "Lun"; "Mar"; "Mie"; "Jue"; "Vie"; "Sab"]%string.

(** [i18n_get_day_name], with the static [s_current_language] as an
    argument. *)
Definition i18n_get_day_name (s_current_language : language_t)
    (day_of_week : Z) : string :=
  if (day_of_week <? 0) || (day_of_week >? 6) then "???"%string
  else if s_current_language =? LANG_ES
       then nth (Z.to_nat day_of_week) DAY_NAMES_ES ""%string
       else nth (Z.to_nat day_of_week) DAY_NAMES_EN ""%string.

(** The decimal digits of [n >= 0], most significant first; an [int] has at
    most ten of them. *)
Fixpoint digits_fuel (fuel : nat) (n : Z) (acc : string) : string :=
  match fuel with
  | O => acc
  | S fuel' =>
      let acc' := String (ascii_of_nat (48 + Z.to_nat (n mod 10))) acc in
      if n <? 10 then acc' else digits_fuel fuel' (n / 10) acc'
  end.

Definition digits (n : Z) : string := digits_fuel 10 n ""%string.

(** The conversions [%d] and [%02d] of [snprintf] on an [int]. *)
Definition format_d (n : Z) : string :=
  if n <? 0 then ("-" ++ digits (- n))%string else digits n.

Definition format_02d (n : Z) : string :=
  if n <? 0 then ("-" ++ digits (- n))%string
  else if n <? 10 then ("0" ++ digits n)%string
  else digits n.

(** [snprintf(buf, size, ...)] keeps the first [size - 1] characters. *)
Definition snprintf_fit (size : nat) (s : string) : string :=
  substring 0 (size - 1) s.

(** The fields of [struct tm] that [render_time] reads. *)
Record tm : Set := {
  tm_sec : Z;
  tm_min : Z;
  tm_hour : Z;
  tm_wday : Z
}.

(** [render_time]: [now] is what [time(NULL)] returns and [time] what
    [localtime_r] makes of it; [format] is [s_config.format].  The result is
    the scene posted with [RENDER_SCENE], [None] when the function returns
    early. *)
Definition render_time (s_current_language : language_t) (format now : Z)
    (time : tm) : option display_scene_t :=
  if now <=? 0 then None
  else
    let dow_str :=
      snprintf_fit 4 (i18n_get_day_name s_current_language (tm_wday time)) in
    let hour := tm_hour time in
    let min := tm_min time in
    let sec := tm_sec time in
    let hour :=
      if format =? TIME_FORMAT_12H then
        let hour := Z.rem hour 12 in
        if hour =? 0 then 12 else hour
      else hour in
    let separator := if Z.rem sec 2 =? 0 then ":"%string else " "%string in
    let time_str :=
      snprintf_fit 16
        (if hour <? 10
         then (format_d hour ++ separator ++ format_02d min)%string
         else (format_02d hour ++ separator ++ format_02d min)%string) in
    Some {| elements :=
              [SCENE_ELEMENT_TEXT dow_str (Some font_dotmatrix_small);
               SCENE_ELEMENT_TEXT time_str (Some font_default)];
            fallback_text :=
              Some (snprintf_fit 20 (dow_str ++ " " ++ time_str)%string) |}.

(** The text of the [i]-th element of a scene. *)
Definition element_text (scene : display_scene_t) (i : nat) : string :=
  match nth_error (elements scene) i with
  | Some (SCENE_ELEMENT_TEXT str _) => str
  | _ => ""%string
  end.

(** The check behind the width of the time string: for an hour and a minute
    of the day, either format and either separator. *)
Definition time_width_ok (twelve even : bool) (hour min : Z) : bool :=
  match
    render_time LANG_EN (if twelve then TIME_FORMAT_12H else TIME_FORMAT_24H) 1
      {| tm_sec := if even then 0 else 1; tm_min := min; tm_hour := hour;
         tm_wday := 0 |}
  with
  | Some scene =>
      let time_str := element_text scene 1 in
      (4 <=? Z.of_nat (String.length time_str))
      && (Z.of_nat (String.length time_str) <=? 5)
      && (get_text_width time_str (Some font_default)
          =? 4 * Z.of_nat (String.length time_str) - 2)
  | None => false
  end.

End Clock.

(* ====================================================================== *)
(** * Properties of the gesture classifier *)
(* ====================================================================== *)

Section TouchFacts.

Import Touch.

Variable hz : Z.

Lemma TickType_wrap_range z : 0 <= TickType_wrap z < 2 ^ 32.
Proof. unfold TickType_wrap. apply Z.mod_pos_bound. lia. Qed.

Lemma TickType_wrap_small z : 0 <= z < 2 ^ 32 -> TickType_wrap z = z.
Proof. intros H. unfold TickType_wrap. now apply Z.mod_small. Qed.

(** The elapsed time the handler computes is the true distance between two
    ticks less than [2^32] apart. *)
Lemma elapsed_unwrapped t0 t1 :
  0 <= t1 - t0 < 2 ^ 32 ->
  TickType_wrap (TickType_wrap t1 - TickType_wrap t0) = t1 - t0.
Proof.
  intros H. unfold TickType_wrap.
  rewrite <- Zminus_mod. now apply Z.mod_small.
Qed.

(** An edge inside the debounce window changes nothing. *)
Lemma isr_debounced now level s :
  TickType_wrap (TickType_wrap now - last_touch_time s)
    < pdMS_TO_TICKS hz (debounce_ms (config s)) ->
  gpio_isr_handler hz now level s = (s, []).
Proof.
  intros H. unfold gpio_isr_handler.
  apply Z.ltb_lt in H. cbv zeta. now rewrite H.
Qed.

(** The same in unwrapped ticks: an edge less than the debounce time after
    the edge that set the reference is discarded, also across a wrap of the
    tick counter. *)
Lemma isr_debounced_within t_last now level s :
  last_touch_time s = TickType_wrap t_last ->
  0 <= now - t_last < pdMS_TO_TICKS hz (debounce_ms (config s)) ->
  gpio_isr_handler hz now level s = (s, []).
Proof.
  intros Hlast Hd. apply isr_debounced. rewrite Hlast.
  pose proof (TickType_wrap_range (debounce_ms (config s) * hz / 1000)) as Hr.
  fold (pdMS_TO_TICKS hz (debounce_ms (config s))) in Hr.
  rewrite elapsed_unwrapped by lia. lia.
Qed.

(** An edge outside the window becomes the new debounce reference, whatever
    its polarity and whether or not it changes the classifier state. *)
Lemma isr_accepted_reference now level s :
  pdMS_TO_TICKS hz (debounce_ms (config s))
    <= TickType_wrap (TickType_wrap now - last_touch_time s) ->
  last_touch_time (fst (gpio_isr_handler hz now level s)) = TickType_wrap now.
Proof.
  intros H. unfold gpio_isr_handler. cbv zeta.
  apply Z.ltb_ge in H. rewrite H.
  destruct (is_touch_active (config s) level), (is_pressed s); reflexivity.
Qed.

(** An accepted press edge on a released classifier arms the timer with its
    current period and posts nothing. *)
Lemma isr_press now level s :
  pdMS_TO_TICKS hz (debounce_ms (config s))
    <= TickType_wrap (TickType_wrap now - last_touch_time s) ->
  is_touch_active (config s) level = true ->
  is_pressed s = false ->
  gpio_isr_handler hz now level s =
    ({| initialized := initialized s;
        config := config s;
        last_touch_time := TickType_wrap now;
        release_timer := xTimerStart now (release_timer s);
        is_pressed := true;
        long_press_detected := false |}, []).
Proof.
  intros H Ha Hp. unfold gpio_isr_handler. cbv zeta.
  apply Z.ltb_ge in H. now rewrite H, Ha, Hp.
Qed.

(** An accepted release edge on a pressed classifier stops the timer, whose
    period it leaves as it is, and posts the event the press calls for. *)
Lemma isr_release now level s :
  pdMS_TO_TICKS hz (debounce_ms (config s))
    <= TickType_wrap (TickType_wrap now - last_touch_time s) ->
  is_touch_active (config s) level = false ->
  is_pressed s = true ->
  gpio_isr_handler hz now level s =
    ({| initialized := initialized s;
        config := config s;
        last_touch_time := TickType_wrap now;
        release_timer := xTimerStop (release_timer s);
        is_pressed := false;
        long_press_detected := long_press_detected s |},
     [if long_press_detected s then INPUT_RELEASE else INPUT_TAP]).
Proof.
  intros H Ha Hp. unfold gpio_isr_handler. cbv zeta.
  apply Z.ltb_ge in H. now rewrite H, Ha, Hp.
Qed.

(** The timer fires nothing while it is dormant or not yet due. *)
Lemma fire_timers_dormant t level s :
  expiry (release_timer s) = None -> fire_timers hz t level s = (s, []).
Proof. intros H. unfold fire_timers. now rewrite H. Qed.

Lemma fire_timers_not_due t level s e :
  expiry (release_timer s) = Some e -> t < e ->
  fire_timers hz t level s = (s, []).
Proof.
  intros H Hlt. unfold fire_timers. rewrite H.
  destruct (Z.to_nat (t - e + 1)) as [|n]; simpl; [reflexivity|].
  rewrite H. apply Z.leb_gt in Hlt. now rewrite Hlt.
Qed.

Lemma fire_timers_quiet t level s :
  (forall e, expiry (release_timer s) = Some e -> t < e) ->
  fire_timers hz t level s = (s, []).
Proof.
  intros H. destruct (expiry (release_timer s)) as [e|] eqn:E.
  - eapply fire_timers_not_due; eauto.
  - now apply fire_timers_dormant.
Qed.

Lemma idle_released_at t s : idle s -> released_at t s.
Proof. intros (Hp & _ & Hx). split; [exact Hp|]. intros e He. congruence. Qed.

(** While a long press is held the timer only polls: every expiry up to [t]
    re-arms the timer one period later and posts nothing. *)
Lemma fire_timers_fuel_polling fuel : forall t level s e,
  1 <= period (release_timer s) ->
  expiry (release_timer s) = Some e ->
  long_press_detected s = true ->
  is_touch_active (config s) level = true ->
  (Z.to_nat (t - e + 1) <= fuel)%nat ->
  exists e',
    fire_timers_fuel hz fuel t level s =
      (with_release_timer
         {| period := period (release_timer s); expiry := Some e' |} s, [])
    /\ t < e' /\ e <= e' /\ e' <= Z.max e (t + period (release_timer s)).
Proof.
  induction fuel as [|fuel IH]; intros t level s e Hq He Hl Ha Hf.
  - exists e. split; [|lia].
    destruct s as [i c l [q x] p d]; simpl in *. now subst.
  - simpl. rewrite He. destruct (e <=? t) eqn:Hdue.
    + apply Z.leb_le in Hdue.
      unfold release_timer_callback; simpl. rewrite Ha, Hl; simpl.
      match goal with
      | |- context [fire_timers_fuel hz fuel t level ?s1] =>
          destruct (IH t level s1 (e + period (release_timer s)))
            as (e' & Hrun & H1 & H2 & H3); simpl; auto; try lia
      end.
      simpl in Hrun, H3. rewrite Hrun. exists e'.
      unfold with_release_timer; simpl. rewrite Hl. split; [reflexivity|lia].
    + apply Z.leb_gt in Hdue. exists e. split; [|lia].
      destruct s as [i c l [q x] p d]; simpl in *. now subst.
Qed.

Lemma fire_timers_polling t level s e :
  1 <= period (release_timer s) ->
  expiry (release_timer s) = Some e ->
  long_press_detected s = true ->
  is_touch_active (config s) level = true ->
  exists e',
    fire_timers hz t level s =
      (with_release_timer
         {| period := period (release_timer s); expiry := Some e' |} s, [])
    /\ t < e' /\ e <= e' /\ e' <= Z.max e (t + period (release_timer s)).
Proof.
  intros Hq He Hl Ha. unfold fire_timers. rewrite He.
  now apply fire_timers_fuel_polling.
Qed.

(** The first expiry of a press that is still held: [INPUT_LONG_PRESS] is
    posted at the expiry and the timer continues with the polling period. *)
Lemma fire_timers_long_press_start t level s e :
  1 <= pdMS_TO_TICKS hz 50 ->
  expiry (release_timer s) = Some e ->
  e <= t ->
  long_press_detected s = false ->
  is_touch_active (config s) level = true ->
  exists e',
    fire_timers hz t level s =
      ({| initialized := initialized s;
          config := config s;
          last_touch_time := last_touch_time s;
          release_timer := {| period := pdMS_TO_TICKS hz 50; expiry := Some e' |};
          is_pressed := is_pressed s;
          long_press_detected := true |},
       [(e, INPUT_LONG_PRESS)])
    /\ t < e' <= t + pdMS_TO_TICKS hz 50.
Proof.
  intros Hq He Hdue Hl Ha. unfold fire_timers. rewrite He.
  destruct (Z.to_nat (t - e + 1)) as [|fuel] eqn:Hfuel; [lia|].
  simpl. rewrite He. apply Z.leb_le in Hdue as Hdue'. rewrite Hdue'.
  unfold release_timer_callback; simpl. rewrite Ha, Hl; simpl.
  match goal with
  | |- context [fire_timers_fuel hz fuel t level ?s1] =>
      destruct (fire_timers_fuel_polling fuel t level s1 (e + pdMS_TO_TICKS hz 50))
        as (e' & Hrun & H1 & H2 & H3); simpl; auto; try lia
  end.
  simpl in Hrun, H3. rewrite Hrun. exists e'.
  unfold with_release_timer; simpl. split; [reflexivity|lia].
Qed.


(** Side conditions of the handler lemmas, after the state is computed. *)
Ltac touch_side := simpl; first [assumption | reflexivity | lia].

(** ** Whole gestures

    A press edge at [t0] and a release edge at [t1] on an idle classifier,
    observed until [h].  The threshold the press is measured against is the
    period the timer has when the press is accepted. *)

Lemma press_then_release_before_expiry s t0 t1 h level0 on off :
  released_at t0 s ->
  is_touch_active (config s) on = true ->
  is_touch_active (config s) off = false ->
  pdMS_TO_TICKS hz (debounce_ms (config s))
    <= TickType_wrap (TickType_wrap t0 - last_touch_time s) ->
  pdMS_TO_TICKS hz (debounce_ms (config s))
    <= TickType_wrap (TickType_wrap t1 - TickType_wrap t0) ->
  t1 < t0 + period (release_timer s) ->
  exists s',
    run_until hz h level0 [(t0, on); (t1, off)] s = (s', [(t1, INPUT_TAP)])
    /\ idle s' /\ period (release_timer s') = period (release_timer s).
Proof.
  intros (Hp & Hx) Hon Hoff Hd0 Hd1 Hlt.
  unfold run_until. cbn [run].
  rewrite fire_timers_quiet by assumption.
  rewrite isr_press by touch_side.
  erewrite fire_timers_not_due; [|reflexivity|simpl; lia].
  rewrite isr_release by touch_side.
  cbn [long_press_detected].
  rewrite fire_timers_dormant by reflexivity.
  eexists; split; [reflexivity|]. repeat split.
Qed.

Lemma press_with_debounced_release s t0 t1 h level0 on off :
  released_at t0 s ->
  is_touch_active (config s) on = true ->
  is_touch_active (config s) off = false ->
  pdMS_TO_TICKS hz (debounce_ms (config s))
    <= TickType_wrap (TickType_wrap t0 - last_touch_time s) ->
  TickType_wrap (TickType_wrap t1 - TickType_wrap t0)
    < pdMS_TO_TICKS hz (debounce_ms (config s)) ->
  t1 < t0 + period (release_timer s) ->
  t0 + period (release_timer s) <= h ->
  exists s',
    run_until hz h level0 [(t0, on); (t1, off)] s =
      (s', [(t0 + period (release_timer s), INPUT_TAP)])
    /\ idle s' /\ last_touch_time s' = TickType_wrap t0.
Proof.
  intros (Hp & Hx) Hon Hoff Hd0 Hd1 Hlt Hh.
  unfold run_until. cbn [run].
  rewrite fire_timers_quiet by assumption.
  rewrite isr_press by touch_side.
  erewrite fire_timers_not_due; [|reflexivity|simpl; lia].
  rewrite isr_debounced by touch_side.
  unfold final_level; simpl List.last.
  unfold fire_timers; simpl.
  destruct (Z.to_nat (h - (t0 + period (release_timer s)) + 1)) as [|fuel] eqn:Hf;
    [lia|].
  simpl. apply Z.leb_le in Hh. rewrite Hh.
  unfold release_timer_callback; simpl. rewrite Hoff; simpl.
  destruct fuel; simpl;
    (eexists; split; [reflexivity|]; repeat split).
Qed.

Lemma press_held_release_by_interrupt s t0 t1 h level0 on off :
  released_at t0 s ->
  is_touch_active (config s) on = true ->
  is_touch_active (config s) off = false ->
  1 <= pdMS_TO_TICKS hz 50 ->
  pdMS_TO_TICKS hz (debounce_ms (config s))
    <= TickType_wrap (TickType_wrap t0 - last_touch_time s) ->
  pdMS_TO_TICKS hz (debounce_ms (config s))
    <= TickType_wrap (TickType_wrap t1 - TickType_wrap t0) ->
  t0 + period (release_timer s) <= t1 ->
  exists s',
    run_until hz h level0 [(t0, on); (t1, off)] s =
      (s', [(t0 + period (release_timer s), INPUT_LONG_PRESS); (t1, INPUT_RELEASE)])
    /\ is_pressed s' = false /\ expiry (release_timer s') = None
    /\ period (release_timer s') = pdMS_TO_TICKS hz 50.
Proof.
  intros (Hp & Hx) Hon Hoff Hq Hd0 Hd1 Hheld.
  unfold run_until. cbn [run].
  rewrite fire_timers_quiet by assumption.
  rewrite isr_press by touch_side.
  match goal with
  | |- context [fire_timers hz t1 on ?s1] =>
      destruct (fire_timers_long_press_start t1 on s1 (t0 + period (release_timer s)))
        as (e' & Hrun & He'); [touch_side..|]
  end.
  rewrite Hrun.
  rewrite isr_release by touch_side.
  cbn [long_press_detected].
  rewrite fire_timers_dormant by reflexivity.
  eexists; split; [reflexivity|]. repeat split.
Qed.


End TouchFacts.

Section TouchClaims.

Import Touch.

(** C1 (code evaluated where the claim fails).  After a long press that the
    release interrupt ends, the timer keeps the 5-tick polling period: the
    threshold period of 20 ticks is not restored, and the next press arms the
    timer for tick 205, five ticks after the press at 200.  The same long
    press ended by a polling expiry does restore the period of 20 ticks. *)
Theorem isr_release_leaves_poll_period :
  let by_isr := run_until 100 150 0 long_press_signal booted in
  let by_poll := run_until 100 150 0 long_press_polled_signal booted in
  pdMS_TO_TICKS 100 LONG_PRESS_MS = 20
  /\ snd by_isr = [(120, INPUT_LONG_PRESS); (133, INPUT_RELEASE)]
  /\ period (release_timer (fst by_isr)) = 5
  /\ expiry (release_timer (fst (gpio_isr_handler 100 200 1 (fst by_isr)))) = Some 205
  /\ snd by_poll = [(120, INPUT_LONG_PRESS); (135, INPUT_RELEASE)]
  /\ period (release_timer (fst by_poll)) = 20.
Proof. vm_compute. repeat split. Qed.

(** C2 (code evaluated where the claim fails).  The press at tick 200 is held
    for 62 ticks (620 ms), yet [INPUT_LONG_PRESS] is posted at tick 205, 50 ms
    after the press edge and not 200 ms after it, because the preceding long
    press was ended by the release interrupt. *)
Theorem second_long_press_starts_early :
  pdMS_TO_TICKS 100 LONG_PRESS_MS = 20
  /\ snd (run_until 100 300 0 (long_press_signal ++ [(200, 1); (262, 0)]) booted) =
       [(120, INPUT_LONG_PRESS); (133, INPUT_RELEASE);
        (205, INPUT_LONG_PRESS); (262, INPUT_RELEASE)].
Proof. vm_compute. split; reflexivity. Qed.

(** C5 (code evaluated where the claim fails).  The press at tick 200 is
    released at tick 212, 120 ms later and well inside the 200 ms threshold;
    both edges are accepted, yet no [INPUT_TAP] is posted: the press is
    reported as a long press, because the preceding long press was ended by
    the release interrupt. *)
Theorem short_press_after_long_press_is_no_tap :
  let evs := snd (run_until 100 300 0 (long_press_signal ++ [(200, 1); (212, 0)]) booted) in
  pdMS_TO_TICKS 100 LONG_PRESS_MS = 20
  /\ evs = [(120, INPUT_LONG_PRESS); (133, INPUT_RELEASE);
            (205, INPUT_LONG_PRESS); (212, INPUT_RELEASE)]
  /\ count_event INPUT_TAP evs = 0%nat.
Proof. vm_compute. repeat split. Qed.

(** C6.  An edge that arrives within the debounce window of the last accepted
    edge, whatever its level, leaves the whole classifier state as it was
    (the debounce reference included) and posts no event; an edge outside
    the window becomes the new reference, whatever its level. *)
Theorem debounce_window (hz now level : Z) (s : state) :
  let elapsed := TickType_wrap (TickType_wrap now - last_touch_time s) in
  let debounce_ticks := pdMS_TO_TICKS hz (debounce_ms (config s)) in
  (elapsed < debounce_ticks -> gpio_isr_handler hz now level s = (s, []))
  /\ (debounce_ticks <= elapsed ->
      last_touch_time (fst (gpio_isr_handler hz now level s)) = TickType_wrap now).
Proof.
  cbv zeta. split.
  - apply isr_debounced.
  - apply isr_accepted_reference.
Qed.

Lemma debounce_window_witness :
  let pressed := fst (gpio_isr_handler 100 100 1 booted) in
  gpio_isr_handler 100 103 0 pressed = (pressed, [])
  /\ last_touch_time (fst (gpio_isr_handler 100 110 0 pressed)) = 110.
Proof.
  cbv zeta. split.
  - apply (proj1 (debounce_window 100 103 0 (fst (gpio_isr_handler 100 100 1 booted)))).
    vm_compute. reflexivity.
  - apply (proj2 (debounce_window 100 110 0 (fst (gpio_isr_handler 100 100 1 booted)))).
    vm_compute. discriminate.
Defined.

(** C10.  A press edge accepted while nothing is pressed, followed before
    the timer expires by a release edge that the debounce window discards: the
    only event is one [INPUT_TAP], posted at the expiry of the timer (one
    timer period after the press edge), and the classifier is idle again. *)
Theorem debounced_release_taps_at_expiry
    (hz : Z) (s : state) (t0 t1 h level0 on off : Z) :
  released_at t0 s ->
  is_touch_active (config s) on = true ->
  is_touch_active (config s) off = false ->
  pdMS_TO_TICKS hz (debounce_ms (config s))
    <= TickType_wrap (TickType_wrap t0 - last_touch_time s) ->
  TickType_wrap (TickType_wrap t1 - TickType_wrap t0)
    < pdMS_TO_TICKS hz (debounce_ms (config s)) ->
  t1 < t0 + period (release_timer s) ->
  t0 + period (release_timer s) <= h ->
  let '(s', evs) := run_until hz h level0 [(t0, on); (t1, off)] s in
  evs = [(t0 + period (release_timer s), INPUT_TAP)]
  /\ count_event INPUT_TAP evs = 1%nat
  /\ count_event INPUT_LONG_PRESS evs = 0%nat
  /\ count_event INPUT_RELEASE evs = 0%nat
  /\ idle s'.
Proof.
  intros Hi Hon Hoff Hd0 Hd1 Hlt Hh.
  destruct (press_with_debounced_release hz s t0 t1 h level0 on off)
    as (s' & Hrun & Hidle & _); auto.
  rewrite Hrun. repeat split; apply Hidle.
Qed.

Lemma debounced_release_taps_at_expiry_witness :
  snd (run_until 100 300 0 [(100, 1); (103, 0)] booted) = [(120, INPUT_TAP)].
Proof.
  pose proof (debounced_release_taps_at_expiry 100 booted 100 103 300 0 1 0) as H.
  destruct (run_until 100 300 0 [(100, 1); (103, 0)] booted) as [s' evs].
  apply H; try (vm_compute; first [reflexivity | discriminate]).
  split; [reflexivity|]. intros e He. discriminate He.
Defined.

End TouchClaims.

(* ====================================================================== *)
(** * Properties of the display driver *)
(* ====================================================================== *)

Section RotationFacts.

Import Display.

Variable input : Z.

Lemma testbit_one m : Z.testbit 1 m = (m =? 0).
Proof. destruct m as [|q|q]; try reflexivity; destruct q; reflexivity. Qed.

(** One step of the inner loop body, read bit by bit. *)
Lemma testbit_place_bit src dst p :
  0 <= src -> 0 <= dst -> 0 <= p ->
  Z.testbit (Z.shiftl (Z.land (Z.shiftr input src) 1) dst) p =
    (dst =? p) && Z.testbit input src.
Proof.
  intros Hs Hd Hp.
  rewrite Z.shiftl_spec by assumption.
  rewrite Z.land_spec, testbit_one.
  destruct (dst =? p) eqn:E.
  - apply Z.eqb_eq in E. subst p.
    replace (dst - dst) with 0 by lia.
    rewrite Z.shiftr_spec by lia. simpl. now rewrite andb_true_r.
  - apply Z.eqb_neq in E.
    replace (p - dst =? 0) with false by (symmetry; apply Z.eqb_neq; lia).
    now rewrite andb_false_r.
Qed.

(** The inner loop over the columns of one row. *)
Lemma testbit_inner_loop row p cols : forall output,
  0 <= row -> 0 <= p ->
  Forall (fun col => 0 <= col <= 7) cols ->
  Z.testbit
    (fold_left
       (fun output col =>
          Z.lor output
            (Z.shiftl (Z.land (Z.shiftr input (row * 8 + col)) 1)
               ((7 - col) * 8 + row)))
       cols output) p =
  Z.testbit output p
  || existsb (fun col => ((7 - col) * 8 + row =? p)
                         && Z.testbit input (row * 8 + col)) cols.
Proof.
  induction cols as [|col cols IH]; intros output Hr Hp Hc; simpl.
  - now rewrite orb_false_r.
  - inversion Hc as [|? ? Hcol Hrest]; subst.
    rewrite IH by assumption.
    rewrite Z.lor_spec, testbit_place_bit by lia.
    now rewrite orb_assoc.
Qed.

(** Both loops. *)
Lemma testbit_outer_loop p cols rows : forall output,
  0 <= p ->
  Forall (fun col => 0 <= col <= 7) cols ->
  Forall (fun row => 0 <= row) rows ->
  Z.testbit
    (fold_left
       (fun output row =>
          fold_left
            (fun output col =>
               Z.lor output
                 (Z.shiftl (Z.land (Z.shiftr input (row * 8 + col)) 1)
                    ((7 - col) * 8 + row)))
            cols output)
       rows output) p =
  Z.testbit output p
  || existsb
       (fun row =>
          existsb (fun col => ((7 - col) * 8 + row =? p)
                              && Z.testbit input (row * 8 + col)) cols) rows.
Proof.
  induction rows as [|row rows IH]; intros output Hp Hc Hr; simpl.
  - now rewrite orb_false_r.
  - inversion Hr as [|? ? Hrow Hrest]; subst.
    rewrite IH by assumption.
    rewrite testbit_inner_loop by assumption.
    now rewrite orb_assoc.
Qed.

Lemma seqZ_0_8 : seqZ 0 8 = [0; 1; 2; 3; 4; 5; 6; 7].
Proof. reflexivity. Qed.

(** The bits of [transpose_8x8 input], as a search through the 64 pairs. *)
Lemma testbit_transpose_8x8 p :
  0 <= p ->
  Z.testbit (transpose_8x8 input) p =
    existsb
      (fun row =>
         existsb (fun col => ((7 - col) * 8 + row =? p)
                             && Z.testbit input (row * 8 + col))
           [0; 1; 2; 3; 4; 5; 6; 7])
      [0; 1; 2; 3; 4; 5; 6; 7].
Proof.
  intros Hp. unfold transpose_8x8. rewrite seqZ_0_8.
  rewrite testbit_outer_loop; [now rewrite Z.bits_0|assumption| |];
    repeat constructor; lia.
Qed.

Lemma below_eight n :
  0 <= n < 8 ->
  n = 0 \/ n = 1 \/ n = 2 \/ n = 3 \/ n = 4 \/ n = 5 \/ n = 6 \/ n = 7.
Proof. lia. Qed.

(** Bit [(row, col)] of the input is bit [(7 - col, row)] of the output. *)
Lemma transpose_8x8_bit row col :
  0 <= row < 8 -> 0 <= col < 8 ->
  Z.testbit (transpose_8x8 input) ((7 - col) * 8 + row) =
    Z.testbit input (row * 8 + col).
Proof.
  intros Hr Hc. rewrite testbit_transpose_8x8 by lia.
  apply below_eight in Hr. apply below_eight in Hc.
  repeat (destruct Hr as [Hr|Hr]); repeat (destruct Hc as [Hc|Hc]); subst;
    simpl; rewrite ?orb_false_r; reflexivity.
Qed.

(** The output has no bit outside the 64 of a [uint64_t]. *)
Lemma transpose_8x8_high_bits p :
  64 <= p -> Z.testbit (transpose_8x8 input) p = false.
Proof.
  intros Hp. rewrite testbit_transpose_8x8 by lia.
  cbn [existsb].
  repeat match goal with
         | |- context [?a =? p] =>
             replace (a =? p) with false by (symmetry; apply Z.eqb_neq; lia)
         end.
  reflexivity.
Qed.

End RotationFacts.

Section FontFacts.

Import Font Display.

(** Every entry of a byte table is a byte, and so is the default read
    outside it. *)
Lemma at_index_byte table i :
  forallb (fun w => (0 <=? w) && (w <? 256)) table = true ->
  0 <= at_index table i < 256.
Proof.
  intros H. unfold at_index.
  destruct (nth_in_or_default (Z.to_nat i) table 0) as [Hin| ->]; [|lia].
  rewrite forallb_forall in H. specialize (H _ Hin).
  apply andb_true_iff in H as [H1 H2].
  apply Z.leb_le in H1. apply Z.ltb_lt in H2. lia.
Qed.

Lemma uint8_wrap_byte z : 0 <= Font.uint8_wrap z < 256.
Proof. unfold Font.uint8_wrap. apply Z.mod_pos_bound. lia. Qed.

Lemma default_font_get_char_byte ch :
  0 <= desc_width (default_font_get_char ch) < 256.
Proof.
  unfold default_font_get_char.
  destruct (at_index DEFAULT_FONT_CHAR_WIDTH ch =? 0); simpl;
    [lia | apply uint8_wrap_byte].
Qed.

Lemma font_default_uint8 : uint8_widths font_default.
Proof. intros ch. split; apply default_font_get_char_byte. Qed.

Lemma font_dotmatrix_small_uint8 : uint8_widths font_dotmatrix_small.
Proof.
  intros ch. simpl.
  unfold dotmatrix_small_font_get_char, dotmatrix_small_font_get_char_last.
  pose proof (at_index_byte DOTMATRIX_SMALL_CHAR_WIDTH ch eq_refl).
  destruct (at_index DOTMATRIX_SMALL_CHAR_WIDTH ch =? 0); simpl;
    split; auto using default_font_get_char_byte, uint8_wrap_byte.
Qed.

Lemma font_dotmatrix_uint8 : uint8_widths font_dotmatrix.
Proof.
  intros ch. simpl.
  unfold dotmatrix_font_get_char, dotmatrix_font_get_char_last.
  pose proof (at_index_byte DOTMATRIX_CHAR_WIDTH ch eq_refl).
  destruct (at_index DOTMATRIX_CHAR_WIDTH ch =? 0); simpl;
    split; auto using default_font_get_char_byte, uint8_wrap_byte.
Qed.

(** The loop sees a NUL after the current character exactly when no
    character of the string follows. *)
Lemma next_char_nul rest :
  (next_char rest =? 0) = match c_string rest with [] => true | _ => false end.
Proof.
  destruct rest as [|c r]; simpl; [reflexivity|].
  destruct (char_code c =? 0); reflexivity.
Qed.

(** The guarded addition of the loop adds the width the lookup returned. *)
Lemma guarded_add_width (d : option font_char_t) w :
  0 <= desc_width d ->
  match d with
  | Some c => if Font.width c >? 0 then w + Font.width c else w
  | None => w
  end = w + desc_width d.
Proof.
  destruct d as [c|]; simpl; intros H; [|lia].
  destruct (Font.width c >? 0) eqn:E; [reflexivity|].
  rewrite Z.gtb_ltb in E. apply Z.ltb_ge in E. lia.
Qed.

Lemma get_text_width_loop_measured font :
  uint8_widths font ->
  forall p w,
    get_text_width_loop font p w = w + measured_width font (c_string p).
Proof.
  intros Hwf. induction p as [|c rest IH]; intros w; simpl.
  - lia.
  - destruct (char_code c =? 0) eqn:Ec; simpl; [lia|].
    rewrite IH. unfold lookup_char. rewrite next_char_nul.
    destruct (c_string rest) as [|c2 l].
    + rewrite guarded_add_width by apply Hwf. cbn [measured_width]. lia.
    + rewrite guarded_add_width by apply Hwf. cbn [measured_width]. lia.
Qed.

(** The letters of the small dot matrix font are three columns wide; the
    ordinary lookup adds the roof column, the last-character lookup does
    not. *)
Lemma dotmatrix_small_letter ch :
  is_letter ch ->
  desc_width (dotmatrix_small_font_get_char ch) = 4
  /\ desc_width (dotmatrix_small_font_get_char_last ch) = 3.
Proof.
  intros Hl.
  assert (exists n, ch = 65 + Z.of_nat n /\ (n < 58)%nat) as (n & -> & Hn).
  { exists (Z.to_nat (ch - 65)). unfold is_letter in Hl. lia. }
  do 58 (destruct n as [|n]; [first [now split | exfalso; unfold is_letter in Hl; lia]|]).
  lia.
Qed.

Lemma dotmatrix_letter ch :
  is_letter ch ->
  desc_width (dotmatrix_font_get_char ch) = 6
  /\ desc_width (dotmatrix_font_get_char_last ch) = 5.
Proof.
  intros Hl.
  assert (exists n, ch = 65 + Z.of_nat n /\ (n < 58)%nat) as (n & -> & Hn).
  { exists (Z.to_nat (ch - 65)). unfold is_letter in Hl. lia. }
  do 58 (destruct n as [|n]; [first [now split | exfalso; unfold is_letter in Hl; lia]|]).
  lia.
Qed.

End FontFacts.

Section DisplayClaims.

Import Font Display.

(** C4.  For every block and all [row], [col] below 8, bit [(row, col)] of
    the input is bit [(7 - col, row)] of [transpose_8x8]'s output; this is
    not the plain transpose (bit [(0, 1)] does not land on [(1, 0)]), and it
    is not its own inverse: applied twice to the block [1] it gives [2^63]. *)
Theorem transpose_8x8_is_rotation :
  (forall input row col,
      0 <= row < 8 -> 0 <= col < 8 ->
      Z.testbit (transpose_8x8 input) ((7 - col) * 8 + row) =
        Z.testbit input (row * 8 + col))
  /\ Z.testbit (transpose_8x8 2) (1 * 8 + 0) = false
  /\ (exists input,
        0 <= input < 2 ^ 64 /\ transpose_8x8 (transpose_8x8 input) <> input).
Proof.
  split; [|split].
  - intros input row col. apply transpose_8x8_bit.
  - vm_compute. reflexivity.
  - exists 1. split; [lia|]. vm_compute. discriminate.
Qed.

Lemma transpose_8x8_is_rotation_witness :
  Z.testbit (transpose_8x8 0x8040201008040201) ((7 - 2) * 8 + 1) =
    Z.testbit 0x8040201008040201 (1 * 8 + 2).
Proof.
  apply (proj1 transpose_8x8_is_rotation 0x8040201008040201 1 2); lia.
Defined.

(** C3 (counterexample).  The claim does not hold of the default font: its
    last-character lookup is the ordinary lookup, so the glyph ['0'], three
    columns wide, is measured with its spacing column, four columns. *)
Lemma default_font_last_lookup_keeps_spacing :
  ~ (forall font text,
        In font source_fonts ->
        get_text_width text (Some font) = measured_width font (c_string text)
        /\ last_omits_spacing font).
Proof.
  intros H.
  destruct (H font_default "0"%string) as [_ Ho]; [now left|].
  assert (0 < desc_width (get_char font_default 48)) as Hglyph
    by (vm_compute; reflexivity).
  pose proof (Ho 48 ltac:(lia) Hglyph) as E.
  vm_compute in E. discriminate E.
Qed.

Example default_font_zero_measured :
  get_text_width "0" None = 4 /\ at_index DEFAULT_FONT_CHAR_WIDTH 48 = 3.
Proof. split; reflexivity. Qed.

Example dotmatrix_small_AB_measured :
  get_text_width "AB" (Some font_dotmatrix_small) = 4 + 3.
Proof. reflexivity. Qed.

(** C3 (amended).  For every string and every font, [get_text_width] is the
    sum of the widths the ordinary lookup returns for every character but
    the last, plus the width the last-character lookup returns for the last
    one.  For the letters of the two dot matrix fonts the last-character
    lookup returns one column less than the ordinary one (no spacing
    column); the default font's last-character lookup is its ordinary
    lookup, spacing column included. *)
Theorem text_width_by_lookups :
  (forall text font,
      uint8_widths (font_or_default font) ->
      get_text_width text font =
        measured_width (font_or_default font) (c_string text))
  /\ (forall ch,
        is_letter ch ->
        desc_width (get_char_last font_dotmatrix_small ch) =
          desc_width (get_char font_dotmatrix_small ch) - 1
        /\ desc_width (get_char_last font_dotmatrix ch) =
             desc_width (get_char font_dotmatrix ch) - 1)
  /\ get_char_last font_default = get_char font_default.
Proof.
  split; [|split].
  - intros text font Hwf. unfold get_text_width.
    now rewrite get_text_width_loop_measured.
  - intros ch Hl. simpl.
    destruct (dotmatrix_small_letter ch Hl) as [-> ->].
    destruct (dotmatrix_letter ch Hl) as [-> ->].
    split; reflexivity.
  - reflexivity.
Qed.

Lemma text_width_by_lookups_witness :
  get_text_width "THU" (Some font_dotmatrix_small) =
    measured_width font_dotmatrix_small (c_string "THU")
  /\ desc_width (get_char_last font_dotmatrix_small 85) =
       desc_width (get_char font_dotmatrix_small 85) - 1.
Proof.
  split.
  - apply (proj1 text_width_by_lookups "THU"%string (Some font_dotmatrix_small)).
    exact font_dotmatrix_small_uint8.
  - apply (proj1 (proj2 text_width_by_lookups) 85). unfold is_letter. lia.
Defined.

(** The update loop issues four calls, call [i] for position [8 * i]. *)
Lemma stream_buffer_calls buf :
  stream_buffer buf =
    [ {| pos := 0;  image := transpose_8x8 (buffer_at buf 3) |};
      {| pos := 8;  image := transpose_8x8 (buffer_at buf 2) |};
      {| pos := 16; image := transpose_8x8 (buffer_at buf 1) |};
      {| pos := 24; image := transpose_8x8 (buffer_at buf 0) |} ].
Proof. reflexivity. Qed.

(** When the driver renders, what it streams is the buffer it composed. *)
Lemma max7219_driver_render_streams sc buf0 buf' calls :
  max7219_driver_render true (Some sc) buf0 = (buf', calls) ->
  calls <> [] ->
  calls = stream_buffer buf'.
Proof.
  unfold max7219_driver_render. simpl.
  destruct (elements sc) as [|e es]; [destruct (fallback_text sc)|];
    intros H Hne; inversion H; subst; congruence.
Qed.

(** C9.  When the driver streams the buffer it composed, for every [i] below
    4 the call for device [i] (position [8 * i]) carries the rotated buffer
    block [3 - i]; the first block, [buffer[0]], goes to the last device. *)
Theorem cascade_streamed_in_reverse
    (sc : display_scene_t) (buf0 buf' : display_buffer)
    (calls : list draw_call) (i : Z) :
  max7219_driver_render true (Some sc) buf0 = (buf', calls) ->
  calls <> [] ->
  0 <= i < 4 ->
  length calls = 4%nat
  /\ (exists c,
        calls !! Z.to_nat i = Some c
        /\ pos c = i * 8
        /\ device_of_pos (pos c) = i
        /\ image c = transpose_8x8 (buffer_at buf' (3 - i)))
  /\ (exists c,
        last calls = Some c
        /\ device_of_pos (pos c) = MAX7219_CASCADE - 1
        /\ image c = transpose_8x8 (buffer_at buf' 0)).
Proof.
  intros Hr Hne Hi.
  rewrite (max7219_driver_render_streams _ _ _ _ Hr Hne).
  rewrite stream_buffer_calls.
  split; [reflexivity|]. split.
  - assert (i = 0 \/ i = 1 \/ i = 2 \/ i = 3) as Hc by lia.
    destruct Hc as [-> | [-> | [-> | ->]]];
      (eexists; split; [reflexivity|]; repeat split).
  - eexists; split; [reflexivity|]. repeat split.
Qed.

Lemma cascade_streamed_in_reverse_witness :
  let r := max7219_driver_render true (Some sample_scene) [0; 0; 0; 0] in
  exists c, last (snd r) = Some c
            /\ device_of_pos (pos c) = MAX7219_CASCADE - 1
            /\ image c = transpose_8x8 (buffer_at (fst r) 0).
Proof.
  intros r.
  destruct (cascade_streamed_in_reverse sample_scene [0; 0; 0; 0] (fst r) (snd r) 3)
    as (_ & _ & H).
  - apply surjective_pairing.
  - vm_compute. discriminate.
  - lia.
  - exact H.
Defined.

(** The console mock undoes the reversal: after the four calls its own
    buffer holds the rotated block [k] at index [k]. *)
Lemma mock_receives_blocks_in_order buf mock :
  length mock = 4%nat ->
  fold_left (fun m c => mock_draw_image_8x8 c m) (stream_buffer buf) mock =
    map (fun k => transpose_8x8 (buffer_at buf k)) [0; 1; 2; 3].
Proof.
  intros Hlen.
  destruct mock as [|a [|b [|c [|d [|? ?]]]]]; try discriminate.
  reflexivity.
Qed.

End DisplayClaims.

(* ====================================================================== *)
(** * Properties of the panel manager *)
(* ====================================================================== *)

Section PanelFacts.

Import Panel.

Lemma same_registry_refl s : same_registry s s.
Proof. repeat split. Qed.

Lemma same_registry_trans s1 s2 s3 :
  same_registry s1 s2 -> same_registry s2 s3 -> same_registry s1 s3.
Proof. unfold same_registry. intros (?&?&?) (?&?&?). repeat split; congruence. Qed.

Lemma panel_at_same s s' i :
  same_registry s s' -> panel_at s' i = panel_at s i.
Proof. intros (_ & _ & H). unfold panel_at. now rewrite H. Qed.

Lemma panel_count_same s s' :
  same_registry s s' -> panel_count s' = panel_count s.
Proof. intros (_ & _ & H). unfold panel_count. now rewrite H. Qed.

(** ** The search loop *)

Lemma find_panel_some x ps : forall i j,
  find_panel x ps i = Some j ->
  i <= j < i + Z.of_nat (length ps)
  /\ id (nth (Z.to_nat (j - i)) ps empty_slot) = x.
Proof.
  induction ps as [|p ps IH]; intros i j H; simpl in H; [discriminate|].
  destruct (id p =? x) eqn:E.
  - inversion H; subst j. apply Z.eqb_eq in E.
    replace (i - i) with 0 by lia. simpl. split; [lia|assumption].
  - apply IH in H as [Hr Hid]. split; [simpl length; lia|].
    replace (Z.to_nat (j - i)) with (S (Z.to_nat (j - (i + 1)))) by lia.
    exact Hid.
Qed.

Lemma find_panel_none x ps : forall i,
  find_panel x ps i = None <-> ~ In x (map id ps).
Proof.
  induction ps as [|p ps IH]; intros i; simpl.
  - tauto.
  - destruct (id p =? x) eqn:E.
    + apply Z.eqb_eq in E. split; [discriminate|]. intros H. exfalso. auto.
    + apply Z.eqb_neq in E. rewrite IH. tauto.
Qed.

Lemma find_panel_appended x ps p : forall i,
  find_panel x ps i = None -> id p = x ->
  find_panel x (ps ++ [p]) i = Some (i + Z.of_nat (length ps)).
Proof.
  induction ps as [|q ps IH]; intros i Hn Hp; simpl in *.
  - apply Z.eqb_eq in Hp. rewrite Hp. f_equal. lia.
  - destruct (id q =? x); [discriminate|].
    rewrite IH by assumption. f_equal. lia.
Qed.

(** ** Registration *)

Lemma uint8_wrap_small z : 0 <= z < 256 -> uint8_wrap z = z.
Proof. intros H. unfold uint8_wrap. now apply Z.mod_small. Qed.

Lemma register_new_panel p s :
  registry_ok s ->
  panel_count s < MAX_PANELS ->
  ~ In (id p) (map id (panels s)) ->
  exists s' evs,
    panel_manager_register_panel (Some p) s = (s', evs, ESP_OK)
    /\ panels s' = panels s ++ [p]
    /\ config s' = config s
    /\ registry_ok s'.
Proof.
  intros (Hi & Hc & Ha) Hlt Hnew.
  unfold panel_manager_register_panel. rewrite Hi. simpl negb. cbv iota.
  replace (panel_count s >=? MAX_PANELS) with false
    by (symmetry; rewrite Z.geb_leb; apply Z.leb_gt; lia).
  apply (find_panel_none (id p) (panels s) 0) in Hnew as Hnone. rewrite Hnone.
  cbn [config panels].
  assert (panel_count s + 1 <= MAX_PANELS) as Hc' by lia.
  unfold panel_count, MAX_PANELS in *.
  destruct (id p =? default_panel (config s)) eqn:Ed.
  - rewrite (find_panel_appended _ _ _ 0 Hnone eq_refl). simpl.
    rewrite uint8_wrap_small by lia.
    do 2 eexists. split; [reflexivity|].
    unfold registry_ok, panel_count, MAX_PANELS. simpl.
    rewrite length_app. simpl length.
    repeat split; auto; lia.
  - do 2 eexists. split; [reflexivity|].
    unfold registry_ok, panel_count, MAX_PANELS. simpl.
    rewrite length_app. simpl length.
    repeat split; auto; lia.
Qed.

Lemma register_all_distinct ps : forall s,
  registry_ok s ->
  panel_count s + Z.of_nat (length ps) <= MAX_PANELS ->
  List.NoDup (map id (panels s ++ ps)) ->
  exists s' evs,
    register_all ps s = (s', evs)
    /\ panels s' = panels s ++ ps
    /\ config s' = config s
    /\ registry_ok s'.
Proof.
  induction ps as [|p ps IH]; intros s Hok Hlen Hnd; simpl.
  - do 2 eexists. split; [reflexivity|]. rewrite app_nil_r. auto.
  - destruct (register_new_panel p s Hok) as (s1 & ev1 & Hr & Hp & Hcfg & Hok1).
    + simpl length in Hlen. lia.
    + rewrite map_app in Hnd. simpl in Hnd.
      apply NoDup_remove_2 in Hnd. intros Hin. apply Hnd.
      apply in_or_app. now left.
    + rewrite Hr.
      destruct (IH s1 Hok1) as (s2 & ev2 & Hr2 & Hp2 & Hcfg2 & Hok2).
      * unfold panel_count in *. rewrite Hp, length_app. simpl length in *. lia.
      * rewrite Hp, <- app_assoc. exact Hnd.
      * rewrite Hr2. do 2 eexists. split; [reflexivity|].
        rewrite Hp2, Hp, <- app_assoc. repeat split; try apply Hok2. congruence.
Qed.

(** ** Taps *)

Lemma next_panel_step s :
  0 < panel_count s <= MAX_PANELS ->
  0 <= active_panel_idx s < panel_count s ->
  exists s',
    next_panel s = (s', tap_events (panels s) (active_panel_idx s), ESP_OK)
    /\ same_registry s s'
    /\ active_panel_idx s' = (active_panel_idx s + 1) mod panel_count s
    /\ inactivity_counter s' = 0.
Proof.
  intros Hn Ha. unfold next_panel.
  replace (panel_count s =? 0) with false by (symmetry; apply Z.eqb_neq; lia).
  unfold deactivate_panel, activate_panel, set_active_panel_idx.
  cbn [active_panel_idx panels config initialized].
  rewrite Z.rem_mod_nonneg by lia.
  assert (0 <= (active_panel_idx s + 1) mod panel_count s < panel_count s) as Hm
    by (apply Z.mod_pos_bound; lia).
  rewrite uint8_wrap_small by (unfold MAX_PANELS in Hn; lia).
  eexists. split; [reflexivity|]. repeat split.
Qed.

Lemma taps_run k : forall s,
  0 < panel_count s <= MAX_PANELS ->
  0 <= active_panel_idx s < panel_count s ->
  exists s',
    taps k s = (s', taps_events k (panels s) (active_panel_idx s))
    /\ same_registry s s'
    /\ active_panel_idx s' = (active_panel_idx s + Z.of_nat k) mod panel_count s.
Proof.
  induction k as [|k IH]; intros s Hn Ha.
  - exists s. simpl. split; [reflexivity|]. split; [apply same_registry_refl|].
    rewrite Z.add_0_r. symmetry. now apply Z.mod_small.
  - cbn [taps taps_events]. unfold input_touch_handler.
    destruct (next_panel_step s Hn Ha) as (s1 & Hstep & Hsame & Hidx & _).
    rewrite Hstep.
    assert (panel_count s1 = panel_count s) as Hcount
      by now apply panel_count_same.
    destruct (IH s1) as (s2 & Hrun & Hsame2 & Hidx2).
    + now rewrite Hcount.
    + rewrite Hcount, Hidx. apply Z.mod_pos_bound. lia.
    + rewrite Hrun. exists s2.
      destruct Hsame as (? & ? & Hp). rewrite Hp, Hidx.
      split; [reflexivity|]. split.
      * eapply same_registry_trans; [|exact Hsame2]. now repeat split.
      * rewrite Hidx2, Hidx, Hcount.
        rewrite Zplus_mod_idemp_l. f_equal. lia.
Qed.

(** Tap [j + 1] activates the panel [j + 1] places after the starting one,
    counted cyclically in registration order. *)
Lemma taps_events_activation k ps : forall a j,
  (j < k)%nat ->
  0 < Z.of_nat (length ps) ->
  0 <= a < Z.of_nat (length ps) ->
  nth_error (taps_events k ps a) (2 * j + 1) =
    Some (PANEL_ACTIVATED
            (id (nth (Z.to_nat ((a + Z.of_nat j + 1) mod Z.of_nat (length ps)))
                   ps empty_slot))).
Proof.
  induction k as [|k IH]; intros a j Hj Hn Ha; [lia|].
  cbn [taps_events]. destruct j as [|j].
  - simpl. now replace (a + Z.of_nat 0 + 1) with (a + 1) by lia.
  - replace (2 * S j + 1)%nat with (S (S (2 * j + 1))) by lia.
    cbn [tap_events app nth_error].
    rewrite IH; [|lia|lia|apply Z.mod_pos_bound; lia].
    assert (((a + 1) mod Z.of_nat (length ps) + Z.of_nat j + 1)
              mod Z.of_nat (length ps) =
            (a + Z.of_nat (S j) + 1) mod Z.of_nat (length ps)) as ->; [|reflexivity].
    rewrite <- Z.add_assoc, Zplus_mod_idemp_l. f_equal. lia.
Qed.

(** Among [n] consecutive taps on [n] panels, every panel is activated. *)
Lemma taps_events_visit_all ps a p :
  In p ps ->
  0 <= a < Z.of_nat (length ps) ->
  In (PANEL_ACTIVATED (id p)) (taps_events (length ps) ps a).
Proof.
  intros Hin Ha.
  destruct (In_nth ps p empty_slot Hin) as (i & Hi & Hp).
  set (n := Z.of_nat (length ps)) in *.
  set (j := Z.to_nat ((Z.of_nat i - a - 1) mod n)).
  assert (0 <= (Z.of_nat i - a - 1) mod n < n) as Hj
    by (apply Z.mod_pos_bound; lia).
  eapply nth_error_In with (n := (2 * j + 1)%nat).
  rewrite taps_events_activation; try lia.
  fold n. unfold j. rewrite Z2Nat.id by lia.
  replace (a + (Z.of_nat i - a - 1) mod n + 1)
    with ((a + 1) + (Z.of_nat i - a - 1) mod n) by lia.
  rewrite Zplus_mod_idemp_r.
  replace (a + 1 + (Z.of_nat i - a - 1)) with (Z.of_nat i) by lia.
  rewrite Z.mod_small by lia. rewrite Nat2Z.id. now rewrite Hp.
Qed.

End PanelFacts.

Section IdleFacts.

Import Panel.

Lemma uint16_wrap_small z : 0 <= z < 65536 -> uint16_wrap z = z.
Proof. intros H. unfold uint16_wrap. now apply Z.mod_small. Qed.

(** A tick that does not reach the timeout only counts. *)
Lemma tick_below_timeout s :
  initialized s = true ->
  0 <= inactivity_counter s ->
  inactivity_counter s + 1 < inactivity_timeout_s (config s) ->
  inactivity_timeout_s (config s) <= 65536 ->
  exists s',
    inactivity_timer_callback s = (s', [])
    /\ same_registry s s'
    /\ active_panel_idx s' = active_panel_idx s
    /\ inactivity_counter s' = inactivity_counter s + 1.
Proof.
  intros Hi Hc Hlt Hk. unfold inactivity_timer_callback. rewrite Hi. simpl negb.
  cbv iota. cbn [set_inactivity_counter inactivity_counter config].
  rewrite uint16_wrap_small by lia.
  replace (inactivity_counter s + 1 >=? inactivity_timeout_s (config s))
    with false by (symmetry; rewrite Z.geb_leb; apply Z.leb_gt; lia).
  eexists. split; [reflexivity|]. repeat split.
  simpl. apply uint16_wrap_small. lia.
Qed.

Lemma ticks_below_timeout n : forall s,
  initialized s = true ->
  0 <= inactivity_counter s ->
  inactivity_counter s + Z.of_nat n < inactivity_timeout_s (config s) ->
  inactivity_timeout_s (config s) <= 65536 ->
  exists s',
    ticks n s = (s', [])
    /\ same_registry s s'
    /\ active_panel_idx s' = active_panel_idx s
    /\ inactivity_counter s' = inactivity_counter s + Z.of_nat n.
Proof.
  induction n as [|n IH]; intros s Hi Hc Hlt Hk.
  - exists s. simpl. repeat split. lia.
  - cbn [ticks].
    destruct (tick_below_timeout s) as (s1 & Hr & Hsame & Ha & Hcnt); auto; try lia.
    rewrite Hr.
    destruct Hsame as (Hi1 & Hcfg1 & Hp1).
    destruct (IH s1) as (s2 & Hr2 & (Hi2 & Hcfg2 & Hp2) & Ha2 & Hcnt2);
      rewrite ?Hcfg1; try congruence; try lia.
    rewrite Hr2. exists s2. split; [reflexivity|].
    repeat split; try congruence. lia.
Qed.

(** While the default panel is active no tick posts anything or moves the
    active index, whatever the counter holds. *)
Lemma tick_at_default s :
  initialized s = true ->
  id (panel_at s (active_panel_idx s)) = default_panel (config s) ->
  exists s',
    inactivity_timer_callback s = (s', [])
    /\ same_registry s s'
    /\ active_panel_idx s' = active_panel_idx s.
Proof.
  destruct s as [ini cfg ps a c].
  unfold inactivity_timer_callback, panel_count, panel_at, same_registry.
  cbn -[uint16_wrap Z.geb]. intros -> Hd.
  cbn -[uint16_wrap Z.geb].
  destruct (_ >=? _); [|eexists; split; [reflexivity|]; repeat split].
  destruct ps as [|p ps]; [eexists; split; [reflexivity|]; repeat split|].
  cbn -[uint16_wrap nth]. rewrite Hd, Z.eqb_refl.
  eexists; split; [reflexivity|]; repeat split.
Qed.

Lemma ticks_at_default n : forall s,
  initialized s = true ->
  id (panel_at s (active_panel_idx s)) = default_panel (config s) ->
  exists s',
    ticks n s = (s', [])
    /\ same_registry s s'
    /\ active_panel_idx s' = active_panel_idx s.
Proof.
  induction n as [|n IH]; intros s Hi Hd.
  - exists s. simpl. repeat split.
  - cbn [ticks].
    destruct (tick_at_default s Hi Hd) as (s1 & Hr & Hsame & Ha).
    rewrite Hr.
    destruct (IH s1) as (s2 & Hr2 & Hsame2 & Ha2).
    + destruct Hsame as (-> & _ & _). exact Hi.
    + rewrite (panel_at_same _ _ _ Hsame), Ha.
      destruct Hsame as (_ & -> & _). exact Hd.
    + rewrite Hr2. exists s2. split; [reflexivity|]. split.
      * eapply same_registry_trans; eassumption.
      * congruence.
Qed.

(** The tick that reaches the timeout while another panel than the default
    is active and the default panel is registered at index [d]. *)
Lemma tick_returns_to_default s d :
  initialized s = true ->
  panel_count s <= MAX_PANELS ->
  inactivity_timeout_s (config s) <= uint16_wrap (inactivity_counter s + 1) ->
  id (panel_at s (active_panel_idx s)) <> default_panel (config s) ->
  find_panel (default_panel (config s)) (panels s) 0 = Some d ->
  exists s',
    inactivity_timer_callback s =
      (s', [PANEL_DEACTIVATED (id (panel_at s (active_panel_idx s)));
            PANEL_ACTIVATED (default_panel (config s))])
    /\ same_registry s s'
    /\ active_panel_idx s' = d
    /\ inactivity_counter s' = 0.
Proof.
  destruct s as [ini cfg ps a c].
  unfold inactivity_timer_callback, panel_count, panel_at, same_registry, MAX_PANELS.
  cbn -[uint16_wrap Z.geb nth]. intros -> Hmax Hk Hcur Hfind.
  cbn -[uint16_wrap Z.geb nth].
  replace (_ >=? _) with true by (symmetry; rewrite Z.geb_leb; apply Z.leb_le; lia).
  apply find_panel_some in Hfind as Hd.
  destruct ps as [|p ps]; [discriminate|].
  cbn -[uint16_wrap nth find_panel length].
  apply Z.eqb_neq in Hcur. rewrite Hcur, Hfind.
  cbn -[uint16_wrap uint8_wrap nth find_panel length].
  rewrite uint8_wrap_small by lia.
  eexists. split; [reflexivity|]. repeat split.
Qed.

(** Whenever a tick reaches the timeout the counter is cleared. *)
Lemma tick_resets_counter s :
  initialized s = true ->
  inactivity_timeout_s (config s) <= uint16_wrap (inactivity_counter s + 1) ->
  inactivity_counter (fst (inactivity_timer_callback s)) = 0.
Proof.
  destruct s as [ini cfg ps a c].
  unfold inactivity_timer_callback, panel_count, panel_at.
  cbn -[uint16_wrap Z.geb nth]. intros -> Hk.
  cbn -[uint16_wrap Z.geb nth].
  replace (_ >=? _) with true by (symmetry; rewrite Z.geb_leb; apply Z.leb_le; lia).
  destruct ps as [|p ps]; [reflexivity|].
  cbn -[uint16_wrap nth find_panel].
  destruct (negb _); [|reflexivity].
  destruct (find_panel _ _ _); reflexivity.
Qed.

Lemma ticks_app n m s :
  ticks (n + m) s =
    let '(s1, ev1) := ticks n s in
    let '(s2, ev2) := ticks m s1 in
    (s2, ev1 ++ ev2).
Proof.
  revert s. induction n as [|n IH]; intros s; simpl.
  - now destruct (ticks m s).
  - destruct (inactivity_timer_callback s) as [s1 ev1].
    rewrite IH. destruct (ticks n s1) as [s2 ev2].
    destruct (ticks m s2) as [s3 ev3]. now rewrite app_assoc.
Qed.

(** From a cleared counter, [K - 1] silent ticks and then the transition. *)
Lemma ticks_to_timeout s d :
  initialized s = true ->
  panel_count s <= MAX_PANELS ->
  inactivity_counter s = 0 ->
  1 <= inactivity_timeout_s (config s) <= 65535 ->
  id (panel_at s (active_panel_idx s)) <> default_panel (config s) ->
  find_panel (default_panel (config s)) (panels s) 0 = Some d ->
  exists s1 s2,
    ticks (Z.to_nat (inactivity_timeout_s (config s) - 1)) s = (s1, [])
    /\ inactivity_timer_callback s1 =
         (s2, [PANEL_DEACTIVATED (id (panel_at s (active_panel_idx s)));
               PANEL_ACTIVATED (default_panel (config s))])
    /\ same_registry s s2
    /\ active_panel_idx s2 = d
    /\ inactivity_counter s2 = 0
    /\ id (panel_at s2 (active_panel_idx s2)) = default_panel (config s2).
Proof.
  intros Hi Hmax Hc Hk Hcur Hfind.
  destruct (ticks_below_timeout (Z.to_nat (inactivity_timeout_s (config s) - 1)) s)
    as (s1 & Hr1 & Hsame1 & Ha1 & Hc1); auto; try lia.
  pose proof Hsame1 as (Hi1 & Hcfg1 & Hp1).
  destruct (tick_returns_to_default s1 d) as (s2 & Hr2 & Hsame2 & Ha2 & Hc2).
  - congruence.
  - now rewrite (panel_count_same _ _ Hsame1).
  - rewrite Hc1, Hcfg1, Hc, Z2Nat.id by lia.
    rewrite uint16_wrap_small by lia. lia.
  - rewrite (panel_at_same _ _ _ Hsame1), Ha1, Hcfg1. exact Hcur.
  - now rewrite Hcfg1, Hp1.
  - exists s1, s2. split; [exact Hr1|].
    rewrite (panel_at_same _ _ _ Hsame1), Ha1, Hcfg1 in Hr2.
    split; [exact Hr2|].
    assert (same_registry s s2) as Hsame
      by (eapply same_registry_trans; eassumption).
    repeat split; try apply Hsame; auto.
    rewrite (panel_at_same _ _ _ Hsame), Ha2.
    destruct Hsame as (_ & -> & _).
    apply find_panel_some in Hfind as [_ Hid].
    unfold panel_at. now rewrite Z.sub_0_r in Hid.
Qed.

End IdleFacts.

Section PanelClaims.

Import Panel.

Lemma registry_ok_init cfg : registry_ok (panel_manager_init cfg).
Proof. unfold registry_ok, panel_count, MAX_PANELS. simpl. lia. Qed.

(** The registry after the panels [ps], with distinct ids, are registered on
    a freshly initialised manager. *)
Lemma registered_registry cfg ps :
  List.NoDup (map id ps) ->
  1 <= Z.of_nat (length ps) <= MAX_PANELS ->
  let s := fst (register_all ps (panel_manager_init cfg)) in
  panels s = ps /\ 0 <= active_panel_idx s < Z.of_nat (length ps)
  /\ panel_count s = Z.of_nat (length ps).
Proof.
  intros Hnd Hlen s.
  destruct (register_all_distinct ps (panel_manager_init cfg) (registry_ok_init cfg))
    as (s' & evs & Hr & Hp & _ & (_ & _ & Ha)).
  - unfold panel_count. simpl. lia.
  - exact Hnd.
  - subst s. rewrite Hr. simpl in *.
    unfold panel_count in *. rewrite Hp in *. repeat split; lia.
Qed.

(** C8.  With [N] distinct panels registered ([1 <= N <= 8]), every tap moves
    the active index one place forward modulo [N]; tap [j + 1] of [N]
    consecutive taps activates the panel [j + 1] places after the starting
    one in registration order, so that every registered panel is activated;
    and after the [N] taps the active index and the active panel are the
    original ones. *)
Theorem taps_cycle_through_registry (cfg : panel_manager_config_t)
    (ps : list panel_info_t) :
  List.NoDup (map id ps) ->
  1 <= Z.of_nat (length ps) <= MAX_PANELS ->
  let N := Z.of_nat (length ps) in
  let s := fst (register_all ps (panel_manager_init cfg)) in
  let a := active_panel_idx s in
  panels s = ps
  /\ (forall k, active_panel_idx (fst (taps k s)) = (a + Z.of_nat k) mod N)
  /\ (forall j, (j < length ps)%nat ->
        nth_error (snd (taps (length ps) s)) (2 * j + 1) =
          Some (PANEL_ACTIVATED (id (panel_at s ((a + Z.of_nat j + 1) mod N)))))
  /\ (forall p, In p ps -> In (PANEL_ACTIVATED (id p)) (snd (taps (length ps) s)))
  /\ active_panel_idx (fst (taps (length ps) s)) = a
  /\ panel_manager_get_active (fst (taps (length ps) s)) =
       panel_manager_get_active s.
Proof.
  intros Hnd Hlen N s a.
  destruct (registered_registry cfg ps Hnd Hlen) as (Hp & Ha & Hc).
  fold s in Hp, Ha, Hc. fold a in Ha.
  assert (forall k, exists s',
             taps k s = (s', taps_events k ps a)
             /\ same_registry s s'
             /\ active_panel_idx s' = (a + Z.of_nat k) mod N) as Hrun.
  { intros k. destruct (taps_run k s) as (s' & H1 & H2 & H3); try lia.
    exists s'. rewrite H1, Hp, H3, Hc. auto. }
  assert (active_panel_idx (fst (taps (length ps) s)) = a) as Hback.
  { destruct (Hrun (length ps)) as (s' & Hs' & _ & Hi). rewrite Hs'. simpl fst.
    rewrite Hi. fold N.
    replace (a + N) with (a + 1 * N) by lia.
    rewrite Z_mod_plus_full. apply Z.mod_small. exact Ha. }
  split; [exact Hp|]. split; [|split; [|split; [|split]]].
  - intros k. destruct (Hrun k) as (s' & Hs' & _ & Hi). now rewrite Hs'.
  - intros j Hj. destruct (Hrun (length ps)) as (s' & -> & _ & _). simpl snd.
    unfold panel_at. rewrite Hp.
    apply taps_events_activation; lia.
  - intros p Hin. destruct (Hrun (length ps)) as (s' & -> & _ & _). simpl snd.
    now apply taps_events_visit_all.
  - exact Hback.
  - unfold panel_manager_get_active. rewrite Hback. fold a.
    destruct (Hrun (length ps)) as (s' & Hs' & Hsame & _). rewrite Hs'. simpl fst.
    rewrite (panel_count_same _ _ Hsame), (panel_at_same _ _ a Hsame).
    destruct Hsame as (_ & -> & _). reflexivity.
Qed.

Lemma taps_cycle_through_registry_witness :
  let s := fst (register_all four_panels (panel_manager_init (clock_default 30))) in
  panel_manager_get_active (fst (taps 4 s)) = panel_manager_get_active s.
Proof.
  apply (taps_cycle_through_registry (clock_default 30) four_panels).
  - repeat constructor; simpl; intuition discriminate.
  - vm_compute. split; discriminate.
Defined.

(** C7.  With timeout [K], a cleared counter (as every activation leaves
    it), another panel than the default active and the default panel
    registered: the first [K - 1] ticks post nothing; tick [K] posts
    [PANEL_DEACTIVATED] of the current panel and then [PANEL_ACTIVATED] of
    the default panel, makes the default panel the active one and clears the
    counter; however many ticks follow, nothing more is posted and the
    default panel stays active.  And any tick that reaches the timeout
    clears the counter, transition or not. *)
Theorem idle_timeout_returns_once (s : state) (d : Z) (m : nat) :
  initialized s = true ->
  panel_count s <= MAX_PANELS ->
  inactivity_counter s = 0 ->
  1 <= inactivity_timeout_s (config s) <= 65535 ->
  id (panel_at s (active_panel_idx s)) <> default_panel (config s) ->
  find_panel (default_panel (config s)) (panels s) 0 = Some d ->
  let K := Z.to_nat (inactivity_timeout_s (config s)) in
  let transition :=
    [PANEL_DEACTIVATED (id (panel_at s (active_panel_idx s)));
     PANEL_ACTIVATED (default_panel (config s))] in
  snd (ticks (K - 1) s) = []
  /\ snd (ticks K s) = transition
  /\ panel_manager_get_active (fst (ticks K s)) = default_panel (config s)
  /\ inactivity_counter (fst (ticks K s)) = 0
  /\ snd (ticks (K + m) s) = transition
  /\ panel_manager_get_active (fst (ticks (K + m) s)) = default_panel (config s)
  /\ (forall s0,
        initialized s0 = true ->
        inactivity_timeout_s (config s0) <= uint16_wrap (inactivity_counter s0 + 1) ->
        inactivity_counter (fst (inactivity_timer_callback s0)) = 0).
Proof.
  intros Hi Hmax Hc Hk Hcur Hfind K transition.
  destruct (ticks_to_timeout s d Hi Hmax Hc Hk Hcur Hfind)
    as (s1 & s2 & Hr1 & Hr2 & Hsame & Ha2 & Hc2 & Hdef).
  replace (Z.to_nat (inactivity_timeout_s (config s) - 1)) with (K - 1)%nat in Hr1
    by (unfold K; lia).
  assert (ticks K s = (s2, transition)) as HK.
  { replace K with ((K - 1) + 1)%nat by (unfold K; lia).
    rewrite ticks_app, Hr1. cbn [ticks]. rewrite Hr2. reflexivity. }
  assert (panel_manager_get_active s2 = default_panel (config s)) as Hact.
  { unfold panel_manager_get_active.
    apply find_panel_some in Hfind as [Hd _].
    rewrite (panel_count_same _ _ Hsame).
    replace (panel_count s =? 0) with false
      by (symmetry; apply Z.eqb_neq; unfold panel_count; lia).
    rewrite Hdef. now destruct Hsame as (_ & -> & _). }
  destruct (ticks_at_default m s2) as (s3 & Hr3 & Hsame3 & Ha3).
  { destruct Hsame as (-> & _ & _). exact Hi. }
  { exact Hdef. }
  assert (ticks (K + m) s = (s3, transition)) as HKm.
  { rewrite ticks_app, HK, Hr3. reflexivity. }
  rewrite HK, HKm, Hr1. simpl fst. simpl snd.
  repeat split; auto.
  - unfold panel_manager_get_active in *.
    rewrite (panel_count_same _ _ Hsame3), (panel_at_same _ _ _ Hsame3), Ha3.
    destruct Hsame3 as (_ & -> & _). exact Hact.
  - apply tick_resets_counter.
Qed.

Lemma idle_timeout_returns_once_witness :
  let s := fst (taps 1 (fst (register_all four_panels
                               (panel_manager_init (clock_default 30))))) in
  snd (ticks 29 s) = []
  /\ snd (ticks 30 s) = [PANEL_DEACTIVATED PANEL_DATE; PANEL_ACTIVATED PANEL_CLOCK]
  /\ snd (ticks (30 + 100) s) = [PANEL_DEACTIVATED PANEL_DATE; PANEL_ACTIVATED PANEL_CLOCK].
Proof.
  intros s.
  destruct (idle_timeout_returns_once s 0 100)
    as (H1 & H2 & _ & _ & H3 & _); try reflexivity.
  - vm_compute. discriminate.
  - vm_compute. split; discriminate.
  - vm_compute. discriminate.
  - exact (conj H1 (conj H2 H3)).
Defined.

End PanelClaims.

(* ====================================================================== *)
(** * The display buffer, column by column *)
(* ====================================================================== *)

Section ColumnFacts.

Import Font Display Pixels.

Lemma byte_high_bits d q : is_byte d -> 8 <= q -> Z.testbit d q = false.
Proof.
  intros Hd Hq. rewrite <- (Z.mod_small d (2 ^ 8)) by (unfold is_byte in Hd; lia).
  apply Z.mod_pow2_bits_high. lia.
Qed.

Lemma testbit_255 q : Z.testbit 255 q = (0 <=? q) && (q <? 8).
Proof.
  change 255 with (Z.ones 8).
  destruct (Z.ltb_spec q 0).
  - rewrite Z.testbit_neg_r by lia.
    replace (0 <=? q) with false by (symmetry; apply Z.leb_gt; lia). reflexivity.
  - replace (0 <=? q) with true by (symmetry; apply Z.leb_le; lia).
    destruct (Z.ltb_spec q 8).
    + now rewrite Z.ones_spec_low by lia.
    + now rewrite Z.ones_spec_high by lia.
Qed.

Lemma testbit_uint64_max p : 0 <= p < 64 -> Z.testbit UINT64_MAX p = true.
Proof. intros H. change UINT64_MAX with (Z.ones 64). now apply Z.ones_spec_low. Qed.

(** The block [set_column] stores, bit by bit: the eight bits of the column
    are those of the byte, the others are kept. *)
Lemma set_column_block_bit b dat dc p :
  is_byte dat -> 0 <= dc < 8 -> 0 <= p < 64 ->
  Z.testbit
    (Z.lor (Z.land b (uint64_not (Z.shiftl 255 (dc * 8))))
       (Z.shiftl dat (dc * 8))) p =
  if (dc * 8 <=? p) && (p <? dc * 8 + 8) then Z.testbit dat (p - dc * 8)
  else Z.testbit b p.
Proof.
  intros Hd Hdc Hp. unfold uint64_not.
  rewrite Z.lor_spec, Z.land_spec, Z.lxor_spec, testbit_uint64_max by lia.
  rewrite !Z.shiftl_spec by lia. rewrite testbit_255.
  destruct (Z.leb_spec (dc * 8) p); destruct (Z.ltb_spec p (dc * 8 + 8)); simpl.
  - replace (0 <=? p - dc * 8) with true by (symmetry; apply Z.leb_le; lia).
    replace (p - dc * 8 <? 8) with true by (symmetry; apply Z.ltb_lt; lia).
    simpl. now rewrite andb_false_r.
  - replace (p - dc * 8 <? 8) with false by (symmetry; apply Z.ltb_ge; lia).
    rewrite andb_false_r. simpl. rewrite andb_true_r.
    rewrite (byte_high_bits dat) by (auto; lia). now rewrite orb_false_r.
  - replace (0 <=? p - dc * 8) with false by (symmetry; apply Z.leb_gt; lia).
    simpl. rewrite andb_true_r.
    rewrite (Z.testbit_neg_r dat) by lia. now rewrite orb_false_r.
  - lia.
Qed.

(** The bits of a column byte. *)
Lemma get_column_bit buf col q :
  0 <= col -> 0 <= q ->
  Z.testbit (get_column buf col) q =
    (q <? 8) && Z.testbit (buffer_at buf (Z.quot col 8)) (q + Z.rem col 8 * 8).
Proof.
  intros Hc Hq. unfold get_column.
  pose proof (Z.rem_bound_pos col 8 Hc ltac:(lia)).
  rewrite Z.land_spec, Z.shiftr_spec, testbit_255 by lia.
  replace (0 <=? q) with true by (symmetry; apply Z.leb_le; lia).
  simpl. apply andb_comm.
Qed.

Lemma get_column_byte buf col : 0 <= col -> is_byte (get_column buf col).
Proof.
  intros Hc. unfold get_column, is_byte.
  change 255 with (Z.ones 8). rewrite Z.land_ones by lia.
  apply Z.mod_pos_bound. lia.
Qed.

Lemma buffer_at_insert_eq (buf : list Z) j v :
  0 <= j -> (Z.to_nat j < length buf)%nat ->
  buffer_at (<[Z.to_nat j := v]> buf) j = v.
Proof.
  intros Hj H. unfold buffer_at.
  apply nth_lookup_Some. now apply list_lookup_insert_eq.
Qed.

Lemma buffer_at_insert_ne (buf : list Z) i j v :
  0 <= j -> i <> Z.to_nat j -> buffer_at (<[i := v]> buf) j = buffer_at buf j.
Proof.
  intros Hj H. unfold buffer_at. rewrite !nth_lookup.
  now rewrite list_lookup_insert_ne.
Qed.

(** [set_column] on the display writes the byte at its column and leaves the
    other columns alone. *)
Lemma set_column_get_column buf col dat c :
  length buf = 4%nat -> is_byte dat ->
  0 <= col < 32 -> 0 <= c < 32 ->
  get_column (set_column col dat buf) c =
    if c =? col then dat else get_column buf c.
Proof.
  intros Hlen Hd Hcol Hc. unfold set_column.
  replace ((col <? 0) || (col >=? 32)) with false
    by (symmetry; apply orb_false_iff; split;
        [apply Z.ltb_ge | rewrite Z.geb_leb; apply Z.leb_gt]; lia).
  pose proof (Z.rem_bound_pos col 8 ltac:(lia) ltac:(lia)) as Hrc.
  pose proof (Z.rem_bound_pos c 8 ltac:(lia) ltac:(lia)) as Hrc'.
  pose proof (Z.quot_rem' col 8) as Hqr. pose proof (Z.quot_rem' c 8) as Hqr'.
  assert (0 <= Z.quot col 8 < 4) as Hq
    by (split; [apply Z.quot_pos; lia | apply Z.quot_lt_upper_bound; lia]).
  assert (0 <= Z.quot c 8 < 4) as Hq'
    by (split; [apply Z.quot_pos; lia | apply Z.quot_lt_upper_bound; lia]).
  apply Z.bits_inj'. intros q Hqn.
  rewrite get_column_bit by lia.
  destruct (Z.eq_dec (Z.quot c 8) (Z.quot col 8)) as [Heq|Hne].
  - rewrite Heq.
    rewrite buffer_at_insert_eq by lia.
    destruct (Z.ltb_spec q 8); simpl.
    + rewrite set_column_block_bit by (auto; lia).
      destruct (Z.eqb_spec c col) as [->|Hcc].
      * replace ((_ <=? _) && (_ <? _)) with true
          by (symmetry; apply andb_true_iff; split;
              [apply Z.leb_le | apply Z.ltb_lt]; lia).
        f_equal. lia.
      * replace ((_ <=? _) && (_ <? _)) with false
          by (symmetry; apply andb_false_iff;
              rewrite Z.leb_gt, Z.ltb_ge; lia).
        rewrite get_column_bit by lia.
        replace (q <? 8) with true by (symmetry; apply Z.ltb_lt; lia).
        simpl. now rewrite Heq.
    + destruct (c =? col).
      * symmetry. apply byte_high_bits; auto.
      * symmetry. apply byte_high_bits; [apply get_column_byte; lia | lia].
  - rewrite buffer_at_insert_ne by lia.
    destruct (Z.eqb_spec c col) as [->|Hcc]; [congruence|].
    now rewrite get_column_bit by lia.
Qed.

(** Outside the display [set_column] does nothing. *)
Lemma set_column_out_of_range buf col dat :
  col < 0 \/ 32 <= col -> set_column col dat buf = buf.
Proof.
  intros H. unfold set_column.
  replace ((col <? 0) || (col >=? 32)) with true; [reflexivity|].
  symmetry. apply orb_true_iff. rewrite Z.geb_leb, Z.ltb_lt, Z.leb_le. lia.
Qed.

Lemma set_column_length buf col dat :
  length (set_column col dat buf) = length buf.
Proof.
  unfold set_column. destruct (_ || _); [reflexivity|]. apply length_insert.
Qed.

End ColumnFacts.

Section PaintFacts.

Import Font Display Pixels.

Lemma at_index_is_byte dat i : Forall is_byte dat -> is_byte (at_index dat i).
Proof.
  intros H. unfold at_index.
  destruct (nth_in_or_default (Z.to_nat i) dat 0) as [Hin| ->].
  - rewrite List.Forall_forall in H. now apply H.
  - unfold is_byte. lia.
Qed.

Lemma render_columns_length n : forall x col width dat buf,
  length (render_columns n x col width dat buf) = length buf.
Proof.
  induction n as [|n IH]; intros x col width dat buf; simpl; [reflexivity|].
  destruct (col <? width); [|reflexivity].
  destruct (x + col >=? 32); [reflexivity|].
  rewrite IH. destruct (x + col >=? 0); [apply set_column_length|reflexivity].
Qed.

(** The column loop, read column by column: the columns [x + col] up to
    [x + width - 1] that lie on the display hold the bytes of [dat], every
    other column of the display is as before. *)
Lemma render_columns_get_column n : forall x col width dat buf c,
  length buf = 4%nat -> Forall is_byte dat ->
  0 <= col -> width - col <= Z.of_nat n ->
  0 <= c < 32 ->
  get_column (render_columns n x col width dat buf) c =
    if (x + col <=? c) && (c <? x + width) then at_index dat (c - x)
    else get_column buf c.
Proof.
  induction n as [|n IH]; intros x col width dat buf c Hlen Hd Hcol Hn Hc.
  - simpl.
    replace ((x + col <=? c) && (c <? x + width)) with false; [reflexivity|].
    symmetry. apply andb_false_iff. rewrite Z.leb_gt, Z.ltb_ge. lia.
  - cbn [render_columns]. destruct (Z.ltb_spec col width) as [Hlt|Hge].
    + destruct (x + col >=? 32) eqn:Eright.
      * rewrite Z.geb_leb in Eright. apply Z.leb_le in Eright.
        replace ((x + col <=? c) && (c <? x + width)) with false; [reflexivity|].
        symmetry. apply andb_false_iff. rewrite Z.leb_gt, Z.ltb_ge. lia.
      * rewrite Z.geb_leb in Eright. apply Z.leb_gt in Eright.
        rewrite IH; try assumption; try lia.
        2:{ destruct (x + col >=? 0); [now rewrite set_column_length|assumption]. }
        destruct (x + col >=? 0) eqn:Eleft; rewrite Z.geb_leb in Eleft.
        -- apply Z.leb_le in Eleft.
           rewrite set_column_get_column
             by (auto using at_index_is_byte; lia).
           destruct (Z.eqb_spec c (x + col)) as [->|Hne].
           ++ replace (x + (col + 1) <=? x + col) with false
                by (symmetry; apply Z.leb_gt; lia).
              replace (x + col <=? x + col) with true
                by (symmetry; apply Z.leb_le; lia).
              replace (x + col <? x + width) with true
                by (symmetry; apply Z.ltb_lt; lia).
              simpl. f_equal. lia.
           ++ destruct (Z.leb_spec (x + (col + 1)) c);
                destruct (Z.leb_spec (x + col) c); try lia; reflexivity.
        -- apply Z.leb_gt in Eleft.
           destruct (Z.leb_spec (x + (col + 1)) c);
             destruct (Z.leb_spec (x + col) c); try lia; reflexivity.
    + replace ((x + col <=? c) && (c <? x + width)) with false; [reflexivity|].
      symmetry. apply andb_false_iff. rewrite Z.leb_gt, Z.ltb_ge. lia.
Qed.

(** [render_bitmap_at]: clipped at both edges of the display. *)
Lemma render_bitmap_at_get_column x dat width height buf c :
  length buf = 4%nat -> Forall is_byte dat ->
  0 < width -> 0 < height -> 0 <= c < 32 ->
  get_column (render_bitmap_at x (Some dat) width height buf) c =
    if (x <=? c) && (c <? x + width) then at_index dat (c - x)
    else get_column buf c.
Proof.
  intros Hlen Hd Hw Hh Hc. unfold render_bitmap_at.
  replace ((width <=? 0) || (height <=? 0)) with false
    by (symmetry; apply orb_false_iff; rewrite !Z.leb_gt; lia).
  rewrite render_columns_get_column by (auto; lia).
  now rewrite Z.add_0_r.
Qed.

Lemma measured_width_nonneg font chars :
  uint8_widths font -> 0 <= measured_width font chars.
Proof.
  intros Hwf. induction chars as [|ch [|ch2 rest] IH]; simpl in *.
  - lia.
  - apply Hwf.
  - pose proof (proj1 (Hwf ch)). lia.
Qed.

Lemma get_text_width_loop_nonneg font text :
  uint8_widths font -> 0 <= get_text_width_loop font text 0.
Proof.
  intros Hwf. rewrite get_text_width_loop_measured by assumption.
  pose proof (measured_width_nonneg font (c_string text) Hwf). lia.
Qed.

(** One step of the measuring loop, for a character other than NUL. *)
Lemma get_text_width_loop_step font c rest :
  uint8_widths font ->
  (char_code c =? 0) = false ->
  get_text_width_loop font (String c rest) 0 =
    desc_width (lookup_char font (char_code c) (next_char rest))
    + get_text_width_loop font rest 0.
Proof.
  intros Hwf Hc. cbn [get_text_width_loop]. rewrite Hc. cbv zeta.
  rewrite guarded_add_width.
  - rewrite !get_text_width_loop_measured by assumption. lia.
  - unfold lookup_char. destruct (next_char rest =? 0); apply Hwf.
Qed.

Lemma render_text_loop_length font text : forall x buf,
  length (render_text_loop font text x buf) = length buf.
Proof.
  induction text as [|c rest IH]; intros x buf; simpl; [reflexivity|].
  destruct (char_code c =? 0); [reflexivity|].
  destruct (lookup_char _ _ _) as [[w [dat|]]|]; try apply IH.
  destruct (w >? 0); rewrite IH; [apply render_columns_length|reflexivity].
Qed.

(** A text is painted inside the box its measurement gives it: columns left
    of [x] or from [x + get_text_width] on are not touched. *)
Lemma render_text_loop_frame font text : forall x buf c,
  uint8_widths font -> byte_glyphs font ->
  length buf = 4%nat -> 0 <= c < 32 ->
  c < x \/ x + get_text_width_loop font text 0 <= c ->
  get_column (render_text_loop font text x buf) c = get_column buf c.
Proof.
  induction text as [|ch rest IH]; intros x buf c Hwf Hb Hlen Hc Hout;
    [reflexivity|].
  cbn [render_text_loop]. destruct (char_code ch =? 0) eqn:Ech; [reflexivity|].
  rewrite get_text_width_loop_step in Hout by assumption.
  pose proof (get_text_width_loop_nonneg font rest Hwf) as Hrest.
  assert (0 <= desc_width (lookup_char font (char_code ch) (next_char rest))) as Hdw
    by (unfold lookup_char; destruct (next_char rest =? 0); apply Hwf).
  assert (forall d dat,
             lookup_char font (char_code ch) (next_char rest) = Some d ->
             data d = Some dat -> Forall is_byte dat) as Hbytes.
  { intros d dat Hl. unfold lookup_char in Hl.
    destruct (next_char rest =? 0); eapply Hb; eauto. }
  destruct (lookup_char font (char_code ch) (next_char rest))
    as [[w [dat|]]|] eqn:El; simpl in Hout, Hdw.
  - destruct (w >? 0) eqn:Ew.
    + rewrite Z.gtb_ltb in Ew. apply Z.ltb_lt in Ew.
      rewrite IH; try assumption; try lia.
      * rewrite render_columns_get_column; try assumption; try lia.
        -- replace ((x + 0 <=? c) && (c <? x + w)) with false; [reflexivity|].
           symmetry. apply andb_false_iff. rewrite Z.leb_gt, Z.ltb_ge. lia.
        -- eapply Hbytes; reflexivity.
      * now rewrite render_columns_length.
    + apply IH; try assumption; lia.
  - apply IH; try assumption; lia.
  - apply IH; try assumption; lia.
Qed.

End PaintFacts.

Section SceneFacts.

Import Font Display Pixels.

Lemma byte_table table :
  forallb (fun w => (0 <=? w) && (w <? 256)) table = true ->
  Forall is_byte table.
Proof.
  intros H. apply List.Forall_forall. intros w Hin.
  rewrite forallb_forall in H. specialize (H _ Hin).
  apply andb_true_iff in H as [H1 H2].
  apply Z.leb_le in H1. apply Z.ltb_lt in H2. split; assumption.
Qed.

Lemma slice_bytes table offset n :
  Forall is_byte table -> Forall is_byte (slice table offset n).
Proof. intros H. unfold slice. now apply Forall_take, Forall_drop. Qed.

Lemma bytes_with_spacing dat b :
  Forall is_byte dat -> is_byte b -> Forall is_byte (dat ++ [b]).
Proof. intros Hd Hb. apply Forall_app. split; [assumption|]. now constructor. Qed.

Lemma default_font_get_char_bytes ch d dat :
  default_font_get_char ch = Some d -> data d = Some dat -> Forall is_byte dat.
Proof.
  unfold default_font_get_char.
  destruct (at_index DEFAULT_FONT_CHAR_WIDTH ch =? 0); intros Hd Hdat;
    inversion Hd; subst d; simpl in Hdat; [discriminate|].
  inversion Hdat; subst dat.
  apply bytes_with_spacing; [|unfold is_byte; lia].
  apply slice_bytes, byte_table. reflexivity.
Qed.

Lemma font_default_bytes : byte_glyphs font_default.
Proof.
  intros ch d dat [H|H] Hdat; simpl in H;
    eapply default_font_get_char_bytes; eauto.
Qed.

Lemma font_dotmatrix_small_bytes : byte_glyphs font_dotmatrix_small.
Proof.
  intros ch d dat [H|H]; simpl in H;
    unfold dotmatrix_small_font_get_char, dotmatrix_small_font_get_char_last in H;
    destruct (at_index DOTMATRIX_SMALL_CHAR_WIDTH ch =? 0);
    intros Hdat;
    try (now apply (default_font_get_char_bytes ch d dat));
    inversion H; subst d; simpl in Hdat; inversion Hdat; subst dat.
  - apply bytes_with_spacing; [|unfold is_byte; lia].
    apply slice_bytes, byte_table. reflexivity.
  - apply slice_bytes, byte_table. reflexivity.
Qed.

Lemma font_dotmatrix_bytes : byte_glyphs font_dotmatrix.
Proof.
  intros ch d dat [H|H]; simpl in H;
    unfold dotmatrix_font_get_char, dotmatrix_font_get_char_last in H;
    destruct (at_index DOTMATRIX_CHAR_WIDTH ch =? 0);
    intros Hdat;
    try (now apply (default_font_get_char_bytes ch d dat));
    inversion H; subst d; simpl in Hdat; inversion Hdat; subst dat.
  - apply bytes_with_spacing; [|unfold is_byte; lia].
    apply slice_bytes, byte_table. reflexivity.
  - apply slice_bytes, byte_table. reflexivity.
Qed.

(** The width loop of [render_scene] with a start value. *)
Lemma scene_total_width_shift elems : forall acc,
  scene_total_width elems acc = acc + scene_total_width elems 0.
Proof.
  induction elems as [|e rest IH]; intros acc; simpl; [lia|].
  destruct rest as [|e2 rest]; [simpl; lia|].
  rewrite IH. rewrite (IH (0 + element_width e + 2)). lia.
Qed.

Lemma scene_total_width_cons e rest :
  scene_total_width (e :: rest) 0 =
    element_width e
    + match rest with [] => 0 | _ => 2 + scene_total_width rest 0 end.
Proof.
  cbn [scene_total_width]. destruct rest as [|e2 rest]; [simpl; lia|].
  rewrite scene_total_width_shift. lia.
Qed.

Lemma element_width_nonneg e : element_ok e -> 0 <= element_width e.
Proof.
  destruct e as [str font|fc fd frames w h]; simpl.
  - intros [Hwf _]. now apply get_text_width_loop_nonneg.
  - intros [Hw _]. lia.
Qed.

Lemma scene_total_width_nonneg elems :
  Forall element_ok elems -> 0 <= scene_total_width elems 0.
Proof.
  induction elems as [|e rest IH]; intros Hok; [simpl; lia|].
  rewrite scene_total_width_cons.
  inversion Hok as [|? ? He Hrest]; subst.
  pose proof (element_width_nonneg e He). specialize (IH Hrest).
  destruct rest; lia.
Qed.

Lemma render_bitmap_at_length x bitmap w h buf :
  length (render_bitmap_at x bitmap w h buf) = length buf.
Proof.
  unfold render_bitmap_at. destruct bitmap; [|reflexivity].
  destruct (_ || _); [reflexivity|]. apply render_columns_length.
Qed.

(** What one element paints stays inside its own width. *)
Lemma render_element_frame e x buf c :
  element_ok e -> length buf = 4%nat -> 0 <= c < 32 ->
  c < x \/ x + element_width e <= c ->
  get_column
    (match e with
     | SCENE_ELEMENT_TEXT str font => render_text_at x str font buf
     | SCENE_ELEMENT_ANIMATION frame_count _ frames w h =>
         match frames with
         | Some fs =>
             if frame_count >? 0 then
               render_bitmap_at x (Some (nth 0 fs [])) w h buf
             else buf
         | None => buf
         end
     end) c = get_column buf c.
Proof.
  destruct e as [str font|fc fd frames w h]; simpl; intros Hok Hlen Hc Hout.
  - destruct Hok as [Hwf Hb]. now apply render_text_loop_frame.
  - destruct Hok as [Hw Hfs]. destruct frames as [fs|]; [|reflexivity].
    destruct (fc >? 0); [|reflexivity].
    unfold render_bitmap_at. destruct (_ || _); [reflexivity|].
    rewrite render_columns_get_column by (auto; lia).
    replace ((x + 0 <=? c) && (c <? x + w)) with false; [reflexivity|].
    symmetry. apply andb_false_iff. rewrite Z.leb_gt, Z.ltb_ge. lia.
Qed.

Lemma render_elements_frame elems : forall x buf c,
  Forall element_ok elems -> length buf = 4%nat -> 0 <= c < 32 ->
  c < x \/ x + scene_total_width elems 0 <= c ->
  get_column (render_elements elems x buf) c = get_column buf c.
Proof.
  induction elems as [|e rest IH]; intros x buf c Hok Hlen Hc Hout;
    [reflexivity|].
  inversion Hok as [|? ? He Hrest]; subst.
  rewrite scene_total_width_cons in Hout.
  pose proof (element_width_nonneg e He) as Hw.
  pose proof (scene_total_width_nonneg rest Hrest) as Hr.
  pose proof (render_element_frame e x buf c He Hlen Hc) as Hframe.
  cbn [render_elements].
  destruct e as [str font|fc fd frames w h]; cbn [element_width] in *.
  - rewrite IH; try assumption.
    + apply Hframe. destruct rest; cbv beta iota in Hout |- *;
        cbn [scene_total_width] in *; lia.
    + unfold render_text_at. now rewrite render_text_loop_length.
    + destruct rest; cbv beta iota in Hout |- *;
        cbn [scene_total_width] in *; lia.
  - rewrite IH; try assumption.
    + apply Hframe. destruct rest; cbv beta iota in Hout |- *;
        cbn [scene_total_width] in *; lia.
    + destruct frames; [|assumption]. destruct (fc >? 0); [|assumption].
      now rewrite render_bitmap_at_length.
    + destruct rest; cbv beta iota in Hout |- *;
        cbn [scene_total_width] in *; lia.
Qed.

Lemma get_column_clear c : get_column clear_display_buffer c = 0.
Proof.
  unfold get_column, buffer_at, clear_display_buffer.
  destruct (Z.to_nat (Z.quot c 8)) as [|[|[|[|[|n]]]]]; simpl;
    now rewrite Z.shiftr_0_l.
Qed.

End SceneFacts.

Section RotationRoundTrip.

Import Font Display Pixels.

(** The rotation read from the output side: output bit [(r, c)] is input
    bit [(c, 7 - r)]. *)
Lemma transpose_8x8_output_bit x r c :
  0 <= r < 8 -> 0 <= c < 8 ->
  Z.testbit (transpose_8x8 x) (r * 8 + c) = Z.testbit x (c * 8 + (7 - r)).
Proof.
  intros Hr Hc.
  rewrite <- (transpose_8x8_bit x c (7 - r)) by lia.
  f_equal. lia.
Qed.

Lemma transpose_8x8_range x : 0 <= transpose_8x8 x < 2 ^ 64.
Proof.
  assert (0 <= transpose_8x8 x) as Hpos.
  { apply Z.bits_iff_nonneg_ex. exists 64. intros m Hm.
    apply transpose_8x8_high_bits. lia. }
  split; [exact Hpos|].
  destruct (Z.eq_dec (transpose_8x8 x) 0) as [->|Hne]; [lia|].
  apply Z.log2_lt_pow2; [lia|].
  destruct (Z.lt_ge_cases (Z.log2 (transpose_8x8 x)) 64) as [|Hge]; [assumption|].
  pose proof (Z.bit_log2 (transpose_8x8 x) ltac:(lia)) as Hbit.
  rewrite transpose_8x8_high_bits in Hbit by lia. discriminate.
Qed.

Lemma uint64_high_bits x p : 0 <= x < 2 ^ 64 -> 64 <= p -> Z.testbit x p = false.
Proof.
  intros Hx Hp. rewrite <- (Z.mod_small x (2 ^ 64)) by lia.
  apply Z.mod_pow2_bits_high. lia.
Qed.

Lemma transpose_iter_4_bit x r c :
  0 <= r < 8 -> 0 <= c < 8 ->
  Z.testbit (transpose_iter 4 x) (r * 8 + c) = Z.testbit x (r * 8 + c).
Proof.
  intros Hr Hc. cbn [transpose_iter].
  rewrite transpose_8x8_output_bit by lia.
  rewrite transpose_8x8_output_bit by lia.
  rewrite transpose_8x8_output_bit by lia.
  rewrite transpose_8x8_output_bit by lia.
  f_equal. lia.
Qed.

Lemma transpose_iter_4 x : 0 <= x < 2 ^ 64 -> transpose_iter 4 x = x.
Proof.
  intros Hx. apply Z.bits_inj'. intros p Hp.
  destruct (Z.lt_ge_cases p 64) as [Hlt|Hge].
  - replace p with (Z.quot p 8 * 8 + Z.rem p 8)
      by (pose proof (Z.quot_rem' p 8); lia).
    apply transpose_iter_4_bit.
    + split; [apply Z.quot_pos; lia | apply Z.quot_lt_upper_bound; lia].
    + apply Z.rem_bound_pos; lia.
  - cbn [transpose_iter].
    rewrite transpose_8x8_high_bits by lia.
    now rewrite uint64_high_bits.
Qed.

(** A single bit of a byte, tested with a mask as [print_display] does. *)
Lemma mask_test_bit x k :
  0 <= k -> (Z.land x (Z.shiftl 1 k) =? 0) = negb (Z.testbit x k).
Proof.
  intros Hk. destruct (Z.testbit x k) eqn:Hb; simpl.
  - apply Z.eqb_neq. intros H0.
    assert (Z.testbit (Z.land x (Z.shiftl 1 k)) k = true) as Hbit.
    { rewrite Z.land_spec, Hb, Z.shiftl_spec by lia.
      now replace (k - k) with 0 by lia. }
    rewrite H0, Z.bits_0 in Hbit. discriminate.
  - apply Z.eqb_eq. apply Z.bits_inj'. intros q Hq.
    rewrite Z.land_spec, Z.bits_0, Z.shiftl_spec, testbit_one by lia.
    destruct (Z.eqb_spec (q - k) 0) as [E|E].
    + replace q with k by lia. now rewrite Hb.
    + apply andb_false_r.
Qed.

(** The pixel the mock prints for a block: bit [device_col] of row byte
    [row]. *)
Lemma mock_pixel_bit mock row col :
  0 <= row < 8 -> 0 <= col ->
  mock_pixel_on mock row col =
    Z.testbit (buffer_at mock (Z.quot col 8)) (row * 8 + Z.rem col 8).
Proof.
  intros Hr Hc. unfold mock_pixel_on.
  pose proof (Z.rem_bound_pos col 8 Hc ltac:(lia)) as Hrem.
  rewrite mask_test_bit by lia. rewrite negb_involutive.
  rewrite Z.land_spec, Z.shiftr_spec, testbit_255 by lia.
  replace (0 <=? Z.rem col 8) with true by (symmetry; apply Z.leb_le; lia).
  replace (Z.rem col 8 <? 8) with true by (symmetry; apply Z.ltb_lt; lia).
  rewrite andb_true_r. f_equal. lia.
Qed.

Lemma buffer_at_map_transpose (buf : list Z) k :
  length buf = 4%nat -> 0 <= k < 4 ->
  buffer_at (map (fun j => transpose_8x8 (buffer_at buf j)) [0; 1; 2; 3]) k =
    transpose_8x8 (buffer_at buf k).
Proof.
  intros Hlen Hk.
  assert (k = 0 \/ k = 1 \/ k = 2 \/ k = 3) as Hc by lia.
  destruct Hc as [-> | [-> | [-> | ->]]]; reflexivity.
Qed.

End RotationRoundTrip.

Section DisplayExtras.

Import Font Display Pixels.

(** X1.  [set_column] on a column of the display stores the byte in that
    column and leaves the other 31 columns as they were; for a column
    outside [0, 32) it leaves the buffer untouched. *)
Theorem set_column_writes_one_column (buf : display_buffer) (col dat : Z) :
  length buf = 4%nat -> is_byte dat ->
  (0 <= col < 32 ->
     forall c, 0 <= c < 32 ->
       get_column (set_column col dat buf) c =
         if c =? col then dat else get_column buf c)
  /\ (col < 0 \/ 32 <= col -> set_column col dat buf = buf)
  /\ length (set_column col dat buf) = 4%nat.
Proof.
  intros Hlen Hd. split; [|split].
  - intros Hcol c Hc. now apply set_column_get_column.
  - apply set_column_out_of_range.
  - now rewrite set_column_length.
Qed.

Lemma set_column_writes_one_column_witness :
  get_column (set_column 13 129 [0; 0; 0; 0]) 13 = 129
  /\ get_column (set_column 13 129 [0; 0; 0; 0]) 12 = 0
  /\ set_column 32 129 [0; 0; 0; 0] = [0; 0; 0; 0].
Proof.
  destruct (set_column_writes_one_column [0; 0; 0; 0] 13 129 eq_refl)
    as (Hin & _ & _); [unfold is_byte; lia|].
  destruct (set_column_writes_one_column [0; 0; 0; 0] 32 129 eq_refl)
    as (_ & Hout & _); [unfold is_byte; lia|].
  split; [|split].
  - apply (Hin ltac:(lia) 13). lia.
  - apply (Hin ltac:(lia) 12). lia.
  - apply Hout. lia.
Defined.

(** X2.  [render_bitmap_at] paints column [x + i] of the display with byte
    [i] of the bitmap for the part of the bitmap that falls on the display,
    clips the rest on either side, and changes no other column; a NULL
    bitmap or a width or height that is not positive paints nothing. *)
Theorem render_bitmap_at_clips (x width height : Z) (dat : list Z)
    (buf : display_buffer) :
  length buf = 4%nat -> Forall is_byte dat ->
  (0 < width -> 0 < height ->
     forall c, 0 <= c < 32 ->
       get_column (render_bitmap_at x (Some dat) width height buf) c =
         if (x <=? c) && (c <? x + width) then at_index dat (c - x)
         else get_column buf c)
  /\ (width <= 0 \/ height <= 0 ->
        render_bitmap_at x (Some dat) width height buf = buf)
  /\ render_bitmap_at x None width height buf = buf.
Proof.
  intros Hlen Hd. split; [|split].
  - intros Hw Hh c Hc. now apply render_bitmap_at_get_column.
  - intros H. unfold render_bitmap_at.
    replace ((width <=? 0) || (height <=? 0)) with true; [reflexivity|].
    symmetry. apply orb_true_iff. rewrite !Z.leb_le. lia.
  - reflexivity.
Qed.

Lemma render_bitmap_at_clips_witness :
  let painted :=
    render_bitmap_at (-2) (Some [1; 2; 3; 4]) 4 8 [0; 0; 0; 0] in
  get_column painted 0 = 3 /\ get_column painted 1 = 4
  /\ get_column painted 2 = 0.
Proof.
  intros painted.
  destruct (render_bitmap_at_clips (-2) 4 8 [1; 2; 3; 4] [0; 0; 0; 0] eq_refl)
    as (H & _ & _).
  - repeat constructor; unfold is_byte; lia.
  - split; [|split].
    + apply (H ltac:(lia) ltac:(lia) 0). lia.
    + apply (H ltac:(lia) ltac:(lia) 1). lia.
    + apply (H ltac:(lia) ltac:(lia) 2). lia.
Defined.

(** X3.  [render_text_at] paints only inside the box its measurement gives
    the text: no column left of [x_offset] and no column from
    [x_offset + get_text_width] on is changed, for any font with [uint8_t]
    widths and glyph bytes. *)
Theorem text_painted_inside_measured_box (x_offset : Z) (text : string)
    (font : option font_t) (buf : display_buffer) (c : Z) :
  uint8_widths (font_or_default font) ->
  byte_glyphs (font_or_default font) ->
  length buf = 4%nat ->
  0 <= c < 32 ->
  c < x_offset \/ x_offset + get_text_width text font <= c ->
  get_column (render_text_at x_offset text font buf) c = get_column buf c.
Proof.
  intros Hwf Hb Hlen Hc Hout. unfold render_text_at.
  now apply render_text_loop_frame.
Qed.

Lemma text_painted_inside_measured_box_witness :
  get_column (render_text_at 5 "AB" (Some font_dotmatrix_small) [0; 0; 0; 0]) 12
    = 0.
Proof.
  change 0 with (get_column [0; 0; 0; 0] 12) at 2.
  apply text_painted_inside_measured_box.
  - exact font_dotmatrix_small_uint8.
  - exact font_dotmatrix_small_bytes.
  - reflexivity.
  - lia.
  - right. vm_compute. discriminate.
Defined.

(** X4.  The total width [render_scene] computes is the sum of the widths of
    the elements plus two columns between each two neighbours. *)
Theorem scene_total_width_closed_form (elems : list scene_element_t) :
  scene_total_width elems 0 =
    elements_width elems + 2 * Z.max 0 (Z.of_nat (length elems) - 1).
Proof.
  induction elems as [|e rest IH]; [reflexivity|].
  rewrite scene_total_width_cons. cbn [elements_width fold_right length].
  fold (elements_width rest).
  destruct rest as [|e2 rest]; [simpl; lia|].
  rewrite IH. cbn [length]. lia.
Qed.

(** X5.  [render_scene] leaves blank every column outside the centred box
    [x_offset, x_offset + total_width), where
    [x_offset = (32 - total_width) / 2]; and when the scene is at most 32
    columns wide that box lies on the display, with margins that differ by
    at most one column. *)
Theorem scene_painted_inside_centred_box (scene : display_scene_t) (c : Z) :
  Forall element_ok (elements scene) ->
  let total_width := scene_total_width (elements scene) 0 in
  let x_offset := Z.quot (32 - total_width) 2 in
  (0 <= c < 32 ->
   c < x_offset \/ x_offset + total_width <= c ->
   get_column (render_scene scene) c = 0)
  /\ (total_width <= 32 ->
      0 <= x_offset /\ x_offset + total_width <= 32
      /\ 0 <= (32 - (x_offset + total_width)) - x_offset <= 1).
Proof.
  intros Hok total_width x_offset. split.
  - intros Hc Hout. unfold render_scene. fold total_width. fold x_offset.
    rewrite render_elements_frame; auto using get_column_clear.
  - intros Hfit.
    pose proof (scene_total_width_nonneg _ Hok) as Hnn. fold total_width in Hnn.
    pose proof (Z.quot_rem' (32 - total_width) 2) as Hqr.
    pose proof (Z.rem_bound_pos (32 - total_width) 2 ltac:(lia) ltac:(lia)).
    unfold x_offset. lia.
Qed.

Lemma scene_painted_inside_centred_box_witness :
  get_column (render_scene sample_scene) 31 = 0
  /\ 0 <= Z.quot (32 - scene_total_width (elements sample_scene) 0) 2.
Proof.
  assert (Forall element_ok (elements sample_scene)) as Hok.
  { constructor; [|constructor; [|constructor]].
    - exact (conj font_dotmatrix_small_uint8 font_dotmatrix_small_bytes).
    - exact (conj font_default_uint8 font_default_bytes). }
  destruct (scene_painted_inside_centred_box sample_scene 31 Hok) as (Hout & Hfit).
  split.
  - apply Hout; [lia|]. right. vm_compute. discriminate.
  - apply Hfit. vm_compute. discriminate.
Defined.

(** X6.  [transpose_8x8] is a quarter turn: applied four times to a 64-bit
    block it gives the block back, so no two blocks have the same image, and
    its result always fits in 64 bits. *)
Theorem transpose_8x8_four_times (x y : Z) :
  0 <= x < 2 ^ 64 -> 0 <= y < 2 ^ 64 ->
  transpose_iter 4 x = x
  /\ (transpose_8x8 x = transpose_8x8 y -> x = y)
  /\ 0 <= transpose_8x8 x < 2 ^ 64.
Proof.
  intros Hx Hy. split; [|split].
  - now apply transpose_iter_4.
  - intros Heq.
    rewrite <- (transpose_iter_4 x Hx), <- (transpose_iter_4 y Hy).
    cbn [transpose_iter]. now rewrite Heq.
  - apply transpose_8x8_range.
Qed.

Lemma transpose_8x8_four_times_witness :
  transpose_iter 4 0x0102040810204080 = 0x0102040810204080.
Proof.
  apply (transpose_8x8_four_times 0x0102040810204080 0);
    (split; [vm_compute; discriminate | reflexivity]).
Defined.

Lemma nth_seqZ_map {A} (f : Z -> A) (d : A) (n i : Z) :
  0 <= i < n -> nth (Z.to_nat i) (map f (seqZ 0 n)) d = f i.
Proof.
  intros Hi. apply nth_lookup_Some.
  rewrite list_lookup_fmap, lookup_seqZ_lt by lia.
  simpl. rewrite Z2Nat.id by lia. reflexivity.
Qed.

(** Printed line [k] is row [7 - k]. *)
Lemma printed_row {A} (g : Z -> list A) (k : Z) :
  0 <= k < 8 ->
  nth (Z.to_nat k) (map g [7; 6; 5; 4; 3; 2; 1; 0]) [] = g (7 - k).
Proof.
  intros Hk.
  assert (k = 0 \/ k = 1 \/ k = 2 \/ k = 3 \/ k = 4 \/ k = 5 \/ k = 6 \/ k = 7)
    as Hcases by lia.
  repeat (destruct Hcases as [-> | Hcases]); try subst k; reflexivity.
Qed.

(** X7.  Streamed to the console mock, a buffer is shown upright and in
    column order: in printed line [k] (0 is the top line) and column [col],
    the mock tests exactly bit [k] of column byte [col] of the buffer, for
    all 8 lines and 32 columns. *)
Theorem mock_prints_buffer_upright (buf mock : list Z) (k col : Z) :
  length buf = 4%nat -> length mock = 4%nat ->
  0 <= k < 8 -> 0 <= col < 32 ->
  nth (Z.to_nat col)
    (nth (Z.to_nat k) (print_display (mock_after (stream_buffer buf) mock)) [])
    false =
  Z.testbit (get_column buf col) k.
Proof.
  intros Hlen Hmock Hk Hcol. unfold print_display, mock_after.
  rewrite (mock_receives_blocks_in_order buf mock Hmock).
  assert (0 <= Z.quot col 8 < 4) as Hq
    by (split; [apply Z.quot_pos; lia | apply Z.quot_lt_upper_bound; lia]).
  pose proof (Z.rem_bound_pos col 8 ltac:(lia) ltac:(lia)) as Hrem.
  assert (forall row, 0 <= row < 8 ->
            mock_pixel_on
              (map (fun j => transpose_8x8 (buffer_at buf j)) [0; 1; 2; 3])
              row col = Z.testbit (get_column buf col) (7 - row)) as Hpix.
  { intros row Hrow. rewrite mock_pixel_bit by lia.
    rewrite buffer_at_map_transpose by (auto; lia).
    rewrite transpose_8x8_output_bit by lia.
    rewrite get_column_bit by lia.
    replace (7 - row <? 8) with true by (symmetry; apply Z.ltb_lt; lia).
    simpl. f_equal. lia. }
  rewrite (printed_row _ k) by lia.
  rewrite nth_seqZ_map by lia. rewrite Hpix by lia. f_equal. lia.
Qed.

Lemma mock_prints_buffer_upright_witness :
  nth 13 (nth 0 (print_display
                   (mock_after (stream_buffer (set_column 13 129 [0; 0; 0; 0]))
                      [0; 0; 0; 0])) []) false = true.
Proof.
  change true with (Z.testbit (get_column (set_column 13 129 [0; 0; 0; 0]) 13) 0).
  apply (mock_prints_buffer_upright (set_column 13 129 [0; 0; 0; 0])
           [0; 0; 0; 0] 0 13); try reflexivity; lia.
Defined.

(** X8.  [max7219_driver_render] issues draw calls exactly when the driver
    is initialised and the scene has elements or a fallback text; otherwise
    it also leaves the buffer as it was.  A scene with elements is rendered
    from them, whatever its fallback text. *)
Theorem driver_render_draws_iff (s_initialized : bool)
    (scene : option display_scene_t) (buf : display_buffer) :
  (snd (max7219_driver_render s_initialized scene buf) <> [] <->
     s_initialized = true /\
     exists sc, scene = Some sc
                /\ (elements sc <> [] \/ fallback_text sc <> None))
  /\ (snd (max7219_driver_render s_initialized scene buf) = [] ->
      fst (max7219_driver_render s_initialized scene buf) = buf)
  /\ (forall sc fb,
        scene = Some sc -> elements sc <> [] ->
        max7219_driver_render s_initialized
          (Some {| elements := elements sc; fallback_text := fb |}) buf =
        max7219_driver_render s_initialized scene buf).
Proof.
  unfold max7219_driver_render.
  destruct scene as [[elems fb0]|]; simpl.
  - destruct s_initialized; simpl.
    + destruct elems as [|e es]; [destruct fb0 as [t|]|]; simpl.
      * split; [|split]; [| discriminate |].
        -- split; [intros _|discriminate]. split; [reflexivity|].
           eexists; split; [reflexivity|]. right. discriminate.
        -- intros sc fb Hsc Hne. inversion Hsc; subst. simpl in Hne. congruence.
      * split; [|split]; [| reflexivity |].
        -- split; [congruence|]. intros (_ & sc & Hsc & [H|H]);
             inversion Hsc; subst; simpl in H; congruence.
        -- intros sc fb Hsc Hne. inversion Hsc; subst. simpl in Hne. congruence.
      * split; [|split]; [| discriminate |].
        -- split; [intros _|discriminate]. split; [reflexivity|].
           eexists; split; [reflexivity|]. left. discriminate.
        -- intros sc fb Hsc Hne. inversion Hsc; subst. reflexivity.
    + split; [|split]; [| reflexivity |].
      * split; [congruence|]. intros (H & _). discriminate.
      * reflexivity.
  - split; [|split]; [| reflexivity |].
    + split; [congruence|]. intros (_ & sc & H & _). discriminate.
    + intros sc fb H. discriminate.
Qed.

End DisplayExtras.

(* ====================================================================== *)
(** * The font tables *)
(* ====================================================================== *)

Section FontExtras.

Import Font Display FontChecks.

(** A table read depends on the index as a natural number only, and gives 0
    beyond the table. *)
Lemma at_index_nat table ch : at_index table ch = at_index table (Z.of_nat (Z.to_nat ch)).
Proof. unfold at_index. now rewrite Nat2Z.id. Qed.

Lemma at_index_beyond table ch :
  (length table <= Z.to_nat ch)%nat -> at_index table ch = 0.
Proof. intros H. unfold at_index. now apply nth_overflow. Qed.

(** A property checked on the 256 character codes holds of every code. *)
Lemma all_codes_checked (f : Z -> bool) n :
  forallb f all_codes = true -> (n < 256)%nat -> f (Z.of_nat n) = true.
Proof.
  intros H Hn. rewrite forallb_forall in H. apply H.
  apply list_elem_of_In, elem_of_seqZ. lia.
Qed.

(** What a lookup of the three fonts returns depends on the code as an index
    only. *)
Lemma source_lookup_nat (g : Z -> option font_char_t) ch :
  In g [default_font_get_char;
        dotmatrix_font_get_char; dotmatrix_font_get_char_last;
        dotmatrix_small_font_get_char; dotmatrix_small_font_get_char_last] ->
  g ch = g (Z.of_nat (Z.to_nat ch)).
Proof.
  intros Hg. simpl in Hg.
  repeat (destruct Hg as [<- | Hg]); try contradiction;
    unfold dotmatrix_font_get_char, dotmatrix_font_get_char_last,
      dotmatrix_small_font_get_char, dotmatrix_small_font_get_char_last,
      get_char_last, font_default, default_font_get_char, at_index;
    rewrite !Nat2Z.id; reflexivity.
Qed.

End FontExtras.

Section FontTableFacts.

Import Font Display FontChecks.

Lemma at_index_beyond_256 table n :
  length table = 256%nat -> (256 <= n)%nat -> at_index table (Z.of_nat n) = 0.
Proof. intros Hl Hn. apply at_index_beyond. rewrite Nat2Z.id. lia. Qed.

(** Beyond code 255 every lookup reads width 0 and returns the empty
    descriptor. *)
Lemma source_lookup_beyond (g : Z -> option font_char_t) n :
  In g [default_font_get_char;
        dotmatrix_font_get_char; dotmatrix_font_get_char_last;
        dotmatrix_small_font_get_char; dotmatrix_small_font_get_char_last] ->
  (256 <= n)%nat ->
  g (Z.of_nat n) = Some {| width := 0; data := None |}.
Proof.
  intros Hg Hn. simpl in Hg.
  repeat (destruct Hg as [<- | Hg]); try contradiction;
    unfold dotmatrix_font_get_char, dotmatrix_font_get_char_last,
      dotmatrix_small_font_get_char, dotmatrix_small_font_get_char_last,
      get_char_last, font_default, default_font_get_char;
    rewrite ?(at_index_beyond_256 DOTMATRIX_CHAR_WIDTH n eq_refl Hn),
      ?(at_index_beyond_256 DOTMATRIX_SMALL_CHAR_WIDTH n eq_refl Hn);
    cbn [Z.eqb];
    rewrite (at_index_beyond_256 DEFAULT_FONT_CHAR_WIDTH n eq_refl Hn);
    reflexivity.
Qed.

(** A check of a lookup on the 256 codes extends to every code. *)
Lemma source_lookup_checked (g : Z -> option font_char_t) (ok : option font_char_t -> bool) :
  In g [default_font_get_char;
        dotmatrix_font_get_char; dotmatrix_font_get_char_last;
        dotmatrix_small_font_get_char; dotmatrix_small_font_get_char_last] ->
  forallb (fun ch => ok (g ch)) all_codes = true ->
  ok (Some {| width := 0; data := None |}) = true ->
  forall ch, ok (g ch) = true.
Proof.
  intros Hg Hall Hempty ch. rewrite (source_lookup_nat g ch Hg).
  destruct (Nat.lt_ge_cases (Z.to_nat ch) 256) as [Hlt|Hge].
  - now apply (all_codes_checked (fun ch => ok (g ch))).
  - now rewrite source_lookup_beyond.
Qed.

Lemma table_checked (f : Z -> bool) :
  forallb f all_codes = true -> forall ch, 0 <= ch < 256 -> f ch = true.
Proof.
  intros H ch Hch. rewrite <- (Z2Nat.id ch) by lia.
  apply all_codes_checked; [assumption|lia].
Qed.

End FontTableFacts.

Section FontTheorems.

Import Font Display FontChecks.

(** X9.  Whatever the character code, each lookup of the three fonts returns
    a descriptor that is either empty (width 0, NULL data) or has a positive
    width of at most 21 columns and exactly that many data bytes. *)
Theorem font_descriptors_consistent (ch : Z) :
  descriptor_ok 21 (get_char font_default ch) = true
  /\ descriptor_ok 21 (get_char font_dotmatrix ch) = true
  /\ descriptor_ok 21 (get_char_last font_dotmatrix ch) = true
  /\ descriptor_ok 21 (get_char font_dotmatrix_small ch) = true
  /\ descriptor_ok 21 (get_char_last font_dotmatrix_small ch) = true.
Proof.
  repeat split; simpl;
    apply (source_lookup_checked _ (descriptor_ok 21));
    try (vm_compute; reflexivity); simpl; tauto.
Qed.

(** X10.  For every character code in [0, 256) the glyph reads stay inside
    the font's data table, and the glyph with its spacing column fits the
    static buffer the lookup copies it to (21, 6 and 4 bytes). *)
Theorem font_table_reads_in_bounds (ch : Z) :
  0 <= ch < 256 ->
  glyph_in_table DEFAULT_FONT_CHAR_WIDTH DEFAULT_FONT_CHAR_OFFSET
    DEFAULT_FONT_FONT_DATA ch = true
  /\ glyph_in_table DOTMATRIX_CHAR_WIDTH DOTMATRIX_CHAR_OFFSET
       DOTMATRIX_FONT_DATA ch = true
  /\ glyph_in_table DOTMATRIX_SMALL_CHAR_WIDTH DOTMATRIX_SMALL_CHAR_OFFSET
       DOTMATRIX_SMALL_FONT_DATA ch = true
  /\ 0 <= at_index DEFAULT_FONT_CHAR_WIDTH ch /\ at_index DEFAULT_FONT_CHAR_WIDTH ch + 1 <= 21
  /\ 0 <= at_index DOTMATRIX_CHAR_WIDTH ch /\ at_index DOTMATRIX_CHAR_WIDTH ch + 1 <= 6
  /\ 0 <= at_index DOTMATRIX_SMALL_CHAR_WIDTH ch
  /\ at_index DOTMATRIX_SMALL_CHAR_WIDTH ch + 1 <= 4.
Proof.
  intros Hch.
  pose proof (table_checked
    (fun ch => glyph_in_table DEFAULT_FONT_CHAR_WIDTH DEFAULT_FONT_CHAR_OFFSET
                 DEFAULT_FONT_FONT_DATA ch) eq_refl ch Hch) as H1.
  pose proof (table_checked
    (fun ch => glyph_in_table DOTMATRIX_CHAR_WIDTH DOTMATRIX_CHAR_OFFSET
                 DOTMATRIX_FONT_DATA ch) eq_refl ch Hch) as H2.
  pose proof (table_checked
    (fun ch => glyph_in_table DOTMATRIX_SMALL_CHAR_WIDTH DOTMATRIX_SMALL_CHAR_OFFSET
                 DOTMATRIX_SMALL_FONT_DATA ch) eq_refl ch Hch) as H3.
  pose proof (table_checked
    (fun ch => (0 <=? at_index DEFAULT_FONT_CHAR_WIDTH ch)
               && (at_index DEFAULT_FONT_CHAR_WIDTH ch + 1 <=? 21)
               && (0 <=? at_index DOTMATRIX_CHAR_WIDTH ch)
               && (at_index DOTMATRIX_CHAR_WIDTH ch + 1 <=? 6)
               && (0 <=? at_index DOTMATRIX_SMALL_CHAR_WIDTH ch)
               && (at_index DOTMATRIX_SMALL_CHAR_WIDTH ch + 1 <=? 4))
    eq_refl ch Hch) as H4.
  simpl in H1, H2, H3, H4.
  repeat (apply andb_true_iff in H4 as [H4 ?]).
  repeat split; try assumption; apply Z.leb_le; assumption.
Qed.

Lemma font_table_reads_in_bounds_witness :
  glyph_in_table DEFAULT_FONT_CHAR_WIDTH DEFAULT_FONT_CHAR_OFFSET
    DEFAULT_FONT_FONT_DATA 255 = true
  /\ at_index DEFAULT_FONT_CHAR_WIDTH 42 + 1 <= 21.
Proof.
  split.
  - apply (font_table_reads_in_bounds 255). lia.
  - apply (font_table_reads_in_bounds 42). lia.
Defined.

(** X11.  The dot matrix fonts draw lower-case letters with the glyphs of
    the upper-case ones, in both lookups. *)
Theorem dotmatrix_lower_case_as_upper (ch : Z) :
  is_upper ch ->
  get_char font_dotmatrix (ch + 32) = get_char font_dotmatrix ch
  /\ get_char_last font_dotmatrix (ch + 32) = get_char_last font_dotmatrix ch
  /\ get_char font_dotmatrix_small (ch + 32) = get_char font_dotmatrix_small ch
  /\ get_char_last font_dotmatrix_small (ch + 32) =
       get_char_last font_dotmatrix_small ch.
Proof.
  intros Hu.
  assert (exists n, ch = 65 + Z.of_nat n /\ (n < 26)%nat) as (n & -> & Hn).
  { exists (Z.to_nat (ch - 65)). unfold is_upper in Hu. lia. }
  do 26 (destruct n as [|n]; [repeat split; reflexivity|]).
  lia.
Qed.

Lemma dotmatrix_lower_case_as_upper_witness :
  get_char font_dotmatrix_small 116 = get_char font_dotmatrix_small 84.
Proof.
  apply (dotmatrix_lower_case_as_upper 84). unfold is_upper. lia.
Defined.

(** X12.  For every character code that is not a letter (and, for the large
    font, not the degree sign 176), both lookups of the dot matrix fonts
    return what the default font's lookup returns. *)
Theorem dotmatrix_delegates_to_default (ch : Z) :
  ~ is_letter ch ->
  get_char font_dotmatrix_small ch = default_font_get_char ch
  /\ get_char_last font_dotmatrix_small ch = default_font_get_char ch
  /\ (ch <> 176 ->
      get_char font_dotmatrix ch = default_font_get_char ch
      /\ get_char_last font_dotmatrix ch = default_font_get_char ch).
Proof.
  intros Hl.
  assert (at_index DOTMATRIX_SMALL_CHAR_WIDTH ch = 0) as Hs.
  { rewrite at_index_nat.
    destruct (Nat.lt_ge_cases (Z.to_nat ch) 256) as [Hlt|Hge].
    - pose proof (all_codes_checked
        (fun c => (65 <=? c) && (c <=? 90) || (97 <=? c) && (c <=? 122)
                  || (at_index DOTMATRIX_SMALL_CHAR_WIDTH c =? 0))
        (Z.to_nat ch) eq_refl Hlt) as H. cbv beta in H.
      destruct (Z.le_gt_cases ch 0) as [H0|Hpos].
      + now replace (Z.to_nat ch) with 0%nat by lia.
      + rewrite Z2Nat.id in * by lia. unfold is_letter in Hl.
        repeat (apply orb_true_iff in H as [H|H]);
          try (apply andb_true_iff in H as [H1 H2];
               apply Z.leb_le in H1; apply Z.leb_le in H2; lia).
        now apply Z.eqb_eq.
    - now apply at_index_beyond_256. }
  assert (ch <> 176 -> at_index DOTMATRIX_CHAR_WIDTH ch = 0) as Hb.
  { intros H176. rewrite at_index_nat.
    destruct (Nat.lt_ge_cases (Z.to_nat ch) 256) as [Hlt|Hge].
    - pose proof (all_codes_checked
        (fun c => (65 <=? c) && (c <=? 90) || (97 <=? c) && (c <=? 122)
                  || (c =? 176) || (at_index DOTMATRIX_CHAR_WIDTH c =? 0))
        (Z.to_nat ch) eq_refl Hlt) as H. cbv beta in H.
      destruct (Z.le_gt_cases ch 0) as [H0|Hpos].
      + now replace (Z.to_nat ch) with 0%nat by lia.
      + rewrite Z2Nat.id in * by lia. unfold is_letter in Hl.
        repeat (apply orb_true_iff in H as [H|H]);
          try (apply andb_true_iff in H as [H1 H2];
               apply Z.leb_le in H1; apply Z.leb_le in H2; lia);
          try (apply Z.eqb_eq in H; congruence).
    - now apply at_index_beyond_256. }
  simpl. unfold dotmatrix_small_font_get_char, dotmatrix_small_font_get_char_last,
    dotmatrix_font_get_char, dotmatrix_font_get_char_last.
  rewrite Hs. simpl. split; [reflexivity|]. split; [reflexivity|].
  intros H176. rewrite (Hb H176). simpl. split; reflexivity.
Qed.

Lemma dotmatrix_delegates_to_default_witness :
  get_char font_dotmatrix_small 58 = default_font_get_char 58.
Proof.
  apply (proj1 (dotmatrix_delegates_to_default 58 ltac:(unfold is_letter; lia))).
Defined.

End FontTheorems.

(* ====================================================================== *)
(** * The panel manager: errors, registration, invariants *)
(* ====================================================================== *)

Section PanelExtras.

Import Panel PanelOps.

Lemma find_panel_present x ps : forall i,
  In x (map id ps) -> exists j, find_panel x ps i = Some j.
Proof.
  intros i Hin. destruct (find_panel x ps i) as [j|] eqn:E; [eauto|].
  apply find_panel_none in E. contradiction.
Qed.

(** X13.  [panel_manager_register_panel] fails exactly when the manager is
    not initialised ([ESP_ERR_INVALID_STATE]), the panel is NULL
    ([ESP_ERR_INVALID_ARG]) or eight panels are registered
    ([ESP_ERR_NO_MEM]), tested in this order; a failed call changes nothing
    and posts nothing. *)
Theorem register_panel_errors (panel : option panel_info_t) (s : state) :
  let '(s', evs, err) := panel_manager_register_panel panel s in
  (err = ESP_ERR_INVALID_STATE <-> initialized s = false)
  /\ (err = ESP_ERR_INVALID_ARG <-> initialized s = true /\ panel = None)
  /\ (err = ESP_ERR_NO_MEM <->
        initialized s = true /\ panel <> None /\ MAX_PANELS <= panel_count s)
  /\ (err <> ESP_OK -> s' = s /\ evs = []).
Proof.
  unfold panel_manager_register_panel.
  destruct (initialized s) eqn:Hi; simpl.
  2:{ repeat split; try discriminate; try tauto; intros; intuition discriminate. }
  destruct panel as [p|].
  2:{ repeat split; try discriminate; try tauto; intros; intuition congruence. }
  destruct (Z.geb_spec (panel_count s) MAX_PANELS) as [Hfull|Hroom].
  { repeat split; try discriminate; try tauto; intros; try lia;
      intuition discriminate. }
  destruct (find_panel (id p) (panels s) 0).
  { repeat split; try discriminate; try congruence; intros; intuition (try discriminate; try lia). }
  cbn [config panels].
  destruct (id p =? default_panel (config s));
    [destruct (find_panel _ _ _)|];
    repeat split; try discriminate; try congruence; intros;
      intuition (try discriminate; try lia).
Qed.

(** X14.  Registering a panel whose id is already registered changes
    nothing and posts nothing; the call returns [ESP_OK], except that on a
    full registry the capacity test comes first and it returns
    [ESP_ERR_NO_MEM]. *)
Theorem register_panel_duplicate (p : panel_info_t) (s : state) :
  initialized s = true ->
  In (id p) (map id (panels s)) ->
  panel_manager_register_panel (Some p) s =
    (s, [], if panel_count s >=? MAX_PANELS then ESP_ERR_NO_MEM else ESP_OK).
Proof.
  intros Hi Hin. unfold panel_manager_register_panel. rewrite Hi. simpl.
  destruct (panel_count s >=? MAX_PANELS); [reflexivity|].
  destruct (find_panel_present (id p) (panels s) 0 Hin) as (j & ->).
  reflexivity.
Qed.

Lemma register_panel_duplicate_witness :
  let s := fst (register_all four_panels (panel_manager_init (clock_default 30))) in
  panel_manager_register_panel (Some {| id := PANEL_DATE; name := "again" |}) s =
    (s, [], ESP_OK).
Proof.
  intros s.
  apply (register_panel_duplicate {| id := PANEL_DATE; name := "again" |} s).
  - reflexivity.
  - vm_compute. tauto.
Defined.

(** X15.  Registering a new panel with room left appends it.  If its id is
    the configured default it becomes the active panel at once: exactly
    [PANEL_ACTIVATED] of it is posted (the panel that was active is not
    deactivated) and the idle counter is cleared; any other new panel posts
    nothing and leaves the active index and the counter alone. *)
Theorem register_panel_new (p : panel_info_t) (s : state) :
  registry_ok s ->
  panel_count s < MAX_PANELS ->
  ~ In (id p) (map id (panels s)) ->
  let '(s', evs, err) := panel_manager_register_panel (Some p) s in
  err = ESP_OK
  /\ panels s' = panels s ++ [p]
  /\ (id p = default_panel (config s) ->
        evs = [PANEL_ACTIVATED (id p)]
        /\ active_panel_idx s' = panel_count s
        /\ panel_manager_get_active s' = id p
        /\ inactivity_counter s' = 0)
  /\ (id p <> default_panel (config s) ->
        evs = []
        /\ active_panel_idx s' = active_panel_idx s
        /\ inactivity_counter s' = inactivity_counter s).
Proof.
  intros (Hi & Hc & Ha) Hlt Hnew.
  unfold panel_manager_register_panel. rewrite Hi. simpl negb. cbv iota.
  replace (panel_count s >=? MAX_PANELS) with false
    by (symmetry; rewrite Z.geb_leb; apply Z.leb_gt; lia).
  apply (find_panel_none (id p) (panels s) 0) in Hnew as Hnone. rewrite Hnone.
  cbn [config panels].
  unfold panel_count, MAX_PANELS in *.
  destruct (Z.eqb_spec (id p) (default_panel (config s))) as [Hd|Hd].
  - rewrite (find_panel_appended _ _ _ 0 Hnone eq_refl). simpl.
    rewrite uint8_wrap_small by lia.
    split; [reflexivity|]. split; [reflexivity|]. split; [|congruence].
    intros _. repeat split.
    unfold panel_manager_get_active, panel_count, panel_at. simpl.
    rewrite length_app. simpl length.
    replace (Z.of_nat (length (panels s) + 1) =? 0) with false
      by (symmetry; apply Z.eqb_neq; lia).
    rewrite Z.add_0_l, Nat2Z.id, app_nth2, Nat.sub_diag by lia. reflexivity.
  - split; [reflexivity|]. split; [reflexivity|]. split; [congruence|].
    intros _. repeat split.
Qed.

Lemma register_panel_new_witness :
  let s := fst (taps 1 (fst (register_all
                  [{| id := PANEL_DATE; name := "date" |}; {| id := 2; name := "weather" |}]
                  (panel_manager_init (clock_default 30))))) in
  snd (fst (panel_manager_register_panel
              (Some {| id := PANEL_CLOCK; name := "clock" |}) s)) =
    [PANEL_ACTIVATED PANEL_CLOCK].
Proof.
  intros s.
  pose proof (register_panel_new {| id := PANEL_CLOCK; name := "clock" |} s) as H.
  destruct (panel_manager_register_panel
              (Some {| id := PANEL_CLOCK; name := "clock" |}) s) as [[s' evs] err].
  destruct H as (_ & _ & Hdef & _).
  - vm_compute. repeat split; discriminate.
  - vm_compute. reflexivity.
  - vm_compute. intuition discriminate.
  - apply Hdef. reflexivity.
Defined.

End PanelExtras.

Section PanelInvariant.

Import Panel PanelOps.

Lemma uint16_wrap_range z : 0 <= uint16_wrap z < 2 ^ 16.
Proof. unfold uint16_wrap. apply Z.mod_pos_bound. lia. Qed.

Lemma manager_inv_init cfg : manager_inv (panel_manager_init cfg).
Proof.
  split; [apply registry_ok_init|]. split.
  - constructor.
  - unfold counter_ok. simpl. lia.
Qed.

Lemma nodup_snoc {A} (l : list A) x :
  List.NoDup l -> ~ In x l -> List.NoDup (l ++ [x]).
Proof.
  induction l as [|a l IH]; intros Hnd Hx; simpl.
  - constructor; [tauto|constructor].
  - inversion Hnd as [|? ? Ha Hl]; subst. constructor.
    + rewrite in_app_iff. simpl in *. intuition.
    + apply IH; [assumption|]. simpl in Hx. tauto.
Qed.

Lemma register_present p s :
  initialized s = true ->
  In (id p) (map id (panels s)) ->
  fst (fst (panel_manager_register_panel (Some p) s)) = s.
Proof.
  intros Hi Hin. unfold panel_manager_register_panel. rewrite Hi. simpl.
  destruct (panel_count s >=? MAX_PANELS); [reflexivity|].
  destruct (find_panel_present (id p) (panels s) 0 Hin) as (j & ->).
  reflexivity.
Qed.

Lemma register_keeps_inv panel s :
  manager_inv s -> manager_inv (fst (apply_op (Register panel) s)).
Proof.
  intros (Hok & Hnd & Hcnt). unfold apply_op.
  pose proof Hok as (Hi & Hc & Ha).
  destruct panel as [p|].
  2:{ unfold panel_manager_register_panel. rewrite Hi. simpl. exact (conj Hok (conj Hnd Hcnt)). }
  destruct (Z.lt_ge_cases (panel_count s) MAX_PANELS) as [Hroom|Hfull].
  2:{ unfold panel_manager_register_panel. rewrite Hi. simpl.
      replace (panel_count s >=? MAX_PANELS) with true
        by (symmetry; rewrite Z.geb_leb; apply Z.leb_le; lia).
      exact (conj Hok (conj Hnd Hcnt)). }
  destruct (in_dec Z.eq_dec (id p) (map id (panels s))) as [Hin|Hnew].
  { pose proof (register_present p s Hi Hin) as Hsame.
    destruct (panel_manager_register_panel (Some p) s) as [[s' evs] err].
    simpl in *. subst s'. exact (conj Hok (conj Hnd Hcnt)). }
  destruct (register_new_panel p s Hok Hroom Hnew)
    as (s' & evs & Hr & Hp & Hcfg & Hok').
  rewrite Hr. simpl. split; [exact Hok'|]. split.
  - unfold distinct_ids. rewrite Hp, map_app. simpl.
    apply nodup_snoc; assumption.
  - revert Hr. unfold panel_manager_register_panel. rewrite Hi. simpl negb. cbv iota.
    replace (panel_count s >=? MAX_PANELS) with false
      by (symmetry; rewrite Z.geb_leb; apply Z.leb_gt; lia).
    apply (find_panel_none (id p) (panels s) 0) in Hnew as Hnone. rewrite Hnone.
    cbn [config panels].
    destruct (id p =? default_panel (config s));
      [destruct (find_panel (id p) (panels s ++ [p]) 0)|]; simpl;
      intros Hr; inversion Hr; subst;
      unfold counter_ok in *; simpl; try lia; assumption.
Qed.

Lemma tap_keeps_inv s :
  manager_inv s -> manager_inv (fst (apply_op Tap s)).
Proof.
  intros (Hok & Hnd & Hcnt). pose proof Hok as (Hi & Hc & Ha).
  unfold apply_op, input_touch_handler.
  destruct (Z.eq_dec (panel_count s) 0) as [H0|Hpos].
  - unfold next_panel. rewrite H0. simpl. exact (conj Hok (conj Hnd Hcnt)).
  - assert (0 < panel_count s) as Hn by (unfold panel_count in *; lia).
    destruct (next_panel_step s) as (s' & Hr & Hsame & Hidx & Hc0); try lia.
    rewrite Hr. simpl.
    pose proof Hsame as (Hi' & Hcfg' & Hp').
    pose proof (panel_count_same _ _ Hsame) as Hcount.
    assert (0 <= active_panel_idx s' < panel_count s)
      by (rewrite Hidx; apply Z.mod_pos_bound; lia).
    repeat split.
    + congruence.
    + lia.
    + lia.
    + lia.
    + unfold distinct_ids. now rewrite Hp'.
    + rewrite Hc0. lia.
    + rewrite Hc0. lia.
Qed.

Lemma tick_keeps_inv s :
  manager_inv s -> manager_inv (fst (apply_op Tick s)).
Proof.
  intros ((Hi & Hc & Ha) & Hnd & Hcnt). revert Hi Hc Ha Hnd Hcnt.
  destruct s as [ini cfg ps a c].
  unfold apply_op, inactivity_timer_callback, manager_inv, registry_ok,
    distinct_ids, counter_ok, panel_count, panel_at, MAX_PANELS.
  cbn -[uint16_wrap Z.geb nth Z.pow]. intros -> Hc Ha Hnd Hcnt.
  cbn -[uint16_wrap Z.geb nth Z.pow].
  pose proof (uint16_wrap_range (c + 1)) as Hw.
  pose proof (uint16_wrap_range 0) as Hw0.
  destruct (_ >=? _); [|cbn -[uint16_wrap Z.pow]; repeat split; auto; lia].
  destruct ps as [|p ps];
    [change (Z.of_nat (length (@nil panel_info_t)) =? 0) with true;
     cbn -[uint16_wrap Z.pow]; cbn [length] in *; repeat split; auto; lia|].
  replace (Z.of_nat (length (p :: ps)) =? 0) with false
    by (symmetry; apply Z.eqb_neq; cbn [length]; lia).
  cbn -[uint16_wrap nth find_panel length Z.pow].
  destruct (negb _); [|cbn -[uint16_wrap Z.pow length]; repeat split; auto; lia].
  destruct (find_panel (default_panel cfg) (p :: ps) 0) as [d|] eqn:Ef;
    [|cbn -[uint16_wrap Z.pow length]; repeat split; auto; lia].
  apply find_panel_some in Ef as [Hd _].
  cbn -[uint16_wrap uint8_wrap Z.pow length].
  rewrite uint8_wrap_small by lia.
  repeat split; auto; lia.
Qed.

Lemma run_ops_keeps_inv ops : forall s,
  manager_inv s -> manager_inv (fst (run_ops ops s)).
Proof.
  induction ops as [|o ops IH]; intros s Hinv; [exact Hinv|].
  cbn [run_ops].
  assert (manager_inv (fst (apply_op o s))) as H1
    by (destruct o; [apply register_keeps_inv | apply tap_keeps_inv
                     | apply tick_keeps_inv]; assumption).
  destruct (apply_op o s) as [s1 ev1]. specialize (IH s1 H1).
  destruct (run_ops ops s1) as [s2 ev2]. exact IH.
Qed.

(** With a registry that is not empty the active panel is a registered one. *)
Lemma active_is_registered s :
  registry_ok s -> panels s <> [] ->
  In (panel_manager_get_active s) (map id (panels s)).
Proof.
  intros (_ & Hc & Ha) Hne. unfold panel_manager_get_active, panel_count, panel_at in *.
  destruct (panels s) as [|p ps] eqn:Hp; [congruence|].
  replace (Z.of_nat (length (p :: ps)) =? 0) with false
    by (symmetry; apply Z.eqb_neq; simpl length; lia).
  apply in_map. apply nth_In. simpl length in *. lia.
Qed.

(** A tick without the default panel in the registry changes at most the
    counter. *)
Lemma tick_without_default s :
  find_panel (default_panel (config s)) (panels s) 0 = None ->
  exists s',
    inactivity_timer_callback s = (s', [])
    /\ same_registry s s'
    /\ active_panel_idx s' = active_panel_idx s.
Proof.
  destruct s as [ini cfg ps a c].
  unfold inactivity_timer_callback, panel_count, panel_at, same_registry.
  cbn -[uint16_wrap Z.geb nth]. intros Hf.
  destruct ini; cbn -[uint16_wrap Z.geb nth];
    [|eexists; split; [reflexivity|]; repeat split].
  destruct (_ >=? _); [|eexists; split; [reflexivity|]; repeat split].
  destruct ps as [|p ps]; [eexists; split; [reflexivity|]; repeat split|].
  cbn -[uint16_wrap nth find_panel]. rewrite Hf.
  destruct (negb _); eexists; (split; [reflexivity|]); repeat split.
Qed.

Lemma ticks_without_default n : forall s,
  find_panel (default_panel (config s)) (panels s) 0 = None ->
  exists s',
    ticks n s = (s', [])
    /\ same_registry s s'
    /\ active_panel_idx s' = active_panel_idx s.
Proof.
  induction n as [|n IH]; intros s Hf.
  - exists s. simpl. repeat split.
  - cbn [ticks].
    destruct (tick_without_default s Hf) as (s1 & Hr & Hsame & Ha).
    rewrite Hr.
    destruct (IH s1) as (s2 & Hr2 & Hsame2 & Ha2).
    + destruct Hsame as (_ & -> & ->). exact Hf.
    + rewrite Hr2. exists s2. split; [reflexivity|]. split.
      * eapply same_registry_trans; eassumption.
      * congruence.
Qed.

End PanelInvariant.

Section PanelTheorems.

Import Panel PanelOps.

Lemma register_panel_errors_witness :
  panel_manager_register_panel None (panel_manager_init (clock_default 30)) =
    (panel_manager_init (clock_default 30), [], ESP_ERR_INVALID_ARG).
Proof.
  pose proof (register_panel_errors None (panel_manager_init (clock_default 30))) as H.
  destruct (panel_manager_register_panel None (panel_manager_init (clock_default 30)))
    as [[s' evs] err].
  destruct H as (_ & Harg & _ & Hsame).
  assert (err = ESP_ERR_INVALID_ARG) as -> by (apply Harg; split; reflexivity).
  destruct Hsame as [-> ->]; [discriminate|reflexivity].
Defined.

(** X16.  Whatever registrations, taps and ticks follow
    [panel_manager_init], in any order: the manager stays initialised, the
    registry holds at most eight panels with pairwise distinct ids, the
    active index is 0 on an empty registry and a valid index otherwise, the
    idle counter stays a 16-bit value, and the active panel is a registered
    one as soon as a panel is registered. *)
Theorem manager_invariant (cfg : panel_manager_config_t) (ops : list op) :
  let s := fst (run_ops ops (panel_manager_init cfg)) in
  registry_ok s /\ distinct_ids s /\ counter_ok s
  /\ (panels s <> [] -> In (panel_manager_get_active s) (map id (panels s)))
  /\ (panels s = [] -> panel_manager_get_active s = default_panel (config s)).
Proof.
  intros s.
  destruct (run_ops_keeps_inv ops _ (manager_inv_init cfg)) as (Hok & Hnd & Hcnt).
  fold s in Hok, Hnd, Hcnt.
  repeat split; try apply Hok; try assumption; try apply Hcnt.
  - now apply active_is_registered.
  - intros He. unfold panel_manager_get_active, panel_count. now rewrite He.
Qed.

(** X17.  While the configured default panel is not registered (an empty
    registry included), no number of ticks posts an event or moves the
    active index: the idle timeout has nothing to return to. *)
Theorem ticks_without_default_panel (n : nat) (s : state) :
  find_panel (default_panel (config s)) (panels s) 0 = None ->
  snd (ticks n s) = []
  /\ panels (fst (ticks n s)) = panels s
  /\ active_panel_idx (fst (ticks n s)) = active_panel_idx s.
Proof.
  intros Hf.
  destruct (ticks_without_default n s Hf) as (s' & -> & (_ & _ & Hp) & Ha).
  now repeat split.
Qed.

Lemma ticks_without_default_panel_witness :
  let s := fst (register_all [{| id := PANEL_DATE; name := "date" |}]
                  (panel_manager_init (clock_default 3))) in
  snd (ticks 10 s) = [].
Proof.
  intros s. apply (ticks_without_default_panel 10 s). reflexivity.
Defined.

(** X18.  A tap restarts the idle timeout: after a tap on a registry that
    is not empty, fewer ticks than the timeout post nothing and leave the
    panel the tap activated in place. *)
Theorem tap_restarts_idle_timeout (n : nat) (s : state) :
  initialized s = true ->
  0 < panel_count s <= MAX_PANELS ->
  0 <= active_panel_idx s < panel_count s ->
  Z.of_nat n < inactivity_timeout_s (config s) <= 65536 ->
  let tapped := fst (input_touch_handler s) in
  snd (ticks n tapped) = []
  /\ active_panel_idx (fst (ticks n tapped)) =
       (active_panel_idx s + 1) mod panel_count s.
Proof.
  intros Hi Hn Ha Hk tapped. subst tapped. unfold input_touch_handler.
  destruct (next_panel_step s Hn Ha) as (s1 & Hr & (Hi1 & Hcfg1 & Hp1) & Hidx & Hc0).
  rewrite Hr. simpl fst.
  destruct (ticks_below_timeout n s1) as (s2 & Hr2 & _ & Ha2 & _);
    rewrite ?Hcfg1, ?Hc0; try lia; try congruence.
  rewrite Hr2. simpl. split; [reflexivity|congruence].
Qed.

Lemma tap_restarts_idle_timeout_witness :
  let s := fst (ticks 29 (fst (register_all four_panels
                                 (panel_manager_init (clock_default 30))))) in
  snd (ticks 29 (fst (input_touch_handler s))) = [].
Proof.
  intros s. apply (tap_restarts_idle_timeout 29 s); vm_compute;
    first [reflexivity | split; first [reflexivity | discriminate]].
Defined.

(** X19.  On an empty registry taps and ticks, in any number and order,
    post nothing and register nothing, and [panel_manager_get_active] keeps
    returning the configured default panel. *)
Theorem empty_registry_is_inert (ops : list op) (s : state) :
  panels s = [] ->
  forallb (fun o => negb (is_register o)) ops = true ->
  snd (run_ops ops s) = []
  /\ panels (fst (run_ops ops s)) = []
  /\ panel_manager_get_active (fst (run_ops ops s)) = default_panel (config s).
Proof.
  revert s. induction ops as [|o ops IH]; intros s He Hops.
  - simpl. repeat split; [assumption|].
    unfold panel_manager_get_active, panel_count. now rewrite He.
  - simpl in Hops. apply andb_true_iff in Hops as [Ho Hops].
    cbn [run_ops].
    assert (exists s1, apply_op o s = (s1, []) /\ panels s1 = []
                       /\ config s1 = config s) as (s1 & Hr & He1 & Hcfg).
    { destruct o as [p| |]; [discriminate| |].
      - exists s. unfold apply_op, input_touch_handler, next_panel, panel_count.
        rewrite He. simpl. auto.
      - destruct (tick_without_default s) as (s1 & Hr & (_ & Hc & Hp) & _).
        + now rewrite He.
        + exists s1. unfold apply_op. rewrite Hr. split; [reflexivity|].
          split; congruence. }
    rewrite Hr. destruct (IH s1 He1 Hops) as (Hev & Hp & Hact).
    destruct (run_ops ops s1) as [s2 ev2]. simpl in *.
    subst ev2. repeat split; [assumption|congruence].
Qed.

Lemma empty_registry_is_inert_witness :
  snd (run_ops [Tap; Tick; Tick; Tap] (panel_manager_init (clock_default 1))) = [].
Proof.
  apply (empty_registry_is_inert [Tap; Tick; Tick; Tap]
           (panel_manager_init (clock_default 1))); reflexivity.
Defined.

End PanelTheorems.

(* ====================================================================== *)
(** * Further properties of the gesture classifier *)
(* ====================================================================== *)

Section TouchInvariant.

Import Touch TouchOps.

Variable hz : Z.

Lemma init_inv cfg : classifier_inv hz cfg (touch_sensor_init hz cfg).
Proof.
  unfold classifier_inv, touch_sensor_init; cbn -[Z.pow].
  repeat split; auto; try lia; discriminate.
Qed.

Lemma callback_keeps_inv cfg now level s :
  classifier_inv hz cfg s ->
  classifier_inv hz cfg (fst (release_timer_callback hz now level s)).
Proof.
  intros (Hi & Hc & Hl & Hp & Hlp).
  unfold release_timer_callback.
  destruct (negb _); [destruct (long_press_detected s) eqn:E;
                      [|destruct (is_pressed s)]
                     |destruct (negb (long_press_detected s)) eqn:E];
    unfold classifier_inv; cbn -[Z.pow];
    repeat split; auto; try lia; try discriminate.
  rewrite E; discriminate.
Qed.

Lemma isr_keeps_inv cfg now level s :
  classifier_inv hz cfg s ->
  classifier_inv hz cfg (fst (gpio_isr_handler hz now level s)).
Proof.
  intros (Hi & Hc & Hl & Hp & Hlp).
  pose proof (TickType_wrap_range now) as Hw.
  unfold gpio_isr_handler.
  destruct (_ <? _); [exact (conj Hi (conj Hc (conj Hl (conj Hp Hlp))))|].
  destruct (_ && _); [|destruct (_ && _)];
    unfold classifier_inv; cbn -[Z.pow TickType_wrap];
    repeat split; auto; try lia; try discriminate.
Qed.

Lemma fire_timers_fuel_keeps_inv cfg fuel : forall t level s,
  classifier_inv hz cfg s ->
  classifier_inv hz cfg (fst (fire_timers_fuel hz fuel t level s)).
Proof.
  induction fuel as [|fuel IH]; intros t level s Hs; [exact Hs|].
  cbn [fire_timers_fuel].
  destruct (expiry (release_timer s)) as [e|]; [|exact Hs].
  destruct (e <=? t); [|exact Hs].
  match goal with
  | |- context [release_timer_callback hz e level ?d] =>
      assert (classifier_inv hz cfg d) as Hd
        by (destruct Hs as (Hi & Hc & Hl & Hp & Hlp);
            unfold classifier_inv; cbn -[Z.pow]; auto);
      pose proof (callback_keeps_inv cfg e level d Hd) as Hcb;
      destruct (release_timer_callback hz e level d) as [s1 evs]
  end.
  simpl fst in Hcb. specialize (IH t level s1 Hcb).
  destruct (fire_timers_fuel hz fuel t level s1) as [s2 rest]. exact IH.
Qed.

Lemma fire_timers_keeps_inv cfg t level s :
  classifier_inv hz cfg s ->
  classifier_inv hz cfg (fst (fire_timers hz t level s)).
Proof.
  intros Hs. unfold fire_timers.
  destruct (expiry (release_timer s)); [|exact Hs].
  now apply fire_timers_fuel_keeps_inv.
Qed.

Lemma run_keeps_inv cfg edges : forall level0 s,
  classifier_inv hz cfg s ->
  classifier_inv hz cfg (fst (run hz level0 edges s)).
Proof.
  induction edges as [|[t level] rest IH]; intros level0 s Hs; [exact Hs|].
  cbn [run].
  pose proof (fire_timers_keeps_inv cfg t level0 s Hs) as H1.
  destruct (fire_timers hz t level0 s) as [s1 ev1]. simpl fst in H1.
  pose proof (isr_keeps_inv cfg t level s1 H1) as H2.
  destruct (gpio_isr_handler hz t level s1) as [s2 ev2]. simpl fst in H2.
  specialize (IH level s2 H2).
  destruct (run hz level rest s2) as [s3 ev3]. exact IH.
Qed.

Lemma run_until_keeps_inv cfg h level0 edges s :
  classifier_inv hz cfg s ->
  classifier_inv hz cfg (fst (run_until hz h level0 edges s)).
Proof.
  intros Hs. unfold run_until.
  pose proof (run_keeps_inv cfg edges level0 s Hs) as H1.
  destruct (run hz level0 edges s) as [s1 ev1]. simpl fst in H1.
  pose proof (fire_timers_keeps_inv cfg h (final_level level0 edges) s1 H1) as H2.
  destruct (fire_timers hz h (final_level level0 edges) s1) as [s2 ev2].
  exact H2.
Qed.

(** A burst of edges, each inside the debounce window of the last accepted
    edge and before the timer's expiry, goes by unnoticed. *)
Lemma run_bounces t_last edges : forall level0 s,
  last_touch_time s = TickType_wrap t_last ->
  Forall (within_window t_last (pdMS_TO_TICKS hz (debounce_ms (config s)))) edges ->
  Forall (before_expiry (release_timer s)) edges ->
  run hz level0 edges s = (s, []).
Proof.
  induction edges as [|[t level] rest IH]; intros level0 s Hl Hw Hb;
    [reflexivity|].
  inversion Hw as [|? ? Hw1 Hw2]; subst. inversion Hb as [|? ? Hb1 Hb2]; subst.
  cbn [run]. unfold within_window, before_expiry in Hw1, Hb1. simpl in Hw1, Hb1.
  rewrite fire_timers_quiet
    by (intros e He; rewrite He in Hb1; exact Hb1).
  rewrite (isr_debounced_within hz t_last) by assumption.
  rewrite IH by assumption. reflexivity.
Qed.

End TouchInvariant.

Section TouchTheorems.

Import Touch TouchOps.

Lemma isr_keeps_config hz now level s :
  config (fst (gpio_isr_handler hz now level s)) = config s.
Proof.
  unfold gpio_isr_handler.
  destruct (_ <? _); [reflexivity|].
  destruct (_ && _); [reflexivity|]. destruct (_ && _); reflexivity.
Qed.

(** X20.  A press and a release that the interrupt handler both accepts,
    the release before the timer armed at the press expires: exactly one
    tap, posted at the release, no long-press event, and the classifier is
    idle again with the timer's period untouched.  (The threshold is the
    period the timer has at the press; it is the 200 ms one after
    [touch_sensor_init].) *)
Theorem short_press_is_one_tap
    (hz : Z) (s : state) (t0 t1 h level0 on off : Z) :
  released_at t0 s ->
  is_touch_active (config s) on = true ->
  is_touch_active (config s) off = false ->
  pdMS_TO_TICKS hz (debounce_ms (config s))
    <= TickType_wrap (TickType_wrap t0 - last_touch_time s) ->
  pdMS_TO_TICKS hz (debounce_ms (config s))
    <= TickType_wrap (TickType_wrap t1 - TickType_wrap t0) ->
  t1 < t0 + period (release_timer s) ->
  let r := run_until hz h level0 [(t0, on); (t1, off)] s in
  snd r = [(t1, INPUT_TAP)]
  /\ count_event INPUT_LONG_PRESS (snd r) = 0%nat
  /\ count_event INPUT_RELEASE (snd r) = 0%nat
  /\ idle (fst r)
  /\ period (release_timer (fst r)) = period (release_timer s).
Proof.
  intros Hrel Hon Hoff Hd0 Hd1 Hlt r. subst r.
  destruct (press_then_release_before_expiry hz s t0 t1 h level0 on off)
    as (s' & -> & Hidle & Hper); try assumption.
  simpl. repeat split; try apply Hidle. exact Hper.
Qed.

Lemma short_press_is_one_tap_witness :
  snd (run_until 100 200 0 [(40, 1); (52, 0)] booted) = [(52, INPUT_TAP)].
Proof.
  apply (short_press_is_one_tap 100 booted 40 52 200 0 1 0);
    try reflexivity; try (vm_compute; discriminate).
  split; [reflexivity|]. intros e He. discriminate He.
Defined.

(** X21.  A press held past the expiry of the timer and ended by a release
    edge the interrupt handler accepts: one long-press start at the expiry,
    one long-press end at the release edge, no tap.  The handler stops the
    timer and leaves it with the 50 ms poll period. *)
Theorem held_press_ended_by_interrupt
    (hz : Z) (s : state) (t0 t1 h level0 on off : Z) :
  released_at t0 s ->
  is_touch_active (config s) on = true ->
  is_touch_active (config s) off = false ->
  1 <= pdMS_TO_TICKS hz 50 ->
  pdMS_TO_TICKS hz (debounce_ms (config s))
    <= TickType_wrap (TickType_wrap t0 - last_touch_time s) ->
  pdMS_TO_TICKS hz (debounce_ms (config s))
    <= TickType_wrap (TickType_wrap t1 - TickType_wrap t0) ->
  t0 + period (release_timer s) <= t1 ->
  let r := run_until hz h level0 [(t0, on); (t1, off)] s in
  snd r = [(t0 + period (release_timer s), INPUT_LONG_PRESS);
           (t1, INPUT_RELEASE)]
  /\ count_event INPUT_TAP (snd r) = 0%nat
  /\ is_pressed (fst r) = false
  /\ expiry (release_timer (fst r)) = None
  /\ period (release_timer (fst r)) = pdMS_TO_TICKS hz 50.
Proof.
  intros Hrel Hon Hoff Hq Hd0 Hd1 Hheld r. subst r.
  destruct (press_held_release_by_interrupt hz s t0 t1 h level0 on off)
    as (s' & -> & Hp & He & Hper); try assumption.
  simpl. repeat split; assumption.
Qed.

Lemma held_press_ended_by_interrupt_witness :
  snd (run_until 100 200 0 [(40, 1); (95, 0)] booted) =
    [(60, INPUT_LONG_PRESS); (95, INPUT_RELEASE)].
Proof.
  apply (held_press_ended_by_interrupt 100 booted 40 95 200 0 1 0);
    try reflexivity; try (vm_compute; discriminate).
  split; [reflexivity|]. intros e He. discriminate He.
Defined.



(** X23.  Whatever the contact signal and however long it is observed
    after [touch_sensor_init]: the classifier stays initialised with the
    configuration it was given, the debounce reference is a 32-bit tick
    count, the timer's period is either the 200 ms threshold or the 50 ms
    poll, and whenever a long press is in progress it is the poll period. *)
Theorem classifier_invariant
    (hz : Z) (cfg : touch_sensor_config_t) (h level0 : Z)
    (edges : list (Z * Z)) :
  classifier_inv hz cfg
    (fst (run_until hz h level0 edges (touch_sensor_init hz cfg))).
Proof. apply run_until_keeps_inv, init_inv. Qed.

(** X24.  After an edge the handler accepts at tick [t_last], a burst of
    edges of either polarity, each inside the debounce window of that edge
    and before the timer's expiry, changes nothing and posts nothing. *)
Theorem bounce_burst_ignored
    (hz : Z) (s : state) (t_last level level0 : Z) (edges : list (Z * Z)) :
  pdMS_TO_TICKS hz (debounce_ms (config s))
    <= TickType_wrap (TickType_wrap t_last - last_touch_time s) ->
  let s' := fst (gpio_isr_handler hz t_last level s) in
  Forall (within_window t_last (pdMS_TO_TICKS hz (debounce_ms (config s)))) edges ->
  Forall (before_expiry (release_timer s')) edges ->
  run hz level0 edges s' = (s', []).
Proof.
  intros Hacc s' Hw Hb.
  apply (run_bounces hz t_last); [|subst s'; rewrite isr_keeps_config|];
    try assumption.
  subst s'. now apply isr_accepted_reference.
Qed.

Lemma bounce_burst_ignored_witness :
  let pressed := fst (gpio_isr_handler 100 100 1 booted) in
  run 100 1 [(101, 0); (102, 1); (104, 0)] pressed = (pressed, []).
Proof.
  apply (bounce_burst_ignored 100 booted 100 1 1 [(101, 0); (102, 1); (104, 0)]).
  - vm_compute; discriminate.
  - constructor; [|constructor; [|constructor; [|constructor]]];
      (split; [vm_compute; discriminate | reflexivity]).
  - constructor; [|constructor; [|constructor; [|constructor]]]; reflexivity.
Defined.

End TouchTheorems.

(* ====================================================================== *)
(** * Properties of the brightness control *)
(* ====================================================================== *)

Section BrightnessFacts.

Import Panel Brightness.

Lemma levels_range l :
  In l BRIGHTNESS_LEVELS -> BRIGHTNESS_MIN <= l <= BRIGHTNESS_MAX.
Proof.
  unfold BRIGHTNESS_LEVELS, BRIGHTNESS_MIN, BRIGHTNESS_MAX. simpl.
  intros [<- | [<- | [<- | [<- | [<- | []]]]]]; lia.
Qed.

Lemma level_index_cases i :
  0 <= i < BRIGHTNESS_LEVEL_COUNT ->
  i = 0 \/ i = 1 \/ i = 2 \/ i = 3 \/ i = 4.
Proof. unfold BRIGHTNESS_LEVEL_COUNT. simpl. lia. Qed.

Lemma level_at_in i :
  0 <= i < BRIGHTNESS_LEVEL_COUNT -> In (level_at i) BRIGHTNESS_LEVELS.
Proof.
  intros H. apply level_index_cases in H.
  destruct H as [-> | [-> | [-> | [-> | ->]]]]; simpl; auto 6.
Qed.

(** The search loop on the table: it finds the least level that is at least
    [b], for every [b] up to the maximum. *)
Lemma find_level_least b :
  b <= BRIGHTNESS_MAX ->
  exists i,
    find_level BRIGHTNESS_LEVELS 0 b = Some i
    /\ 0 <= i < BRIGHTNESS_LEVEL_COUNT
    /\ b <= level_at i
    /\ (forall l, In l BRIGHTNESS_LEVELS -> b <= l -> level_at i <= l).
Proof.
  unfold BRIGHTNESS_MAX. intros Hb.
  unfold BRIGHTNESS_LEVELS, BRIGHTNESS_LEVEL_COUNT, find_level.
  destruct (Z.geb_spec 2 b);
    [exists 0
    |destruct (Z.geb_spec 5 b);
     [exists 1
     |destruct (Z.geb_spec 9 b);
      [exists 2
      |destruct (Z.geb_spec 12 b);
       [exists 3
       |destruct (Z.geb_spec 15 b); [exists 4|lia]]]]];
    (split; [reflexivity|]); (split; [simpl; lia|]);
    (split; [unfold level_at; simpl; lia|]);
    intros l Hl Hle; simpl in Hl;
    destruct Hl as [<- | [<- | [<- | [<- | [<- | []]]]]];
    unfold level_at; simpl; lia.
Qed.

Lemma inv_intro s :
  0 <= current_level_index s < BRIGHTNESS_LEVEL_COUNT ->
  BRIGHTNESS_MIN <= current_brightness s <= BRIGHTNESS_MAX ->
  cycle_timer_running s = cycling s ->
  brightness_inv s.
Proof. intros; unfold brightness_inv; auto. Qed.

Lemma cycle_brightness_keeps_inv s :
  brightness_inv s ->
  brightness_inv (fst (cycle_brightness s))
  /\ Forall (fun e => In (carried e) BRIGHTNESS_LEVELS) (snd (cycle_brightness s)).
Proof.
  intros (Hi & Hb & Ht).
  destruct s as [ini cfg b i c up lim ap tr]; simpl in Hi, Hb, Ht.
  pose proof (level_index_cases _ Hi) as Hcases.
  unfold cycle_brightness; simpl.
  destruct lim.
  { simpl. split; [apply inv_intro; simpl; auto|constructor]. }
  clear Hi.
  destruct Hcases as [-> | [-> | [-> | [-> | ->]]]]; destruct up; simpl;
    (split; [apply inv_intro; simpl; auto; vm_compute;
                split; first [discriminate | reflexivity]
            |vm_compute; constructor; [auto 6|constructor]]).
Qed.

Lemma set_level_keeps_inv level s :
  brightness_inv s ->
  brightness_inv (fst (fst (brightness_control_set_level level s)))
  /\ Forall (fun e => In (carried e) BRIGHTNESS_LEVELS)
       (snd (fst (brightness_control_set_level level s))).
Proof.
  intros (Hi & Hb & Ht).
  unfold brightness_control_set_level.
  destruct (_ || _) eqn:E; [simpl; split; [now apply inv_intro|constructor]|].
  apply orb_false_iff in E as [E1 E2].
  apply Z.ltb_ge in E1. rewrite Z.gtb_ltb in E2. apply Z.ltb_ge in E2.
  destruct (find_level_least level E2) as (i & -> & Hir & Hge & Hmin).
  pose proof (level_at_in i Hir) as Hin.
  pose proof (levels_range _ Hin) as Hr.
  simpl. split; [apply inv_intro; simpl; auto|].
  constructor; [exact Hin|constructor].
Qed.

Lemma apply_op_keeps_inv o s :
  brightness_inv s ->
  brightness_inv (fst (apply_op o s))
  /\ Forall (fun e => In (carried e) BRIGHTNESS_LEVELS) (snd (apply_op o s)).
Proof.
  intros Hs. destruct o as [| |d| |level]; cbn [apply_op].
  - split; [|constructor]. destruct Hs as (Hi & Hb & Ht).
    unfold input_long_press_handler. simpl.
    destruct (negb _); apply inv_intro; simpl; auto.
  - split; [|constructor]. destruct Hs as (Hi & Hb & Ht).
    unfold input_release_handler. simpl.
    destruct (negb _); apply inv_intro; simpl; auto.
  - split; [|constructor]. destruct Hs as (Hi & Hb & Ht).
    destruct d; apply inv_intro; simpl; auto.
  - destruct (cycle_timer_running s); [|split; [exact Hs|constructor]].
    unfold cycle_timer_callback.
    destruct (cycling s); [|split; [exact Hs|constructor]].
    now apply cycle_brightness_keeps_inv.
  - pose proof (set_level_keeps_inv level s Hs) as H.
    destruct (brightness_control_set_level level s) as [[s' evs] err].
    exact H.
Qed.

Lemma run_ops_keeps_brightness_inv ops : forall s,
  brightness_inv s ->
  brightness_inv (fst (Brightness.run_ops ops s))
  /\ Forall (fun e => In (carried e) BRIGHTNESS_LEVELS)
       (snd (Brightness.run_ops ops s)).
Proof.
  induction ops as [|o ops IH]; intros s Hs; [split; [exact Hs|constructor]|].
  cbn [Brightness.run_ops].
  destruct (apply_op_keeps_inv o s Hs) as [H1 E1].
  destruct (apply_op o s) as [s1 ev1]. simpl in H1, E1.
  destruct (IH s1 H1) as [H2 E2].
  destruct (Brightness.run_ops ops s1) as [s2 ev2]. simpl in *.
  split; [exact H2|]. apply Forall_app. split; assumption.
Qed.

Lemma init_establishes_inv c s s' :
  brightness_control_init (Some c) s = (s', ESP_OK) ->
  initialized s = false ->
  brightness_inv s'
  /\ current_brightness s' = initial_brightness c
  /\ initial_brightness c <= level_at (current_level_index s')
  /\ (forall l, In l BRIGHTNESS_LEVELS -> initial_brightness c <= l ->
        level_at (current_level_index s') <= l)
  /\ initialized s' = true /\ cycling s' = false /\ going_up s' = true
  /\ active_panel s' = PANEL_CLOCK.
Proof.
  unfold brightness_control_init. intros H Hini. rewrite Hini in H.
  destruct (_ || _) eqn:E; [discriminate|].
  apply orb_false_iff in E as [E1 E2].
  apply Z.ltb_ge in E1. rewrite Z.gtb_ltb in E2. apply Z.ltb_ge in E2.
  destruct (find_level_least (initial_brightness c) E2)
    as (i & Hf & Hir & Hge & Hmin).
  rewrite Hf in H. inversion H; subst s'; clear H. simpl.
  split; [apply inv_intro; simpl; auto|]. repeat split; auto.
Qed.

End BrightnessFacts.

Section BrightnessTheorems.

Import Panel Brightness.


(** X26.  [brightness_control_set_level] accepts exactly the levels from 2
    to 15; a rejected call changes nothing and posts nothing.  An accepted
    level is rounded up to the least level of the table that is at least the
    requested one (a level of the table is kept as it is), the index points
    at it, and one [BRIGHTNESS_CHANGED] with the rounded level is posted. *)
Theorem set_level_rounds_up (level : Z) (s : state) :
  let '(s', evs, err) := brightness_control_set_level level s in
  (err = ESP_OK <-> BRIGHTNESS_MIN <= level <= BRIGHTNESS_MAX)
  /\ (err <> ESP_OK -> err = ESP_ERR_INVALID_ARG /\ s' = s /\ evs = [])
  /\ (err = ESP_OK ->
        evs = [BRIGHTNESS_CHANGED (current_brightness s')]
        /\ 0 <= current_level_index s' < BRIGHTNESS_LEVEL_COUNT
        /\ current_brightness s' = level_at (current_level_index s')
        /\ level <= current_brightness s'
        /\ (forall l, In l BRIGHTNESS_LEVELS -> level <= l ->
              current_brightness s' <= l)
        /\ (In level BRIGHTNESS_LEVELS -> current_brightness s' = level)).
Proof.
  unfold brightness_control_set_level.
  destruct (_ || _) eqn:Er.
  - apply orb_true_iff in Er as [Er | Er];
      [apply Z.ltb_lt in Er | rewrite Z.gtb_ltb in Er; apply Z.ltb_lt in Er];
      (split; [split; [discriminate | lia]|]);
      (split; [auto | discriminate]).
  - apply orb_false_iff in Er as [E1 E2].
    apply Z.ltb_ge in E1. rewrite Z.gtb_ltb in E2. apply Z.ltb_ge in E2.
    destruct (find_level_least level E2) as (i & -> & Hir & Hge & Hmin).
    split; [split; [lia | reflexivity]|].
    split; [congruence|]. intros _. simpl.
    repeat split; auto; try lia.
    intros Hin. specialize (Hmin level Hin). lia.
Qed.

(** X27.  From a successful [brightness_control_init] on, whatever long
    presses, releases, panel activations, timer expiries and
    [brightness_control_set_level] calls follow: the level index stays
    inside the table, the brightness stays between 2 and 15, the cycle timer
    runs exactly while a sweep is on, and every [BRIGHTNESS_CHANGED] posted
    carries one of the five levels of the table. *)
Theorem brightness_invariant
    (cfg : brightness_control_config_t) (ops : list op) (s0 : state) :
  brightness_control_init (Some cfg) zero_state = (s0, ESP_OK) ->
  let r := Brightness.run_ops ops s0 in
  brightness_inv (fst r)
  /\ Forall (fun e => In (carried e) BRIGHTNESS_LEVELS) (snd r).
Proof.
  intros Hinit r. subst r.
  apply run_ops_keeps_brightness_inv.
  now apply (init_establishes_inv cfg zero_state s0).
Qed.

Lemma brightness_invariant_witness :
  let cfg := {| initial_brightness := 7; cycle_interval_ms := 300 |} in
  let s0 := fst (brightness_control_init (Some cfg) zero_state) in
  brightness_inv
    (fst (Brightness.run_ops
            [LongPress; TimerExpiry; TimerExpiry; Release; SetLevel 10] s0)).
Proof.
  intros cfg s0.
  apply (brightness_invariant cfg
           [LongPress; TimerExpiry; TimerExpiry; Release; SetLevel 10] s0).
  reflexivity.
Defined.

(** X28.  The sweep has period twelve: from any state of a sweep, twelve
    expiries of the cycle timer bring index, direction and pause flag back
    to where they were, leave the brightness at the level of that index,
    and post ten events, every level of the table exactly twice; the two
    remaining expiries are the pauses at the ends. *)
Theorem sweep_has_period_twelve (s : state) :
  on_sweep s ->
  let r := timer_ticks 12 s in
  current_level_index (fst r) = current_level_index s
  /\ going_up (fst r) = going_up s
  /\ at_limit (fst r) = at_limit s
  /\ cycling (fst r) = true
  /\ current_brightness (fst r) = level_at (current_level_index s)
  /\ length (snd r) = 10%nat
  /\ Forall (fun l => count_level l (snd r) = 2%nat) BRIGHTNESS_LEVELS.
Proof.
  intros (Hc & Hi & Hlim) r. subst r.
  destruct s as [ini cfg b i c up lim ap tr]; simpl in Hc, Hi, Hlim. subst c.
  apply level_index_cases in Hi.
  destruct Hi as [-> | [-> | [-> | [-> | ->]]]]; destruct up, lim;
    try solve [exfalso; destruct (Hlim eq_refl) as [[H1 H2] | [H1 H2]];
               first [discriminate H1 | discriminate H2]];
    repeat split; try reflexivity;
    repeat (constructor; [reflexivity|]); constructor.
Qed.

Lemma sweep_has_period_twelve_witness :
  let s := input_long_press_handler
             (fst (brightness_control_init
                     (Some {| initial_brightness := 9; cycle_interval_ms := 300 |})
                     zero_state)) in
  current_brightness (fst (timer_ticks 12 s)) = 9.
Proof.
  intros s. apply (sweep_has_period_twelve s).
  split; [reflexivity|]. split; [split; [discriminate | reflexivity]|].
  discriminate.
Defined.

(** X29.  Off the clock panel no sweep starts: while another panel is
    active and no sweep is on, long presses, releases, timer expiries and
    panel events without data change nothing and post nothing. *)
Theorem no_sweep_off_clock_panel (ops : list op) (s : state) :
  active_panel s <> PANEL_CLOCK ->
  cycling s = false ->
  forallb no_activation ops = true ->
  Brightness.run_ops ops s = (s, []).
Proof.
  intros Hap Hc. induction ops as [|o ops IH]; intros Hops; [reflexivity|].
  simpl in Hops. apply andb_true_iff in Hops as [Ho Hops].
  cbn [Brightness.run_ops].
  assert (apply_op o s = (s, [])) as ->.
  { destruct o as [| |[p|]| |level]; try discriminate; cbn [apply_op].
    - unfold input_long_press_handler.
      apply Z.eqb_neq in Hap. now rewrite Hap.
    - unfold input_release_handler. now rewrite Hc.
    - reflexivity.
    - unfold cycle_timer_callback. rewrite Hc.
      now destruct (cycle_timer_running s). }
  now rewrite IH.
Qed.

Lemma no_sweep_off_clock_panel_witness :
  let s := panel_activated_handler (Some PANEL_DATE)
             (fst (brightness_control_init
                     (Some {| initial_brightness := 9; cycle_interval_ms := 300 |})
                     zero_state)) in
  Brightness.run_ops [LongPress; TimerExpiry; Release; TimerExpiry] s = (s, []).
Proof.
  intros s.
  apply (no_sweep_off_clock_panel [LongPress; TimerExpiry; Release; TimerExpiry] s);
    [discriminate | reflexivity | reflexivity].
Defined.

End BrightnessTheorems.

(* ====================================================================== *)
(** * The clock panel's scene *)
(* ====================================================================== *)

Section ClockFacts.

Import Font Display Clock.

Lemma seqZ_checked (f : Z -> bool) (n z : Z) :
  forallb f (seqZ 0 n) = true -> 0 <= z < n -> f z = true.
Proof.
  intros H Hz. rewrite forallb_forall in H. apply H.
  apply list_elem_of_In, elem_of_seqZ. lia.
Qed.

(** The 24 x 60 times of the day, in both formats and with both
    separators, by evaluation. *)
Lemma time_widths_checked :
  forallb (fun twelve =>
    forallb (fun even =>
      forallb (fun hour =>
        forallb (fun min => time_width_ok twelve even hour min) (seqZ 0 60))
        (seqZ 0 24))
      [true; false])
    [true; false] = true.
Proof. vm_compute. reflexivity. Qed.

Lemma time_width_ok_all twelve even hour min :
  0 <= hour <= 23 -> 0 <= min <= 59 ->
  time_width_ok twelve even hour min = true.
Proof.
  intros Hh Hm. pose proof time_widths_checked as H.
  rewrite forallb_forall in H.
  assert (In twelve [true; false]) as Ht by (destruct twelve; simpl; auto).
  specialize (H twelve Ht). rewrite forallb_forall in H.
  assert (In even [true; false]) as He by (destruct even; simpl; auto).
  specialize (H even He).
  apply (seqZ_checked _ 24 hour) in H; [|lia].
  apply (seqZ_checked _ 60 min) in H; [|lia].
  exact H.
Qed.

(** The time string depends on the format and on the parity of the seconds
    only through two tests. *)
Lemma time_str_depends lang format now sec min hour wday :
  0 < now ->
  option_map (fun scene => element_text scene 1)
    (render_time lang format now
       {| tm_sec := sec; tm_min := min; tm_hour := hour; tm_wday := wday |}) =
  option_map (fun scene => element_text scene 1)
    (render_time LANG_EN
       (if format =? TIME_FORMAT_12H then TIME_FORMAT_12H else TIME_FORMAT_24H) 1
       {| tm_sec := if Z.rem sec 2 =? 0 then 0 else 1;
          tm_min := min; tm_hour := hour; tm_wday := 0 |}).
Proof.
  intros Hnow. unfold render_time.
  replace (now <=? 0) with false by (symmetry; apply Z.leb_gt; lia).
  change (1 <=? 0) with false. cbv beta iota.
  cbn [tm_sec tm_min tm_hour tm_wday].
  destruct (format =? TIME_FORMAT_12H); destruct (Z.rem sec 2 =? 0);
    reflexivity.
Qed.

Lemma day_width lang wday :
  0 <= wday <= 6 ->
  String.length (snprintf_fit 4 (i18n_get_day_name lang wday)) = 3%nat
  /\ get_text_width (snprintf_fit 4 (i18n_get_day_name lang wday))
       (Some font_dotmatrix_small) = 11.
Proof.
  intros H.
  assert (wday = 0 \/ wday = 1 \/ wday = 2 \/ wday = 3 \/ wday = 4
          \/ wday = 5 \/ wday = 6) as Hc by lia.
  unfold i18n_get_day_name.
  destruct (lang =? LANG_ES);
    destruct Hc as [-> | [-> | [-> | [-> | [-> | [-> | ->]]]]]];
    vm_compute; split; reflexivity.
Qed.

End ClockFacts.

Section ClockTheorems.

Import Font Display Clock.

(** X30.  For every valid local time, in either language, either time
    format and with the colon shown or blanked, [render_time] posts a scene
    of two texts, the three-letter day name in the small dot matrix font and
    the time of four or five characters in the default font.  The day name
    is 11 columns wide and the scene 27 or 31 columns, so it fits the 32
    columns of the display and [render_scene] centres it without clipping. *)
Theorem clock_scene_fits_display (lang format now : Z) (time : tm) :
  0 < now ->
  0 <= tm_wday time <= 6 ->
  0 <= tm_hour time <= 23 ->
  0 <= tm_min time <= 59 ->
  exists scene dow_str time_str,
    render_time lang format now time = Some scene
    /\ elements scene =
         [SCENE_ELEMENT_TEXT dow_str (Some font_dotmatrix_small);
          SCENE_ELEMENT_TEXT time_str (Some font_default)]
    /\ String.length dow_str = 3%nat
    /\ (4 <= String.length time_str <= 5)%nat
    /\ get_text_width dow_str (Some font_dotmatrix_small) = 11
    /\ scene_total_width (elements scene) 0 =
         11 + 4 * Z.of_nat (String.length time_str)
    /\ scene_total_width (elements scene) 0 <= 8 * MAX7219_CASCADE
    /\ 0 <= Z.quot (32 - scene_total_width (elements scene) 0) 2.
Proof.
  intros Hnow Hw Hh Hm.
  destruct time as [sec min hour wday]; cbn [tm_wday tm_hour tm_min] in Hw, Hh, Hm.
  pose proof (time_width_ok_all (format =? TIME_FORMAT_12H)
                (Z.rem sec 2 =? 0) hour min Hh Hm) as Hok.
  pose proof (time_str_depends lang format now sec min hour wday Hnow) as Hts.
  destruct (day_width lang wday Hw) as [Hdl Hdw].
  unfold time_width_ok in Hok.
  destruct (render_time LANG_EN _ 1 _) as [sc'|]; [|discriminate].
  unfold render_time in Hts |- *.
  replace (now <=? 0) with false in * by (symmetry; apply Z.leb_gt; lia).
  cbv beta iota zeta in Hts |- *.
  cbn [tm_sec tm_min tm_hour tm_wday option_map element_text elements nth_error]
    in Hts |- *.
  injection Hts as Hts. cbv zeta in Hok. rewrite <- Hts in Hok.
  apply andb_true_iff in Hok as [Hok Hwd].
  apply andb_true_iff in Hok as [Hlo Hhi].
  apply Z.leb_le in Hlo, Hhi. apply Z.eqb_eq in Hwd.
  eexists _, _, _. split; [reflexivity|].
  cbn [elements scene_total_width element_width].
  split; [reflexivity|]. rewrite Hdw, Hwd.
  unfold MAX7219_CASCADE.
  repeat split; try assumption; try lia.
  apply Z.quot_pos; lia.
Qed.

Lemma clock_scene_fits_display_witness :
  exists scene,
    render_time LANG_ES TIME_FORMAT_24H 1700000000
      {| tm_sec := 7; tm_min := 5; tm_hour := 9; tm_wday := 3 |} = Some scene
    /\ scene_total_width (elements scene) 0 <= 32.
Proof.
  destruct (clock_scene_fits_display LANG_ES TIME_FORMAT_24H 1700000000
              {| tm_sec := 7; tm_min := 5; tm_hour := 9; tm_wday := 3 |})
    as (scene & d & t & Hr & _ & _ & _ & _ & _ & Hfit & _);
    [reflexivity | split; discriminate | split; discriminate
    | split; discriminate |].
  exists scene. split; [exact Hr | exact Hfit].
Defined.

End ClockTheorems.
